(** * smtp.go: a shallow embedding of the wire codec, the reply model,
      the client's error translation and the server session.

    Go's [string] and [[]byte] are both sequences of octets (the first
    immutable, the second not); both are embedded as [list byte], so that
    the conversions
    [string(b)] and [[]byte(s)] of the source are the identity here.
    Go's [int] is embedded as [Z]; where the source increments a counter
    the 64-bit wrap-around is written out.

    The embedding comes first (one module per Go package), then the
    properties proved about it. *)

From Stdlib Require Import List ZArith NArith Lia Bool.
From Stdlib Require DecimalZ DecimalPos.
From Stdlib Require Strings.String.
From Stdlib Require Import Strings.Byte.
Import ListNotations.

Import String.StringSyntax.
Delimit Scope string_scope with string.

Set Implicit Arguments.
Open Scope byte_scope.
Open Scope list_scope.

(* ================================================================= *)
(** * Part I: the embedding *)
(* ================================================================= *)

(** ** Octet strings *)

Definition bytes := list byte.

(** A Go string literal. *)
Definition bs (s : String.string) : bytes := String.list_byte_of_string s.
Arguments bs s%_string.

Definition CR : byte := "013".
Definition LF : byte := "010".
Definition NUL : byte := "000".
Definition CRLF : bytes := [CR; LF].

Fixpoint bytes_eqb (a b : bytes) : bool :=
  match a, b with
  | [], [] => true
  | x :: a', y :: b' => Byte.eqb x y && bytes_eqb a' b'
  | _, _ => false
  end.

(** The octet [c] does not occur in [s]. *)
Definition without (c : byte) (s : bytes) : bool :=
  forallb (fun x => negb (Byte.eqb x c)) s.

(** Decimal digits. *)
Definition isDigit (c : byte) : bool :=
  existsb (Byte.eqb c) ["0"; "1"; "2"; "3"; "4"; "5"; "6"; "7"; "8"; "9"].

(** Go's [error] values that occur in the embedded code. *)
Inductive error : Type :=
| io_EOF
| io_ErrUnexpectedEOF
| io_ErrClosedPipe
| bufio_ErrBufferFull
| strconv_ErrSyntax
| strconv_ErrRange
| ErrLineTooLong (n max : Z)      (* fmt.Errorf("smtp: line too long (%d bytes, max %d)") *)
| ErrOther (msg : bytes).

(* ----------------------------------------------------------------- *)
(** ** Package internal/textproto, file dot.go *)
(* ----------------------------------------------------------------- *)

Module textproto_dot.

Inductive dotState : Type :=
| dotStateBeginLine   (* At the beginning of a line. *)
| dotStateLine        (* In the middle of a line. *)
| dotStateCR          (* Just saw \r. *)
| dotStateDot         (* Saw dot at beginning of line. *)
| dotStateDotCR       (* Saw dot then \r at beginning of line. *)
| dotStateEOF.        (* Reached termination. *)

(** The [*bufio.Reader] a dotReader reads from is the sequence of octets
    not yet consumed; [ReadByte] takes its head (and fails with [io.EOF]
    on the empty sequence), [UnreadByte] puts the last octet back. *)
Record dotReader : Type := mkDotReader {
  r : bytes;
  state : dotState
}.

Definition newDotReader (src : bytes) : dotReader :=
  {| r := src; state := dotStateBeginLine |}.

(** Result of the loop of [Read]: the octets stored into [p[0:n]], the
    returned error, the reader's state and what is left in the
    underlying reader. *)
Definition loopResult : Type := bytes * option error * dotState * bytes.

Definition emit (b : byte) (res : loopResult) : loopResult :=
  let '(out, e, st, src) := res in (b :: out, e, st, src).

(** The loop [for n < len(p)] of [dotReader.Read].  [room] is
    [len(p) - n] and [n_pos] tells whether [n > 0].  Where the source
    calls [UnreadByte] the buffer is full ([n = len(p)]), so the loop
    ends there and the octet stays in front of the underlying reader. *)
Fixpoint Read_loop (src : bytes) (st : dotState) (room : nat) (n_pos : bool)
  {struct src} : loopResult :=
  match room with
  | O => ([], None, st, src)
  | S room1 =>
    match src with
    | [] =>
        (* ReadByte failed: d.state = dotStateEOF *)
        ([], (if n_pos then None else Some io_EOF), dotStateEOF, [])
    | b :: src' =>
      match st with
      | dotStateBeginLine =>
          if Byte.eqb b "." then Read_loop src' dotStateDot room n_pos
          else if Byte.eqb b CR then emit b (Read_loop src' dotStateCR room1 true)
          else if Byte.eqb b LF then emit b (Read_loop src' dotStateBeginLine room1 true)
          else emit b (Read_loop src' dotStateLine room1 true)
      | dotStateLine =>
          let st' := if Byte.eqb b CR then dotStateCR
                     else if Byte.eqb b LF then dotStateBeginLine
                     else dotStateLine in
          emit b (Read_loop src' st' room1 true)
      | dotStateCR =>
          let st' := if Byte.eqb b LF then dotStateBeginLine
                     else if Byte.eqb b CR then dotStateCR
                     else dotStateLine in
          emit b (Read_loop src' st' room1 true)
      | dotStateDot =>
          if Byte.eqb b CR then Read_loop src' dotStateDotCR room n_pos
          else if Byte.eqb b LF then ([], Some io_EOF, dotStateEOF, src')
          else if Byte.eqb b "." then emit "." (Read_loop src' dotStateLine room1 true)
          else
            match room1 with
            | S room2 => emit "." (emit b (Read_loop src' dotStateLine room2 true))
            | O => (* UnreadByte *) (["."], None, dotStateLine, b :: src')
            end
      | dotStateDotCR =>
          if Byte.eqb b LF then ([], Some io_EOF, dotStateEOF, src')
          else
            match room1 with
            | S room2 =>                       (* n+2 <= len(p) *)
                match room2 with
                | S room3 =>
                    emit "." (emit CR (emit b (Read_loop src' dotStateLine room3 true)))
                | O => (* UnreadByte *) (["."; CR], None, dotStateLine, b :: src')
                end
            | O =>
                (* UnreadByte; p[n] = '.'; n++; return n, nil *)
                (["."], None, dotStateLine, b :: src')
            end
      | dotStateEOF =>
          (* no case of the switch applies *)
          Read_loop src' dotStateEOF room n_pos
      end
    end
  end.

(** [dotReader.Read(p)] with [len(p) = lenp]: the octets read, the error
    and the reader afterwards. *)
Definition Read (d : dotReader) (lenp : nat) : bytes * option error * dotReader :=
  match state d with
  | dotStateEOF => ([], Some io_EOF, d)
  | _ =>
      let '(out, e, st, src) := Read_loop (r d) (state d) lenp false in
      (out, e, {| r := src; state := st |})
  end.

(** [io.ReadAll]: it calls [Read] with the free part of its buffer until
    an error comes back, and turns [io.EOF] into success.  The free
    space is a function [avail] of the number of octets gathered so far
    (512 at first, then what [append] grows the buffer by); [io.ReadAll]
    keeps it positive.  [None] is returned when [fuel] calls of [Read]
    did not reach the end. *)
Fixpoint ReadAll (avail : nat -> nat) (fuel : nat) (d : dotReader) (b : bytes)
  : option (bytes * option error * dotReader) :=
  match fuel with
  | O => None
  | S fuel' =>
      let '(out, e, d') := Read d (avail (length b)) in
      match e with
      | Some io_EOF => Some (b ++ out, None, d')
      | Some e' => Some (b ++ out, Some e', d')
      | None => ReadAll avail fuel' d' (b ++ out)
      end
  end.

(** The [*bufio.Writer] of a dotWriter is the sequence of octets written
    so far; writing to it does not fail. *)
Record dotWriter : Type := mkDotWriter {
  w : bytes;
  beginLine : bool;
  closed : bool
}.

Definition newDotWriter (out : bytes) : dotWriter :=
  {| w := out; beginLine := true; closed := false |}.

(** The loop [for _, b := range p] of [dotWriter.Write]. *)
Fixpoint Write_loop (p : bytes) (out : bytes) (bl : bool) : bytes * bool :=
  match p with
  | [] => (out, bl)
  | b :: p' =>
      let out1 := if bl && Byte.eqb b "." then out ++ ["."] else out in
      Write_loop p' (out1 ++ [b]) (Byte.eqb b LF)
  end.

Definition Write (d : dotWriter) (p : bytes) : (nat * option error) * dotWriter :=
  if closed d then ((O, Some io_ErrClosedPipe), d)
  else
    let '(out, bl) := Write_loop p (w d) (beginLine d) in
    ((length p, None), {| w := out; beginLine := bl; closed := false |}).

Definition Close (d : dotWriter) : option error * dotWriter :=
  if closed d then (None, d)
  else
    let out1 := if negb (beginLine d) then w d ++ CRLF else w d in
    (None, {| w := out1 ++ ["."; CR; LF]; beginLine := beginLine d; closed := true |}).

(** What ends up on the wire when [B] is written through a fresh
    dotWriter which is then closed. *)
Definition DotWriter_wire (B : bytes) : bytes :=
  w (snd (Close (snd (Write (newDotWriter []) B)))).

(** The canonical form the round-trip test and the fuzz target compare
    with: CRLF is appended when the message is not empty and does not
    end with LF. *)
Definition HasSuffix_LF (B : bytes) : bool :=
  match B with
  | [] => false
  | _ => Byte.eqb (last B NUL) LF
  end.

Definition canonical (B : bytes) : bytes :=
  match B with
  | [] => B
  | _ => if HasSuffix_LF B then B else B ++ CRLF
  end.

(** The canonical form as the specification words it: CRLF is appended
    when [B] does not already end with CRLF. *)
Definition HasSuffix_CRLF (B : bytes) : bool :=
  match rev B with
  | b :: c :: _ => Byte.eqb b LF && Byte.eqb c CR
  | _ => false
  end.

Definition canonical_crlf (B : bytes) : bytes :=
  if HasSuffix_CRLF B then B else B ++ CRLF.

(** *** Notions used to state and prove the properties of dot.go *)

(** What a dotWriter whose [beginLine] flag is [bl] sends for [p], and
    its flag afterwards. *)
Fixpoint stuffed (bl : bool) (p : bytes) : bytes :=
  match p with
  | [] => []
  | b :: p' =>
      (if bl && Byte.eqb b "." then ["."] else []) ++ b :: stuffed (Byte.eqb b LF) p'
  end.

Fixpoint flagAfter (bl : bool) (p : bytes) : bool :=
  match p with
  | [] => bl
  | b :: p' => flagAfter (Byte.eqb b LF) p'
  end.

(** The states of a dotReader that has just delivered the octet [b]. *)
Definition stateAfter (b : byte) : dotState :=
  if Byte.eqb b CR then dotStateCR
  else if Byte.eqb b LF then dotStateBeginLine
  else dotStateLine.

(** A reader state that agrees with the writer's flag: both are at the
    beginning of a line, or neither is. *)
Definition agree (bl : bool) (st : dotState) : Prop :=
  if bl then st = dotStateBeginLine
  else st = dotStateLine \/ st = dotStateCR.

(** What is left in the underlying reader after the loop of [Read], and
    the error it returns. *)
Definition restOf (res : loopResult) : bytes := snd res.
Definition errOf (res : loopResult) : option error := snd (fst (fst res)).

(** The octets that the loop of [Read] has stored, and the state it
    leaves the reader in. *)
Definition outOf (res : loopResult) : bytes := fst (fst (fst res)).
Definition stateOf (res : loopResult) : dotState := snd (fst res).

(** A dotReader somewhere in a body that a dotWriter has sent, [T]
    being what follows the body in the stream: it has met the terminator
    and [T] is left, or it agrees with the writer on where the line
    begins and has the rest of the body, the terminator and [T] to read. *)
Definition inBody (T : bytes) (d : dotReader) : Prop :=
  (state d = dotStateEOF /\ r d = T)
  \/ exists bl B,
       agree bl (state d) /\ flagAfter bl B = true /\
       r d = stuffed bl B ++ ["."; CR; LF] ++ T.

(** What a program does with a dotWriter. *)
Inductive writerOp : Type :=
| OpWrite (p : bytes)
| OpClose.

Definition applyOp (d : dotWriter) (op : writerOp) : dotWriter :=
  match op with
  | OpWrite p => snd (Write d p)
  | OpClose => snd (Close d)
  end.

End textproto_dot.


(* ----------------------------------------------------------------- *)
(** ** Go's standard library: strings, strconv, fmt *)
(* ----------------------------------------------------------------- *)

(** The parts of the standard library and of the outside world that the
    embedded code calls but that are not embedded themselves.  Every
    property below holds for all of them. *)
Class Externals : Type := {
  (* strings.Map(unicode.ToUpper, s), used by strings.ToUpper when s is not ASCII *)
  unicode_ToUpper : bytes -> bytes;
  (* strings.TrimFunc(s, unicode.IsSpace) and strings.TrimRightFunc(s, unicode.IsSpace),
     used by strings.TrimSpace when it meets an octet that is not ASCII *)
  unicode_TrimFunc_IsSpace : bytes -> bytes;
  unicode_TrimRightFunc_IsSpace : bytes -> bytes;
  (* strings.FieldsFunc(s, unicode.IsSpace), used by strings.Fields when s is not ASCII *)
  unicode_FieldsFunc_IsSpace : bytes -> list bytes;
  (* the runes that [for _, r := range s] yields, and utf8.ValidString *)
  utf8_runes : bytes -> list Z;
  utf8_ValidString : bytes -> bool;
  (* fmt.Sscanf(s, "%d", &size): the value scanned, or an error *)
  fmt_Sscanf_d : bytes -> option Z;
  (* tls.Server(conn, cfg).Handshake(): whether it succeeds, and the octets
     that can be read afterwards (through the TLS connection on success) *)
  tls_Handshake : bytes -> bool * bytes;
  (* the k-th call of time.Now(): UnixNano() and Unix() *)
  time_Now : nat -> Z * Z
}.

Module strings.

Definition isASCII (c : byte) : bool := (Byte.to_N c <? 128)%N.

Definition asciiSpace (c : byte) : bool :=
  Byte.eqb c "009" || Byte.eqb c "010" || Byte.eqb c "011" ||
  Byte.eqb c "012" || Byte.eqb c "013" || Byte.eqb c " ".

Definition isLower (c : byte) : bool :=
  (Byte.to_N "a" <=? Byte.to_N c)%N && (Byte.to_N c <=? Byte.to_N "z")%N.

Definition upperByte (c : byte) : byte :=
  if isLower c then
    match Byte.of_N (Byte.to_N c - 32) with Some c' => c' | None => c end
  else c.

Definition ToUpper `{Externals} (s : bytes) : bytes :=
  if forallb isASCII s then map upperByte s else unicode_ToUpper s.

(** [strings.HasPrefix]. *)
Fixpoint HasPrefix (s prefix : bytes) : bool :=
  match prefix, s with
  | [], _ => true
  | p :: prefix', c :: s' => Byte.eqb c p && HasPrefix s' prefix'
  | _ :: _, [] => false
  end.

Definition HasSuffix (s suffix : bytes) : bool :=
  HasPrefix (rev s) (rev suffix).

(** [strings.Cut(s, sep)] for a separator of one octet. *)
Fixpoint Cut (s : bytes) (sep : byte) : bytes * bytes * bool :=
  match s with
  | [] => ([], [], false)
  | c :: s' =>
      if Byte.eqb c sep then ([], s', true)
      else let '(before, after, found) := Cut s' sep in (c :: before, after, found)
  end.

(** [strings.SplitN(s, sep, 2)] for a separator of one octet. *)
Definition SplitN2 (s : bytes) (sep : byte) : list bytes :=
  let '(before, after, found) := Cut s sep in
  if found then [before; after] else [s].

(** [strings.Split(s, sep)] for a separator of one octet. *)
Fixpoint Split (s : bytes) (sep : byte) : list bytes :=
  match s with
  | [] => [[]]
  | c :: s' =>
      if Byte.eqb c sep then [] :: Split s' sep
      else match Split s' sep with
           | f :: fs => (c :: f) :: fs
           | [] => [[c]]
           end
  end.

(** [strings.Join(elems, sep)]. *)
Fixpoint Join (elems : list bytes) (sep : bytes) : bytes :=
  match elems with
  | [] => []
  | [e] => e
  | e :: elems' => e ++ sep ++ Join elems' sep
  end.

(** [strings.ContainsRune(s, 0)], which is [strings.IndexByte(s, 0) >= 0]. *)
Definition ContainsNUL (s : bytes) : bool := existsb (fun c => Byte.eqb c NUL) s.

(** [strings.Contains(s, substr)]. *)
Fixpoint Contains (s substr : bytes) : bool :=
  HasPrefix s substr ||
  match s with
  | [] => false
  | _ :: s' => Contains s' substr
  end.

(** [strings.LastIndexByte(s, c)] and [strings.LastIndex(s, " ")];
    [None] stands for -1. *)
Fixpoint LastIndexByte (s : bytes) (c : byte) : option nat :=
  match s with
  | [] => None
  | x :: s' =>
      match LastIndexByte s' c with
      | Some i => Some (S i)
      | None => if Byte.eqb x c then Some O else None
      end
  end.

(** [strings.TrimSpace]: the ASCII fast path, falling back to the
    Unicode functions at the first octet that is not ASCII. *)
Fixpoint trimRight (rs : bytes) : bytes * bool :=
  (* [rs] is [s[start:]] reversed; the result is [s[start:stop]] reversed,
     and whether the scan from the end stopped at an octet that is not ASCII *)
  match rs with
  | [] => ([], false)
  | c :: rs' =>
      if negb (isASCII c) then (rs, true)
      else if asciiSpace c then trimRight rs' else (rs, false)
  end.

Fixpoint TrimSpace `{Externals} (s : bytes) : bytes :=
  match s with
  | [] => []
  | c :: s' =>
      if negb (isASCII c) then unicode_TrimFunc_IsSpace s
      else if asciiSpace c then TrimSpace s'
      else
        let '(rs, uni) := trimRight (rev s) in
        if uni then unicode_TrimRightFunc_IsSpace (rev rs) else rev rs
  end.

(** [strings.Fields]: around runs of ASCII white space when [s] is ASCII. *)
Fixpoint fieldsASCII (s : bytes) (cur : option bytes) : list bytes :=
  match s with
  | [] => match cur with Some f => [f] | None => [] end
  | c :: s' =>
      if asciiSpace c then
        match cur with
        | Some f => f :: fieldsASCII s' None
        | None => fieldsASCII s' None
        end
      else
        fieldsASCII s' (Some (match cur with Some f => f ++ [c] | None => [c] end))
  end.

Definition Fields `{Externals} (s : bytes) : list bytes :=
  if forallb isASCII s then fieldsASCII s None else unicode_FieldsFunc_IsSpace s.

End strings.

Module strconv.

Definition digit (c : byte) (d : Decimal.uint) : option Decimal.uint :=
  match c with
  | "0" => Some (Decimal.D0 d) | "1" => Some (Decimal.D1 d)
  | "2" => Some (Decimal.D2 d) | "3" => Some (Decimal.D3 d)
  | "4" => Some (Decimal.D4 d) | "5" => Some (Decimal.D5 d)
  | "6" => Some (Decimal.D6 d) | "7" => Some (Decimal.D7 d)
  | "8" => Some (Decimal.D8 d) | "9" => Some (Decimal.D9 d)
  | _ => None
  end.

Fixpoint parse_uint (s : bytes) : option Decimal.uint :=
  match s with
  | [] => Some Decimal.Nil
  | c :: s' =>
      match parse_uint s' with
      | Some d => digit c d
      | None => None
      end
  end.

Definition minInt : Z := - 2 ^ 63.
Definition maxInt : Z := 2 ^ 63 - 1.

(** [strconv.Atoi] on a 64-bit platform: an optional sign, then one or
    more decimal digits; a value outside [int] is a range error.  The
    accepted strings and their values are those of the library; on a string
    that both overflows and holds a bad octet the library may report the
    range error first, which no caller in this repository distinguishes
    (they test [err != nil] only). *)
Definition Atoi (s : bytes) : Z + error :=
  let '(neg, ds) :=
    match s with
    | "-" :: s' => (true, s')
    | "+" :: s' => (false, s')
    | _ => (false, s)
    end in
  match ds with
  | [] => inr strconv_ErrSyntax
  | _ =>
      match parse_uint ds with
      | None => inr strconv_ErrSyntax
      | Some d =>
          let v := Z.of_uint d in
          let v := if neg then (- v)%Z else v in
          if ((minInt <=? v) && (v <=? maxInt))%Z then inl v
          else inr strconv_ErrRange
      end
  end.

End strconv.

Module fmt.

Fixpoint uint_bytes (d : Decimal.uint) : bytes :=
  match d with
  | Decimal.Nil => []
  | Decimal.D0 d' => "0" :: uint_bytes d' | Decimal.D1 d' => "1" :: uint_bytes d'
  | Decimal.D2 d' => "2" :: uint_bytes d' | Decimal.D3 d' => "3" :: uint_bytes d'
  | Decimal.D4 d' => "4" :: uint_bytes d' | Decimal.D5 d' => "5" :: uint_bytes d'
  | Decimal.D6 d' => "6" :: uint_bytes d' | Decimal.D7 d' => "7" :: uint_bytes d'
  | Decimal.D8 d' => "8" :: uint_bytes d' | Decimal.D9 d' => "9" :: uint_bytes d'
  end.

(** The verb [%d] applied to an integer. *)
Definition d (z : Z) : bytes :=
  match Z.to_int z with
  | Decimal.Pos u => uint_bytes u
  | Decimal.Neg u => "-" :: uint_bytes u
  end.

End fmt.

(* ----------------------------------------------------------------- *)
(** ** Package smtp: reply codes, enhanced codes, SMTPError *)
(* ----------------------------------------------------------------- *)

Module smtp.
Local Open Scope Z_scope.

Definition ReplyCode := Z.

Definition ReplySystemStatus : ReplyCode := 211.
Definition ReplyHelpMessage : ReplyCode := 214.
Definition ReplyServiceReady : ReplyCode := 220.
Definition ReplyServiceClosing : ReplyCode := 221.
Definition ReplyAuthOK : ReplyCode := 235.
Definition ReplyOK : ReplyCode := 250.
Definition ReplyUserNotLocal : ReplyCode := 251.
Definition ReplyCannotVRFY : ReplyCode := 252.
Definition ReplyAuthContinue : ReplyCode := 334.
Definition ReplyStartMailInput : ReplyCode := 354.
Definition ReplyServiceNotAvailable : ReplyCode := 421.
Definition ReplyMailboxBusy : ReplyCode := 450.
Definition ReplyLocalError : ReplyCode := 451.
Definition ReplyInsufficientStorage : ReplyCode := 452.
Definition ReplyTempAuthFailure : ReplyCode := 454.
Definition ReplySyntaxError : ReplyCode := 500.
Definition ReplySyntaxParamError : ReplyCode := 501.
Definition ReplyCommandNotImpl : ReplyCode := 502.
Definition ReplyBadSequence : ReplyCode := 503.
Definition ReplyParamNotImpl : ReplyCode := 504.
Definition ReplyAuthRequired : ReplyCode := 530.
Definition ReplyAuthFailed : ReplyCode := 535.

(** Reply code classes. *)
Definition ClassPositiveCompletion : Z := 2.
Definition ClassPositiveIntermediate : Z := 3.
Definition ClassTransientNegative : Z := 4.
Definition ClassPermanentNegative : Z := 5.

(** [ReplyCode.Class]: [int(c) / 100]; Go's division truncates toward
    zero. *)
Definition ReplyCode_Class (c : ReplyCode) : Z := Z.quot c 100.

Definition IsPositive (c : ReplyCode) : bool :=
  let cl := ReplyCode_Class c in
  (cl =? ClassPositiveCompletion) || (cl =? ClassPositiveIntermediate).

Definition IsTransient (c : ReplyCode) : bool :=
  ReplyCode_Class c =? ClassTransientNegative.

Definition IsPermanent (c : ReplyCode) : bool :=
  ReplyCode_Class c =? ClassPermanentNegative.

Record EnhancedCode : Type := mkEnhancedCode {
  Class : Z;
  Subject : Z;
  Detail : Z
}.

Definition EnhancedCodeZero : EnhancedCode := mkEnhancedCode 0 0 0.
Definition EnhancedCodeOK := mkEnhancedCode 2 0 0.
Definition EnhancedCodeOtherAddress := mkEnhancedCode 2 1 0.
Definition EnhancedCodeDestValid := mkEnhancedCode 2 1 5.
Definition EnhancedCodeBadDestSyntax := mkEnhancedCode 5 1 3.
Definition EnhancedCodeBadSenderSyntax := mkEnhancedCode 5 1 7.
Definition EnhancedCodeOtherNetwork := mkEnhancedCode 4 4 0.
Definition EnhancedCodeInvalidCommand := mkEnhancedCode 5 5 1.
Definition EnhancedCodeSyntaxError := mkEnhancedCode 5 5 2.
Definition EnhancedCodeTooManyRecipients := mkEnhancedCode 5 5 3.
Definition EnhancedCodeInvalidParams := mkEnhancedCode 5 5 4.
Definition EnhancedCodeAuthRequired := mkEnhancedCode 5 7 0.
Definition EnhancedCodeAuthCredentials := mkEnhancedCode 5 7 8.

(** [EnhancedCode.String]: ["%d.%d.%d"]. *)
Definition EnhancedCode_String (e : EnhancedCode) : bytes :=
  fmt.d (Class e) ++ ["."] ++ fmt.d (Subject e) ++ ["."] ++ fmt.d (Detail e).

Definition IsZero (e : EnhancedCode) : bool :=
  ((Class e =? 0) && (Subject e =? 0) && (Detail e =? 0))%Z.

Record SMTPError : Type := mkSMTPError {
  Code : ReplyCode;
  Enhanced : EnhancedCode;
  Message : bytes
}.

(** [SMTPError.Temporary]. *)
Definition Temporary (e : SMTPError) : bool := IsTransient (Code e).

(** The loop of [SMTPError.WireLines] over [lines[i:]]. *)
Fixpoint WireLines_loop (code : ReplyCode) (enh : EnhancedCode) (lines : list bytes)
  : bytes :=
  match lines with
  | [] => []
  | line :: rest =>
      fmt.d code
        ++ [match rest with [] => " " | _ => "-" end]     (* i < len(lines)-1 *)
        ++ (if negb (IsZero enh) then EnhancedCode_String enh ++ [" "] else [])
        ++ line ++ CRLF
        ++ WireLines_loop code enh rest
  end.

Definition WireLines (e : SMTPError) : bytes :=
  let msg := match Message e with [] => bs "Error" | m => m end in
  WireLines_loop (Code e) (Enhanced e) (strings.Split msg LF).

(** *** address.go *)

Record Mailbox : Type := mkMailbox {
  LocalPart : bytes;
  Domain : bytes
}.

Record ReversePath : Type := mkReversePath {
  rp_Mailbox : Mailbox;
  Null : bool
}.

Record ForwardPath : Type := mkForwardPath {
  fp_Mailbox : Mailbox
}.

Definition MailboxZero : Mailbox := mkMailbox [] [].
Definition ReversePathZero : ReversePath := mkReversePath MailboxZero false.

(** [Mailbox.String]. *)
Definition Mailbox_String (m : Mailbox) : bytes :=
  match LocalPart m, Domain m with
  | [], [] => []
  | _, _ => LocalPart m ++ bs "@" ++ Domain m
  end.

(** [ReversePath.String] and [ForwardPath.String]. *)
Definition ReversePath_String (rp : ReversePath) : bytes :=
  if Null rp then bs "<>" else bs "<" ++ Mailbox_String (rp_Mailbox rp) ++ bs ">".

Definition ForwardPath_String (fp : ForwardPath) : bytes :=
  bs "<" ++ Mailbox_String (fp_Mailbox fp) ++ bs ">".

Definition errors_New (msg : String.string) : error := ErrOther (bs msg).
Arguments errors_New msg%_string.

Definition DQUOTE : byte := "034".
Definition BACKSLASH : byte := "092".

Definition rune (c : byte) : Z := Z.of_N (Byte.to_N c).

Definition isAlnum (r : Z) : bool :=
  ((rune "a" <=? r) && (r <=? rune "z")) ||
  ((rune "A" <=? r) && (r <=? rune "Z")) ||
  ((rune "0" <=? r) && (r <=? rune "9")).

Definition isAtext (r : Z) : bool :=
  isAlnum r ||
  existsb (fun c => r =? rune c)
    ["!"; "#"; "$"; "%"; "&"; "'"; "*"; "+"; "-"; "/"; "="; "?"; "^"; "_";
     "`"; "{"; "|"; "}"; "~"].

Definition isDotAtomChar (r : Z) : bool :=
  (r =? rune ".") || isAtext r.

Definition firstIs (s : bytes) (c : byte) : bool :=
  match s with x :: _ => Byte.eqb x c | [] => false end.

Definition lastIs (s : bytes) (c : byte) : bool := firstIs (rev s) c.

Section Address.
Context `{Externals}.

Definition validateDotAtom (s : bytes) : option error :=
  match s with
  | [] => Some (errors_New "smtp: empty dot-atom")
  | _ =>
      if firstIs s "." || lastIs s "." then
        Some (errors_New "smtp: dot-atom cannot start or end with a dot")
      else if strings.Contains s (bs "..") then
        Some (errors_New "smtp: dot-atom cannot contain consecutive dots")
      else if forallb isDotAtomChar (utf8_runes s) then None
      else Some (errors_New "smtp: invalid character in local-part")
  end.

Fixpoint validateQuotedLocalPart (s : bytes) : option error :=
  match s with
  | [] => None
  | c :: s' =>
      if Byte.eqb c BACKSLASH then
        match s' with
        | [] => Some (errors_New "smtp: trailing backslash in quoted local-part")
        | _ :: s'' => validateQuotedLocalPart s''
        end
      else if Byte.eqb c DQUOTE then
        Some (errors_New "smtp: unescaped quote in quoted local-part")
      else validateQuotedLocalPart s'
  end.

Definition validateLocalPart (local : bytes) : option error :=
  match local with
  | [] => Some (errors_New "smtp: empty local-part")
  | _ =>
      if (64 <? Z.of_nat (length local)) then
        Some (errors_New "smtp: local-part too long")
      else if (2 <=? Z.of_nat (length local)) && firstIs local DQUOTE && lastIs local DQUOTE then
        validateQuotedLocalPart (removelast (tl local))
      else validateDotAtom local
  end.

Definition isDomainChar (r : Z) : bool :=
  isAlnum r || (r =? rune "-") || (r >? 127).

Fixpoint validateLabels (labels : list bytes) : option error :=
  match labels with
  | [] => None
  | label :: rest =>
      match label with
      | [] => Some (errors_New "smtp: empty label in domain")
      | _ =>
          if (63 <? Z.of_nat (length label)) then
            Some (errors_New "smtp: domain label too long")
          else if negb (utf8_ValidString label) then
            Some (errors_New "smtp: invalid UTF-8 in domain label")
          else if firstIs label "-" || lastIs label "-" then
            Some (errors_New "smtp: domain label cannot start or end with hyphen")
          else if negb (forallb isDomainChar (utf8_runes label)) then
            Some (errors_New "smtp: invalid character in domain")
          else validateLabels rest
      end
  end.

Definition validateDomain (domain : bytes) : option error :=
  match domain with
  | [] => Some (errors_New "smtp: empty domain")
  | _ =>
      if (255 <? Z.of_nat (length domain)) then
        Some (errors_New "smtp: domain too long")
      else if firstIs domain "[" then
        if negb (lastIs domain "]") then
          Some (errors_New "smtp: unclosed address literal")
        else None
      else if firstIs domain "." || lastIs domain "." then
        Some (errors_New "smtp: domain cannot start or end with a dot")
      else validateLabels (strings.Split domain ".")
  end.

Definition ParseMailbox (s : bytes) : Mailbox + error :=
  match s with
  | [] => inr (errors_New "smtp: empty address")
  | _ =>
      match strings.LastIndexByte s "@" with
      | None => inr (errors_New "smtp: missing @ in address")
      | Some at_ =>
          if (at_ =? 0)%nat then inr (errors_New "smtp: empty local-part")
          else if (at_ =? length s - 1)%nat then inr (errors_New "smtp: empty domain")
          else
            let local := firstn at_ s in
            let domain := skipn (S at_) s in
            match validateLocalPart local with
            | Some e => inr e
            | None =>
                match validateDomain domain with
                | Some e => inr e
                | None => inl (mkMailbox local domain)
                end
            end
      end
  end.

(** [s[1 : len(s)-1]] when [s] is enclosed in angle brackets, else [s]. *)
Definition stripBrackets (s : bytes) : bytes :=
  if strings.HasPrefix s (bs "<") && strings.HasSuffix s (bs ">")
  then removelast (tl s) else s.

Definition ParseReversePath (s : bytes) : ReversePath + error :=
  let s := strings.TrimSpace s in
  if bytes_eqb s (bs "<>") then inl (mkReversePath MailboxZero true)
  else
    match stripBrackets s with
    | [] => inl (mkReversePath MailboxZero true)
    | inner =>
        match ParseMailbox inner with
        | inr e => inr e
        | inl m => inl (mkReversePath m false)
        end
    end.

Definition ParseForwardPath (s : bytes) : ForwardPath + error :=
  let s := strings.TrimSpace s in
  match stripBrackets s with
  | [] => inr (errors_New "smtp: empty forward path")
  | inner =>
      match ParseMailbox inner with
      | inr e => inr e
      | inl m => inl (mkForwardPath m)
      end
  end.

End Address.

(** *** Extensions *)









(** *** SASL PLAIN, client side *)




(** *** SASL LOGIN, client side *)

Record loginAuth : Type := LoginAuth {
  login_username : bytes;
  login_password : bytes;
  step : Z
}.

Definition loginAuth_Name (a : loginAuth) : bytes := bs "LOGIN".

(** [loginAuth.Start]: no initial response ([nil]). *)
Definition loginAuth_Start (a : loginAuth) : option bytes := None.

(** [loginAuth.Next]: the username at the first challenge, the password
    at the second one, an error afterwards; the challenge is not looked
    at. *)
Definition loginAuth_Next (a : loginAuth) (challenge : bytes)
  : (bytes + error) * loginAuth :=
  if step a =? 0 then
    (inl (login_username a), LoginAuth (login_username a) (login_password a) (step a + 1))
  else if step a =? 1 then
    (inl (login_password a), LoginAuth (login_username a) (login_password a) (step a + 1))
  else
    (inr (ErrOther (bs "smtp: unexpected LOGIN challenge at step " ++ fmt.d (step a))), a).

End smtp.

(* ----------------------------------------------------------------- *)
(** ** Package internal/textproto, file conn.go *)
(* ----------------------------------------------------------------- *)

Module textproto.

Definition MaxCommandLineLen : Z := 512%Z.
Definition MaxReplyLineLen : Z := 2048%Z.

(** *** bufio.Reader

    A [*bufio.Reader] over a connection is the sequence of octets that
    have not been consumed yet; the size of its buffer decides where a
    long line is cut. *)

(** The shortest prefix of [s] that ends with LF, when it lies within
    the first [n] octets, and what follows it. *)
Fixpoint split_LF (n : nat) (s : bytes) : option (bytes * bytes) :=
  match n, s with
  | S n', b :: s' =>
      if Byte.eqb b LF then Some ([b], s')
      else match split_LF n' s' with
           | Some (line, rest) => Some (b :: line, rest)
           | None => None
           end
  | _, _ => None
  end.

(** [bufio.Reader.ReadSlice('\n')]: the line with its delimiter; or the
    whole buffer and [ErrBufferFull] when the buffer fills up before a
    delimiter is seen; or what is left and [io.EOF]. *)
Definition bufio_ReadSlice (size : nat) (s : bytes) : bytes * option error * bytes :=
  match split_LF size s with
  | Some (line, rest) => (line, None, rest)
  | None =>
      if (size <=? length s)%nat
      then (firstn size s, Some bufio_ErrBufferFull, skipn size s)
      else (s, Some io_EOF, [])
  end.

(** [line[:len(line)-1]] and [line[len(line)-1]]. *)
Definition unsnoc (line : bytes) : option (bytes * byte) :=
  match rev line with
  | c :: l => Some (rev l, c)
  | [] => None
  end.

(** [bufio.Reader.ReadLine]: [(line, isPrefix, err)] and the reader
    afterwards. *)
Definition bufio_ReadLine (size : nat) (s : bytes)
  : bytes * bool * option error * bytes :=
  let '(line, err, rest) := bufio_ReadSlice size s in
  match err with
  | Some bufio_ErrBufferFull =>
      (* Handle the case where "\r\n" straddles the buffer. *)
      match unsnoc line with
      | Some (line', c) =>
          if Byte.eqb c CR then (line', true, None, CR :: rest)
          else (line, true, None, rest)
      | None => (line, true, None, rest)
      end
  | _ =>
      match unsnoc line with
      | None => ([], false, err, rest)              (* len(line) == 0 *)
      | Some (line1, c) =>
          if Byte.eqb c LF then
            match unsnoc line1 with
            | Some (line2, c2) =>
                if Byte.eqb c2 CR then (line2, false, None, rest)   (* drop = 2 *)
                else (line1, false, None, rest)
            | None => (line1, false, None, rest)
            end
          else (line, false, None, rest)
      end
  end.

(** *** Conn *)

(** A reply as [WriteReply] receives it. *)
Record Reply : Type := mkReply {
  Code : Z;
  Lines : list bytes
}.

(** [Conn]: the buffered reader (the octets the peer has sent and that
    were not read yet) and what was written and flushed to the peer. *)
Record Conn : Type := mkConn {
  r : bytes;
  w : bytes
}.

(** [NewConn] uses [bufio.NewReaderSize(c, 4096)]. *)
Definition bufSize : nat := 4096.

Definition NewConn (input : bytes) : Conn := {| r := input; w := [] |}.

(** [ReplaceConn]: fresh buffers around the new connection. *)
Definition ReplaceConn (c : Conn) (input : bytes) : Conn :=
  {| r := input; w := w c |}.

(** The loop [for isPrefix { _, isPrefix, err = c.r.ReadLine(); ... }]
    that drains the rest of an oversized line. *)
Fixpoint drainLine (fuel : nat) (size : nat) (isPrefix : bool) (s : bytes)
  : option bytes :=
  if isPrefix then
    match fuel with
    | O => None
    | S fuel' =>
        let '(_, isPrefix', err, rest) := bufio_ReadLine size s in
        match err with
        | Some _ => Some rest
        | None => drainLine fuel' size isPrefix' rest
        end
    end
  else Some s.

(** The loop of [Conn.ReadLine], [line] being what was gathered so far.
    [None]: [fuel] iterations were not enough. *)
Fixpoint ReadLine_loop (fuel : nat) (size : nat) (maxLen : Z) (line : bytes) (s : bytes)
  : option ((bytes + error) * bytes) :=
  match fuel with
  | O => None
  | S fuel' =>
      let '(chunk, isPrefix, err, rest) := bufio_ReadLine size s in
      let line := line ++ chunk in
      match err with
      | Some e => Some (inr e, rest)
      | None =>
          if negb isPrefix then
            if (Z.of_nat (length line) >? maxLen - 2)%Z
            then Some (inr (ErrLineTooLong (Z.of_nat (length line) + 2) maxLen), rest)
            else Some (inl line, rest)
          else if (Z.of_nat (length line) >? maxLen)%Z then
            match drainLine fuel' size isPrefix rest with
            | Some rest' =>
                Some (inr (ErrLineTooLong (Z.of_nat (length line)) maxLen), rest')
            | None => None
            end
          else ReadLine_loop fuel' size maxLen line rest
      end
  end.

(** [Conn.ReadLine(maxLen)] on the reader [s].  Every iteration of its
    loops consumes at least one octet, so [S (length s)] iterations are
    enough; the last branch is never taken (lemma [ReadLine_loop_total]). *)
Definition ReadLine (maxLen : Z) (s : bytes) : (bytes + error) * bytes :=
  match ReadLine_loop (S (length s)) bufSize maxLen [] s with
  | Some res => res
  | None => (inr io_ErrUnexpectedEOF, s)
  end.

(** The errors of [ReadReply]. *)
Inductive ReadReplyError : Type :=
| ErrReadingReply (e : error)                   (* "smtp: reading reply: %w" *)
| ErrReplyLineTooShort                          (* "smtp: reply line too short" *)
| ErrInvalidReplyCode (s : bytes) (e : error)   (* "smtp: invalid reply code %q: %w" *)
| ErrInvalidReplySeparator (sep : byte).        (* "smtp: invalid reply separator %q" *)

(** The loop of [Conn.ReadReply], [lines] being the text lines gathered
    so far.  [None]: [fuel] iterations were not enough. *)
Fixpoint ReadReply_loop (fuel : nat) (lines : list bytes) (s : bytes)
  : option ((Reply + ReadReplyError) * bytes) :=
  match fuel with
  | O => None
  | S fuel' =>
      match ReadLine MaxReplyLineLen s with
      | (inr e, rest) => Some (inr (ErrReadingReply e), rest)
      | (inl line, rest) =>
          if (length line <? 3)%nat then Some (inr ErrReplyLineTooShort, rest)
          else
            match strconv.Atoi (firstn 3 line) with
            | inr e => Some (inr (ErrInvalidReplyCode (firstn 3 line) e), rest)
            | inl code =>
                match skipn 3 line with
                | [] =>
                    (* "250\r\n" with no text: final line. *)
                    Some (inl (mkReply code (lines ++ [[]])), rest)
                | sep :: text =>
                    if Byte.eqb sep "-" then
                      (* Continuation line. *)
                      ReadReply_loop fuel' (lines ++ [text]) rest
                    else if Byte.eqb sep " " then
                      (* Final line. *)
                      Some (inl (mkReply code (lines ++ [text])), rest)
                    else Some (inr (ErrInvalidReplySeparator sep), rest)
                end
            end
      end
  end.

(** [Conn.ReadReply] on the reader [s].  Every line read consumes at
    least one octet, so [S (length s)] iterations are enough; the last
    branch is never taken (lemma [ReadReply_loop_total]). *)
Definition ReadReply (s : bytes) : (Reply + ReadReplyError) * bytes :=
  match ReadReply_loop (S (length s)) [] s with
  | Some res => res
  | None => (inr (ErrReadingReply io_ErrUnexpectedEOF), s)
  end.

(** The octets [Conn.WriteLine(line)] sends. *)
Definition WriteLine_bytes (line : bytes) : bytes := line ++ CRLF.

(** *** Notions used to state the properties of ReadLine *)

(** No LF among the octets of [s]. *)
Definition noLF (s : bytes) : bool := forallb (fun b => negb (Byte.eqb b LF)) s.

(** [s] without its last octet when that is CR: what is left of a line
    once the LF that ended it is gone. *)
Definition stripCR (s : bytes) : bytes :=
  match unsnoc s with
  | Some (s', c) => if Byte.eqb c CR then s' else s
  | None => s
  end.

(** [res] is the error of a line that is too long, whatever the length
    it reports. *)
Definition tooLong (res : bytes + error) (maxLen : Z) : Prop :=
  exists n, res = inr (ErrLineTooLong n maxLen).

(** A line of a reply that [ReadReply] can read back: no LF in it, and
    short enough with its code, its separator and CRLF. *)
Definition replyLineOK (line : bytes) : Prop :=
  noLF line = true /\ (Z.of_nat (length line) + 6 <= MaxReplyLineLen)%Z.

(** One line of [WriteReply]: [fmt.Sprintf("%d%c%s", code, sep, line)]
    followed by CRLF. *)
Definition replyLine (code : Z) (sep : byte) (line : bytes) : bytes :=
  fmt.d code ++ [sep] ++ line ++ CRLF.

Fixpoint WriteReply_loop (code : Z) (lines : list bytes) : bytes :=
  match lines with
  | [] => []
  | line :: rest =>
      replyLine code (match rest with [] => " " | _ => "-" end) line
        ++ WriteReply_loop code rest
  end.

(** The octets [Conn.WriteReply(code, lines...)] sends. *)
Definition WriteReply_bytes (code : Z) (lines : list bytes) : bytes :=
  WriteReply_loop code (match lines with [] => [[]] | _ => lines end).

Definition WriteReply (c : Conn) (code : Z) (lines : list bytes) : Conn :=
  {| r := r c; w := w c ++ WriteReply_bytes code lines |}.

(** [ParseEnhancedCode]. *)
Definition ParseEnhancedCode (text : bytes) : Z * Z * Z * bytes :=
  let parts := strings.SplitN2 text " " in
  let code := hd [] parts in
  let rest := match parts with [_; p1] => p1 | _ => [] end in
  match strings.Split code "." with
  | [s0; s1; s2] =>
      match strconv.Atoi s0, strconv.Atoi s1, strconv.Atoi s2 with
      | inl c, inl s, inl d =>
          if ((c <? 2) || (c >? 5))%Z then (0, 0, 0, text)%Z
          else (c, s, d, rest)
      | _, _, _ => (0, 0, 0, text)%Z
      end
  | _ => (0, 0, 0, text)%Z
  end.

End textproto.

(* ----------------------------------------------------------------- *)
(** ** Package smtpclient: error translation *)
(* ----------------------------------------------------------------- *)

Module smtpclient.

(** [replyToError]. *)
Definition replyToError (reply : textproto.Reply) : smtp.SMTPError :=
  let msg := strings.Join (textproto.Lines reply) [LF] in
  let '(enhanced, msg) :=
    match textproto.Lines reply with
    | line0 :: others =>
        let '(cl, su, de, rest) := textproto.ParseEnhancedCode line0 in
        if negb (cl =? 0)%Z then
          (smtp.mkEnhancedCode cl su de,
           match others with [] => rest | _ => msg end)   (* len(reply.Lines) == 1 *)
        else (smtp.EnhancedCodeZero, msg)
    | [] => (smtp.EnhancedCodeZero, msg)
    end in
  smtp.mkSMTPError (textproto.Code reply) enhanced msg.

(** The options of MAIL FROM and RCPT TO. *)
Record mailOptions : Type := mkMailOptions {
  size : Z;
  body : bytes;         (* "7BIT" or "8BITMIME" *)
  smtpUTF8 : bool;
  dsnRet : bytes;       (* "FULL" or "HDRS" *)
  dsnEnvID : bytes
}.

Record rcptOptions : Type := mkRcptOptions {
  dsnNotify : bytes;
  dsnOrcpt : bytes
}.

Definition isEmpty (s : bytes) : bool := match s with [] => true | _ => false end.

(** The command line [Client.Mail] sends. *)
Definition Mail_cmd (from : bytes) (mo : mailOptions) : bytes :=
  bs "MAIL FROM:<" ++ from ++ bs ">"
    ++ (if (size mo >? 0)%Z then bs " SIZE=" ++ fmt.d (size mo) else [])
    ++ (if negb (isEmpty (body mo)) then bs " BODY=" ++ body mo else [])
    ++ (if smtpUTF8 mo then bs " SMTPUTF8" else [])
    ++ (if negb (isEmpty (dsnRet mo)) then bs " RET=" ++ dsnRet mo else [])
    ++ (if negb (isEmpty (dsnEnvID mo)) then bs " ENVID=" ++ dsnEnvID mo else []).

(** The command line [Client.Rcpt] sends. *)
Definition Rcpt_cmd (to : bytes) (ro : rcptOptions) : bytes :=
  bs "RCPT TO:<" ++ to ++ bs ">"
    ++ (if negb (isEmpty (dsnNotify ro)) then bs " NOTIFY=" ++ dsnNotify ro else [])
    ++ (if negb (isEmpty (dsnOrcpt ro)) then bs " ORCPT=" ++ dsnOrcpt ro else []).

(** The command line [Client.Bdat] sends, and the octets that follow
    it on the wire. *)
Definition Bdat_cmd (data : bytes) (last : bool) : bytes :=
  bs "BDAT " ++ fmt.d (Z.of_nat (length data)) ++ (if last then bs " LAST" else []).

Definition Bdat_wire (data : bytes) (last : bool) : bytes :=
  textproto.WriteLine_bytes (Bdat_cmd data last) ++ data.

(** The parameters that follow the path in a command: nothing, or a
    space and more. *)
Definition paramsForm (opts : bytes) : Prop := opts = [] \/ exists t, opts = " " :: t.

End smtpclient.

(* ----------------------------------------------------------------- *)
(** ** encoding/base64, the standard encoding with padding *)
(* ----------------------------------------------------------------- *)

Module base64.
Local Open Scope N_scope.

Definition encodeStd : bytes :=
  bs "ABCDEFGHIJKLMNOPQRSTUVWXYZabcdefghijklmnopqrstuvwxyz0123456789+/".

Definition enc6 (v : N) : byte := nth (N.to_nat v) encodeStd "=".

Fixpoint indexOf (c : byte) (table : bytes) (i : N) : option N :=
  match table with
  | [] => None
  | x :: table' => if Byte.eqb x c then Some i else indexOf c table' (i + 1)
  end.

Definition dec6 (c : byte) : option N := indexOf c encodeStd 0.

Definition byteOf (v : N) : byte :=
  match Byte.of_N (v mod 256) with Some b => b | None => "000"%byte end.

(** The 24-bit group [b0<<16 | b1<<8 | b2], cut into four 6-bit values. *)
Definition val3 (b0 b1 b2 : byte) : N :=
  Byte.to_N b0 * 65536 + Byte.to_N b1 * 256 + Byte.to_N b2.

Definition sextet (val : N) (shift : N) : byte := enc6 ((val / 2 ^ shift) mod 64).

(** [Encoding.EncodeToString]. *)
Fixpoint EncodeToString (src : bytes) : bytes :=
  match src with
  | [] => []
  | [b0] =>
      let val := val3 b0 "000" "000" in
      [sextet val 18; sextet val 12; "="%byte; "="%byte]
  | [b0; b1] =>
      let val := val3 b0 b1 "000" in
      [sextet val 18; sextet val 12; sextet val 6; "="%byte]
  | b0 :: b1 :: b2 :: rest =>
      let val := val3 b0 b1 b2 in
      sextet val 18 :: sextet val 12 :: sextet val 6 :: sextet val 0
        :: EncodeToString rest
  end.

(** The 24-bit group [d0<<18 | d1<<12 | d2<<6 | d3] of four 6-bit values. *)
Definition val4 (d0 d1 d2 d3 : N) : N :=
  d0 * 262144 + d1 * 4096 + d2 * 64 + d3.

(** Quanta of four characters; padding is accepted in the last one only
    and nothing may follow it. *)
Fixpoint decodeQuanta (s : bytes) : option bytes :=
  match s with
  | [] => Some []
  | a :: b :: c :: d :: rest =>
      match dec6 a, dec6 b with
      | Some d0, Some d1 =>
          if Byte.eqb c "=" then
            match Byte.eqb d "=", rest with
            | true, [] => Some [byteOf (val4 d0 d1 0 0 / 65536)]
            | _, _ => None
            end
          else
            match dec6 c with
            | None => None
            | Some d2 =>
                if Byte.eqb d "=" then
                  match rest with
                  | [] =>
                      let val := val4 d0 d1 d2 0 in
                      Some [byteOf (val / 65536); byteOf (val / 256)]
                  | _ => None
                  end
                else
                  match dec6 d, decodeQuanta rest with
                  | Some d3, Some out =>
                      let val := val4 d0 d1 d2 d3 in
                      Some (byteOf (val / 65536) :: byteOf (val / 256)
                              :: byteOf val :: out)
                  | _, _ => None
                  end
            end
      | _, _ => None
      end
  | _ => None
  end.

(** [Encoding.DecodeString]: CR and LF are skipped; [None] is a
    [CorruptInputError]. *)
Definition DecodeString (s : bytes) : option bytes :=
  decodeQuanta (filter (fun c => negb (Byte.eqb c CR || Byte.eqb c LF)) s).

End base64.

(* ----------------------------------------------------------------- *)
(** ** Package smtpclient, file client.go: Client.Auth *)
(* ----------------------------------------------------------------- *)

Module smtpclient_auth.

(** The command line [Client.Auth] sends: [AUTH], the name of the
    mechanism and, when [Start] returned an initial response (not
    [nil]), that response in base64. *)
Definition Auth_cmd (name : bytes) (initialResp : option bytes) : bytes :=
  match initialResp with
  | Some resp => bs "AUTH " ++ name ++ bs " " ++ base64.EncodeToString resp
  | None => bs "AUTH " ++ name
  end.

End smtpclient_auth.

(* ----------------------------------------------------------------- *)
(** ** Package smtpserver, file session.go *)
(* ----------------------------------------------------------------- *)

Module smtpserver.
Import smtp.
Local Open Scope Z_scope.

(** sessionState tracks where the session is in the SMTP conversation. *)
Inductive sessionState : Type :=
| stateNew       (* Connected, waiting for greeting to be sent. *)
| stateGreeted   (* EHLO/HELO received. *)
| stateMail      (* MAIL FROM received. *)
| stateRcpt      (* At least one RCPT TO received. *)
| stateData.     (* DATA in progress. *)

(** The value [iota] gives each state; the source compares states with
    [<] and [>=]. *)
Definition stateNum (st : sessionState) : Z :=
  match st with
  | stateNew => 0 | stateGreeted => 1 | stateMail => 2
  | stateRcpt => 3 | stateData => 4
  end.

(** An [error] returned by a handler: an [*smtp.SMTPError] or anything
    else. *)
Inductive handlerError : Type :=
| IsSMTPError (e : SMTPError)
| OtherError.

(** What a DataHandler does with the [io.Reader] it is given: it calls
    [Read] with buffers of its choice, each time looking at the octets
    and the error it got, and finally returns. *)
Inductive ReadPlan (R : Type) : Type :=
| Return (res : R)
| CallRead (lenp : nat) (k : bytes -> option error -> ReadPlan R).
Arguments Return {R} res.
Arguments CallRead {R} lenp k.

(** The Server, as far as a session looks at it.  [H] is the state of
    the application behind the handlers; a handler is given that state
    and returns the new one with its result.  [None] is a nil handler. *)
Record Server (H : Type) : Type := mkServer {
  hostname : bytes;
  maxMessageSize : Z;
  maxRecipients : Z;
  maxInvalidCmds : Z;
  tlsConfig : option unit;
  submissionMode : bool;
  connHandler : option (H -> bytes -> option handlerError * H);
  heloHandler : option (H -> bytes -> option handlerError * H);
  mailHandler : option (H -> ReversePath -> option handlerError * H);
  rcptHandler : option (H -> ForwardPath -> option handlerError * H);
  dataHandler : option (H -> ReversePath -> list ForwardPath ->
                        ReadPlan (option handlerError * H));
  resetHandler : option (H -> H);
  vrfyHandler : option (H -> bytes -> bytes * option handlerError * H);
  authHandler : option (H -> bytes -> bytes -> bytes -> option handlerError * H)
}.

(** session represents a single SMTP client connection. *)
Record session : Type := mkSession {
  conn : textproto.Conn;
  state : sessionState;
  clientHostname : bytes;
  esmtp : bool;             (* True if client used EHLO. *)
  tls : bool;               (* True if connection is TLS. *)
  authenticated : bool;     (* True if AUTH succeeded. *)
  invalidCmds : Z;          (* Count of unrecognized/rejected commands. *)
  reversePath : ReversePath;
  forwardPaths : list ForwardPath;
  bdatBuffer : bytes        (* Accumulated BDAT chunks. *)
}.

(** What a session runs in: its own fields, the application behind the
    handlers, and the number of calls of [time.Now] made so far. *)
Record world (H : Type) : Type := mkWorld {
  sess : session;
  app : H;
  ticks : nat
}.
Arguments mkWorld {H} sess app ticks.
Arguments sess {H} w.
Arguments app {H} w.
Arguments ticks {H} w.

(** [int] arithmetic wraps around at 64 bits. *)
Definition int_wrap (z : Z) : Z := (z + 2 ^ 63) mod 2 ^ 64 - 2 ^ 63.

(** Assignments to the fields of a session. *)
Definition set_conn (c : textproto.Conn) (s : session) : session :=
  mkSession c (state s) (clientHostname s) (esmtp s) (tls s) (authenticated s)
            (invalidCmds s) (reversePath s) (forwardPaths s) (bdatBuffer s).
Definition set_state (st : sessionState) (s : session) : session :=
  mkSession (conn s) st (clientHostname s) (esmtp s) (tls s) (authenticated s)
            (invalidCmds s) (reversePath s) (forwardPaths s) (bdatBuffer s).
Definition set_clientHostname (h : bytes) (s : session) : session :=
  mkSession (conn s) (state s) h (esmtp s) (tls s) (authenticated s)
            (invalidCmds s) (reversePath s) (forwardPaths s) (bdatBuffer s).
Definition set_esmtp (b : bool) (s : session) : session :=
  mkSession (conn s) (state s) (clientHostname s) b (tls s) (authenticated s)
            (invalidCmds s) (reversePath s) (forwardPaths s) (bdatBuffer s).
Definition set_tls (b : bool) (s : session) : session :=
  mkSession (conn s) (state s) (clientHostname s) (esmtp s) b (authenticated s)
            (invalidCmds s) (reversePath s) (forwardPaths s) (bdatBuffer s).
Definition set_authenticated (b : bool) (s : session) : session :=
  mkSession (conn s) (state s) (clientHostname s) (esmtp s) (tls s) b
            (invalidCmds s) (reversePath s) (forwardPaths s) (bdatBuffer s).
Definition set_invalidCmds (n : Z) (s : session) : session :=
  mkSession (conn s) (state s) (clientHostname s) (esmtp s) (tls s) (authenticated s)
            n (reversePath s) (forwardPaths s) (bdatBuffer s).
Definition set_reversePath (p : ReversePath) (s : session) : session :=
  mkSession (conn s) (state s) (clientHostname s) (esmtp s) (tls s) (authenticated s)
            (invalidCmds s) p (forwardPaths s) (bdatBuffer s).
Definition set_forwardPaths (ps : list ForwardPath) (s : session) : session :=
  mkSession (conn s) (state s) (clientHostname s) (esmtp s) (tls s) (authenticated s)
            (invalidCmds s) (reversePath s) ps (bdatBuffer s).
Definition set_bdatBuffer (b : bytes) (s : session) : session :=
  mkSession (conn s) (state s) (clientHostname s) (esmtp s) (tls s) (authenticated s)
            (invalidCmds s) (reversePath s) (forwardPaths s) b.

(** [splitNull] splits a byte slice on NUL bytes: [cur] is
    [data[start:i]], the part gathered since the last NUL. *)
Fixpoint splitNull_loop (data : bytes) (cur : bytes) : list bytes :=
  match data with
  | [] => [cur]
  | b :: data' =>
      if Byte.eqb b NUL then cur :: splitNull_loop data' []
      else splitNull_loop data' (cur ++ [b])
  end.

Definition splitNull (data : bytes) : list bytes := splitNull_loop data [].

(** [parseCommand] splits an SMTP command line into verb and argument
    string. *)
Definition parseCommand `{Externals} (line : bytes) : bytes * bytes :=
  let '(verb, args, _) := strings.Cut line " " in
  (strings.ToUpper verb, args).

(** Running a DataHandler against a reader with state [S]. *)
Fixpoint runPlan {S R : Type} (read : S -> nat -> bytes * option error * S)
  (p : ReadPlan R) (rd : S) : R * S :=
  match p with
  | Return res => (res, rd)
  | CallRead lenp k =>
      let '(out, e, rd') := read rd lenp in
      runPlan read (k out e) rd'
  end.

(** [strings.Reader.Read]. *)
Definition stringsReader_Read (s : bytes) (lenp : nat) : bytes * option error * bytes :=
  match s with
  | [] => ([], Some io_EOF, [])
  | _ => (firstn lenp s, None, skipn lenp s)
  end.

(** [io.Copy(io.Discard, reader)] on a dotReader: [Read] into a buffer
    of 8192 octets until an error comes back. *)
Definition discardBufSize : nat := 2 * 4096.

Fixpoint discard_loop (fuel : nat) (d : textproto_dot.dotReader)
  : option textproto_dot.dotReader :=
  match fuel with
  | O => None
  | S fuel' =>
      let '(_, e, d') := textproto_dot.Read d discardBufSize in
      match e with
      | Some _ => Some d'
      | None => discard_loop fuel' d'
      end
  end.

(** Every [Read] into 8192 octets consumes input or returns an error,
    so the bound is enough and the last branch is never taken (lemma
    [discard_loop_total]). *)
Definition io_Copy_Discard (d : textproto_dot.dotReader) : textproto_dot.dotReader :=
  match discard_loop (S (length (textproto_dot.r d))) d with
  | Some d' => d'
  | None => d
  end.

Section Session.
Context {ext : Externals} {H : Type}.
Variable srv : Server H.

(** Code that changes the world and returns a value. *)
Definition M (A : Type) : Type := world H -> A * world H.

Definition ret {A : Type} (a : A) : M A := fun w => (a, w).
Definition bind {A B : Type} (m : M A) (k : A -> M B) : M B :=
  fun w => let '(a, w') := m w in k a w'.

Notation "x <- m ;; k" := (bind m (fun x => k))
  (at level 61, m at next level, right associativity).
Notation "m ;;; k" := (bind m (fun _ => k))
  (at level 61, right associativity).

Definition getS : M session := fun w => (sess w, w).
Definition modifyS (f : session -> session) : M unit :=
  fun w => (tt, mkWorld (f (sess w)) (app w) (ticks w)).

(** Calling a handler [h] of the application. *)
Definition call {A : Type} (h : H -> A * H) : M A :=
  fun w => let '(a, app') := h (app w) in (a, mkWorld (sess w) app' (ticks w)).

(** [time.Now()]. *)
Definition now : M (Z * Z) :=
  fun w => (time_Now (ticks w), mkWorld (sess w) (app w) (S (ticks w))).

(** [s.conn.ReadLine(textproto.MaxCommandLineLen)]. *)
Definition readLine : M (bytes + error) :=
  fun w =>
    let c := conn (sess w) in
    let '(res, rest) := textproto.ReadLine textproto.MaxCommandLineLen (textproto.r c) in
    (res, mkWorld (set_conn (textproto.mkConn rest (textproto.w c)) (sess w))
                  (app w) (ticks w)).

(** [replyMulti] sends a multi-line reply. *)
Definition replyMulti (code : ReplyCode) (lines : list bytes) : M unit :=
  modifyS (fun s => set_conn (textproto.WriteReply (conn s) code lines) s).

(** [reply] sends a single-line reply with optional enhanced status code. *)
Definition reply (code : ReplyCode) (enhanced : EnhancedCode) (msg : bytes) : M unit :=
  let line :=
    if negb (IsZero enhanced) then EnhancedCode_String enhanced ++ bs " " ++ msg
    else msg in
  modifyS (fun s => set_conn (textproto.WriteReply (conn s) code [line]) s).

(** The reply to an error of a handler: the SMTPError itself, or the
    given reply when the error is of another type. *)
Definition replyError (e : handlerError) (code : ReplyCode) (enhanced : EnhancedCode)
  (msg : bytes) : M unit :=
  match e with
  | IsSMTPError smtpErr => reply (Code smtpErr) (Enhanced smtpErr) (Message smtpErr)
  | OtherError => reply code enhanced msg
  end.

Definition replyInternalError (e : handlerError) : M unit :=
  replyError e ReplyLocalError EnhancedCodeOtherNetwork (bs "Internal error").

(** [resetTransaction] clears the current mail transaction state. *)
Definition resetTransaction : M unit :=
  modifyS (fun s => set_bdatBuffer [] (set_forwardPaths [] (set_reversePath ReversePathZero s))) ;;;
  match resetHandler srv with
  | Some h => call (fun a => (tt, h a))
  | None => ret tt
  end.

(** [handleEHLO] processes the EHLO command. *)
Definition handleEHLO (args : bytes) : M unit :=
  match args with
  | [] => reply ReplySyntaxParamError EnhancedCodeSyntaxError (bs "EHLO requires a hostname")
  | _ =>
      err <- match heloHandler srv with
             | Some h => call (fun a => h a args)
             | None => ret None
             end ;;
      match err with
      | Some e => replyInternalError e
      | None =>
          resetTransaction ;;;
          modifyS (fun s => set_state stateGreeted (set_esmtp true (set_clientHostname args s))) ;;;
          s <- getS ;;
          let lines :=
            [hostname srv ++ bs " Hello " ++ args]
            ++ (if maxMessageSize srv >? 0 then [bs "SIZE " ++ fmt.d (maxMessageSize srv)] else [])
            ++ [bs "PIPELINING"; bs "8BITMIME"; bs "ENHANCEDSTATUSCODES"; bs "DSN";
                bs "SMTPUTF8"; bs "CHUNKING"]
            ++ (match tlsConfig srv with
                | Some _ => if negb (tls s) then [bs "STARTTLS"] else []
                | None => []
                end)
            ++ (match authHandler srv with
                | Some _ => if negb (authenticated s) then [bs "AUTH PLAIN LOGIN CRAM-MD5"] else []
                | None => []
                end) in
          replyMulti ReplyOK lines
      end
  end.

(** [handleHELO] processes the HELO command. *)
Definition handleHELO (args : bytes) : M unit :=
  match args with
  | [] => reply ReplySyntaxParamError EnhancedCodeSyntaxError (bs "HELO requires a hostname")
  | _ =>
      err <- match heloHandler srv with
             | Some h => call (fun a => h a args)
             | None => ret None
             end ;;
      match err with
      | Some e => replyInternalError e
      | None =>
          resetTransaction ;;;
          modifyS (fun s => set_state stateGreeted (set_esmtp false (set_clientHostname args s))) ;;;
          reply ReplyOK EnhancedCodeOK (hostname srv ++ bs " Hello " ++ args)
      end
  end.

(** [handleMAIL] processes the MAIL FROM command.  [args[5:]] is taken
    after [strings.ToUpper(args)] was found to begin with [FROM:]. *)
Definition handleMAIL (args : bytes) : M unit :=
  s <- getS ;;
  if stateNum (state s) <? stateNum stateGreeted then
    reply ReplyBadSequence EnhancedCodeInvalidCommand (bs "Send EHLO/HELO first")
  else if stateNum (state s) >=? stateNum stateMail then
    reply ReplyBadSequence EnhancedCodeInvalidCommand (bs "MAIL already specified")
  else if submissionMode srv && negb (authenticated s) then
    reply ReplyAuthRequired EnhancedCodeAuthRequired (bs "Authentication required")
  else
    let upper := strings.ToUpper args in
    if negb (strings.HasPrefix upper (bs "FROM:")) then
      reply ReplySyntaxParamError EnhancedCodeSyntaxError (bs "Syntax: MAIL FROM:<address>")
    else
      let pathAndParams := skipn 5 args in
      let '(pathStr, _, _) := strings.Cut pathAndParams " " in
      let pathStr := strings.TrimSpace pathStr in
      match ParseReversePath pathStr with
      | inr _ =>
          reply ReplySyntaxParamError EnhancedCodeBadSenderSyntax (bs "Invalid sender address")
      | inl rp =>
          err <- match mailHandler srv with
                 | Some h => call (fun a => h a rp)
                 | None => ret None
                 end ;;
          match err with
          | Some e => replyInternalError e
          | None =>
              modifyS (fun s => set_state stateMail (set_forwardPaths [] (set_reversePath rp s))) ;;;
              reply ReplyOK EnhancedCodeOtherAddress (bs "Originator ok")
          end
      end.

(** [handleRCPT] processes the RCPT TO command. *)
Definition handleRCPT (args : bytes) : M unit :=
  s <- getS ;;
  if stateNum (state s) <? stateNum stateMail then
    reply ReplyBadSequence EnhancedCodeInvalidCommand (bs "Send MAIL first")
  else if Z.of_nat (length (forwardPaths s)) >=? maxRecipients srv then
    reply ReplyInsufficientStorage EnhancedCodeTooManyRecipients (bs "Too many recipients")
  else
    let upper := strings.ToUpper args in
    if negb (strings.HasPrefix upper (bs "TO:")) then
      reply ReplySyntaxParamError EnhancedCodeSyntaxError (bs "Syntax: RCPT TO:<address>")
    else
      let pathAndParams := skipn 3 args in
      let '(pathStr, _, _) := strings.Cut pathAndParams " " in
      let pathStr := strings.TrimSpace pathStr in
      match ParseForwardPath pathStr with
      | inr _ =>
          reply ReplySyntaxParamError EnhancedCodeBadDestSyntax (bs "Invalid recipient address")
      | inl fp =>
          err <- match rcptHandler srv with
                 | Some h => call (fun a => h a fp)
                 | None => ret None
                 end ;;
          match err with
          | Some e => replyInternalError e
          | None =>
              modifyS (fun s =>
                let s := set_forwardPaths (forwardPaths s ++ [fp]) s in
                if stateNum (state s) <? stateNum stateRcpt then set_state stateRcpt s else s) ;;;
              reply ReplyOK EnhancedCodeDestValid (bs "Recipient ok")
          end
      end.

(** The dotReader of the connection, and the connection once the reader
    is done with it. *)
Definition DotReader (s : session) : textproto_dot.dotReader :=
  textproto_dot.newDotReader (textproto.r (conn s)).

Definition afterDotReader (d : textproto_dot.dotReader) (s : session) : session :=
  set_conn (textproto.mkConn (textproto_dot.r d) (textproto.w (conn s))) s.

(** [handleDATA] processes the DATA command. *)
Definition handleDATA : M unit :=
  s <- getS ;;
  if stateNum (state s) <? stateNum stateRcpt then
    reply ReplyBadSequence EnhancedCodeInvalidCommand (bs "Send RCPT first")
  else
    reply ReplyStartMailInput EnhancedCodeZero (bs "Start mail input; end with <CRLF>.<CRLF>") ;;;
    modifyS (set_state stateData) ;;;
    s <- getS ;;
    let reader := DotReader s in
    res <- match dataHandler srv with
           | Some h =>
               call (fun a =>
                 let '((err, a'), reader') :=
                   runPlan textproto_dot.Read (h a (reversePath s) (forwardPaths s)) reader in
                 ((err, reader'), a'))
           | None => ret (None, reader)
           end ;;
    let '(err, reader) := res in
    (* Drain any unread data. *)
    modifyS (afterDotReader (io_Copy_Discard reader)) ;;;
    match err with
    | Some e =>
        replyInternalError e ;;;
        resetTransaction ;;;
        modifyS (set_state stateGreeted)
    | None =>
        reply ReplyOK EnhancedCodeOK (bs "Message accepted") ;;;
        resetTransaction ;;;
        modifyS (set_state stateGreeted)
    end.

(** [handleBDAT] processes the BDAT command. *)
Definition handleBDAT (args : bytes) : M unit :=
  s <- getS ;;
  if stateNum (state s) <? stateNum stateRcpt then
    reply ReplyBadSequence EnhancedCodeInvalidCommand (bs "Send RCPT first")
  else
    match strings.Fields args with
    | [] => reply ReplySyntaxParamError EnhancedCodeSyntaxError (bs "Syntax: BDAT <size> [LAST]")
    | part0 :: parts' =>
        match fmt_Sscanf_d part0 with
        | None => reply ReplySyntaxParamError EnhancedCodeSyntaxError (bs "Invalid BDAT size")
        | Some size =>
            if size <? 0 then
              reply ReplySyntaxParamError EnhancedCodeSyntaxError (bs "Invalid BDAT size")
            else
              let last :=
                match parts' with
                | part1 :: _ => bytes_eqb (strings.ToUpper part1) (bs "LAST")
                | [] => false
                end in
              let input := textproto.r (conn s) in
              if (size >? 0) && (Z.of_nat (length input) <? size) then
                (* io.ReadFull fails: the error is logged, nothing is replied *)
                modifyS (fun s => set_conn (textproto.mkConn [] (textproto.w (conn s))) s)
              else
                let chunk := firstn (Z.to_nat size) input in
                modifyS (fun s =>
                  set_bdatBuffer (bdatBuffer s ++ chunk)
                    (set_conn (textproto.mkConn (skipn (Z.to_nat size) input)
                                                (textproto.w (conn s))) s)) ;;;
                if last then
                  s <- getS ;;
                  err <- match dataHandler srv with
                         | Some h =>
                             call (fun a =>
                               fst (runPlan stringsReader_Read
                                      (h a (reversePath s) (forwardPaths s)) (bdatBuffer s)))
                         | None => ret None
                         end ;;
                  match err with
                  | Some e =>
                      replyInternalError e ;;;
                      resetTransaction ;;;
                      modifyS (set_state stateGreeted)
                  | None =>
                      reply ReplyOK EnhancedCodeOK (bs "Message accepted") ;;;
                      resetTransaction ;;;
                      modifyS (set_state stateGreeted)
                  end
                else
                  reply ReplyOK EnhancedCodeOK (fmt.d size ++ bs " bytes received")
        end
    end.

(** [handleRSET] processes the RSET command. *)
Definition handleRSET : M unit :=
  resetTransaction ;;;
  modifyS (fun s =>
    if stateNum (state s) >? stateNum stateGreeted then set_state stateGreeted s else s) ;;;
  reply ReplyOK EnhancedCodeOK (bs "Reset ok").

(** [handleNOOP] processes the NOOP command. *)
Definition handleNOOP : M unit :=
  reply ReplyOK EnhancedCodeOK (bs "OK").

(** [handleQUIT] processes the QUIT command. *)
Definition handleQUIT : M unit :=
  reply ReplyServiceClosing EnhancedCodeOK (hostname srv ++ bs " closing connection").

(** [handleVRFY] processes the VRFY command. *)
Definition handleVRFY (args : bytes) : M unit :=
  match vrfyHandler srv with
  | Some h =>
      res <- call (fun a => h a args) ;;
      let '(result, err) := res in
      match err with
      | Some e => replyInternalError e
      | None => reply ReplyOK EnhancedCodeOK result
      end
  | None =>
      reply ReplyCannotVRFY EnhancedCodeOK (bs "Cannot VRFY user, but will accept message")
  end.

(** The end of the three mechanisms: the AuthHandler is asked, and the
    session is authenticated when it returns no error. *)
Definition authenticate (h : H -> bytes -> bytes -> bytes -> option handlerError * H)
  (mechanism username password : bytes) : M unit :=
  err <- call (fun a => h a mechanism username password) ;;
  match err with
  | Some e => replyError e ReplyAuthFailed EnhancedCodeAuthCredentials (bs "Authentication failed")
  | None =>
      modifyS (set_authenticated true) ;;;
      reply ReplyAuthOK EnhancedCodeOK (bs "Authentication successful")
  end.

Definition replyInvalidBase64 : M unit :=
  reply ReplySyntaxParamError EnhancedCodeSyntaxError (bs "Invalid base64").

Definition replyCancelled : M unit :=
  reply ReplySyntaxParamError EnhancedCodeInvalidCommand (bs "Authentication cancelled").

(** [authPLAIN] handles SASL PLAIN authentication. *)
Definition authPLAIN (h : H -> bytes -> bytes -> bytes -> option handlerError * H)
  (initialResp : bytes) : M unit :=
  let finish (decoded : bytes) : M unit :=
    match splitNull decoded with
    | [_; username; password] => authenticate h (bs "PLAIN") username password
    | _ => reply ReplySyntaxParamError EnhancedCodeSyntaxError (bs "Invalid PLAIN data")
    end in
  if negb (bytes_eqb initialResp []) && negb (bytes_eqb initialResp (bs "=")) then
    match base64.DecodeString initialResp with
    | None => replyInvalidBase64
    | Some decoded => finish decoded
    end
  else
    (* Request initial response. *)
    reply ReplyAuthContinue EnhancedCodeZero [] ;;;
    line <- readLine ;;
    match line with
    | inr _ => ret tt
    | inl line =>
        if bytes_eqb line (bs "*") then replyCancelled
        else
          match base64.DecodeString line with
          | None => replyInvalidBase64
          | Some decoded => finish decoded
          end
    end.

(** [authLOGIN] handles SASL LOGIN authentication. *)
Definition authLOGIN (h : H -> bytes -> bytes -> bytes -> option handlerError * H) : M unit :=
  reply ReplyAuthContinue EnhancedCodeZero (base64.EncodeToString (bs "Username:")) ;;;
  userLine <- readLine ;;
  match userLine with
  | inr _ => ret tt
  | inl userLine =>
      if bytes_eqb userLine (bs "*") then replyCancelled
      else
        match base64.DecodeString userLine with
        | None => replyInvalidBase64
        | Some userBytes =>
            reply ReplyAuthContinue EnhancedCodeZero (base64.EncodeToString (bs "Password:")) ;;;
            passLine <- readLine ;;
            match passLine with
            | inr _ => ret tt
            | inl passLine =>
                if bytes_eqb passLine (bs "*") then replyCancelled
                else
                  match base64.DecodeString passLine with
                  | None => replyInvalidBase64
                  | Some passBytes => authenticate h (bs "LOGIN") userBytes passBytes
                  end
            end
        end
  end.

(** [authCRAMMD5] handles SASL CRAM-MD5 authentication. *)
Definition authCRAMMD5 (h : H -> bytes -> bytes -> bytes -> option handlerError * H) : M unit :=
  t1 <- now ;;
  t2 <- now ;;
  let challenge :=
    bs "<" ++ fmt.d (fst t1) ++ bs "." ++ fmt.d (snd t2) ++ bs "@" ++ hostname srv ++ bs ">" in
  reply ReplyAuthContinue EnhancedCodeZero (base64.EncodeToString challenge) ;;;
  line <- readLine ;;
  match line with
  | inr _ => ret tt
  | inl line =>
      if bytes_eqb line (bs "*") then replyCancelled
      else
        match base64.DecodeString line with
        | None => replyInvalidBase64
        | Some resp =>
            match strings.LastIndexByte resp " " with
            | None =>
                reply ReplySyntaxParamError EnhancedCodeSyntaxError (bs "Invalid CRAM-MD5 response")
            | Some spaceIdx =>
                let username := firstn spaceIdx resp in
                let digest := skipn (S spaceIdx) resp in
                let password := challenge ++ bs ":" ++ digest in
                authenticate h (bs "CRAM-MD5") username password
            end
        end
  end.

(** [handleAUTH] processes the AUTH command. *)
Definition handleAUTH (args : bytes) : M unit :=
  match authHandler srv with
  | None => reply ReplyCommandNotImpl EnhancedCodeInvalidCommand (bs "AUTH not available")
  | Some h =>
      s <- getS ;;
      if stateNum (state s) <? stateNum stateGreeted then
        reply ReplyBadSequence EnhancedCodeInvalidCommand (bs "Send EHLO/HELO first")
      else if stateNum (state s) >=? stateNum stateMail then
        reply ReplyBadSequence EnhancedCodeInvalidCommand
              (bs "AUTH not allowed during mail transaction")
      else if authenticated s then
        reply ReplyBadSequence EnhancedCodeInvalidCommand (bs "Already authenticated")
      else
        let '(mechanism, initialResp, _) := strings.Cut args " " in
        let mechanism := strings.ToUpper mechanism in
        if bytes_eqb mechanism (bs "PLAIN") then authPLAIN h initialResp
        else if bytes_eqb mechanism (bs "LOGIN") then authLOGIN h
        else if bytes_eqb mechanism (bs "CRAM-MD5") then authCRAMMD5 h
        else reply ReplySyntaxParamError EnhancedCodeInvalidParams
                   (bs "Unrecognized authentication mechanism")
  end.

(** [handleSTARTTLS] processes the STARTTLS command.  Returns true if
    the TLS upgrade succeeded and the session should continue. *)
Definition handleSTARTTLS : M bool :=
  match tlsConfig srv with
  | None =>
      reply ReplyCommandNotImpl EnhancedCodeInvalidCommand (bs "STARTTLS not available") ;;;
      ret false
  | Some _ =>
      s <- getS ;;
      if tls s then
        reply ReplyBadSequence EnhancedCodeInvalidCommand (bs "Already running TLS") ;;;
        ret false
      else
        reply ReplyServiceReady EnhancedCodeZero (bs "Ready to start TLS") ;;;
        s <- getS ;;
        (* Upgrade the connection. *)
        let '(ok, input) := tls_Handshake (textproto.r (conn s)) in
        if negb ok then
          modifyS (fun s => set_conn (textproto.mkConn input (textproto.w (conn s))) s) ;;;
          ret false
        else
          (* Replace the underlying connection with the TLS connection. *)
          modifyS (fun s => set_tls true (set_conn (textproto.ReplaceConn (conn s) input) s)) ;;;
          (* Reset session state after TLS upgrade (RFC 3207 §4.2). *)
          resetTransaction ;;;
          modifyS (fun s => set_esmtp false (set_clientHostname [] (set_state stateNew s))) ;;;
          ret true
  end.

(** The reply and the count that follow a command that is not
    accepted at all; [true] when the connection has to be closed. *)
Definition invalidCommand (msg : bytes) : M bool :=
  reply ReplySyntaxError EnhancedCodeInvalidCommand msg ;;;
  modifyS (fun s => set_invalidCmds (int_wrap (invalidCmds s + 1)) s) ;;;
  s <- getS ;;
  if (maxInvalidCmds srv >? 0) && (invalidCmds s >=? maxInvalidCmds srv) then
    reply ReplyServiceNotAvailable EnhancedCodeOtherNetwork
          (bs "Too many errors, closing connection") ;;;
    ret true
  else ret false.

(** The [switch verb] of the command loop; [true] when the loop
    returns, which closes the connection. *)
Definition dispatch (verb args : bytes) : M bool :=
  if bytes_eqb verb (bs "EHLO") then handleEHLO args ;;; ret false
  else if bytes_eqb verb (bs "HELO") then handleHELO args ;;; ret false
  else if bytes_eqb verb (bs "MAIL") then handleMAIL args ;;; ret false
  else if bytes_eqb verb (bs "RCPT") then handleRCPT args ;;; ret false
  else if bytes_eqb verb (bs "DATA") then handleDATA ;;; ret false
  else if bytes_eqb verb (bs "RSET") then handleRSET ;;; ret false
  else if bytes_eqb verb (bs "NOOP") then handleNOOP ;;; ret false
  else if bytes_eqb verb (bs "QUIT") then handleQUIT ;;; ret true
  else if bytes_eqb verb (bs "VRFY") then handleVRFY args ;;; ret false
  else if bytes_eqb verb (bs "EXPN") then
    reply ReplyCommandNotImpl EnhancedCodeInvalidCommand (bs "EXPN not implemented") ;;;
    ret false
  else if bytes_eqb verb (bs "STARTTLS") then handleSTARTTLS ;;; ret false
  else if bytes_eqb verb (bs "AUTH") then handleAUTH args ;;; ret false
  else if bytes_eqb verb (bs "BDAT") then handleBDAT args ;;; ret false
  else invalidCommand (bs "Command not recognized").

(** What the command loop does with a line it has read. *)
Definition handleLine (line : bytes) : M bool :=
  (* Reject NUL bytes in commands. *)
  if strings.ContainsNUL line then invalidCommand (bs "NUL not allowed in commands")
  else
    let '(verb, args) := parseCommand line in
    dispatch verb args.

(** One turn of the command loop of [handleConn]: read a line, handle
    it.  [true] when the loop returns.  (The server is taken not to be
    shutting down: the [select] on [ctx.Done()] falls through.) *)
Definition commandStep : M bool :=
  line <- readLine ;;
  match line with
  | inr _ => ret true                       (* Connection closed or error. *)
  | inl line => handleLine line
  end.

(** At most [n] turns of the command loop; [true] when the loop has
    returned within them. *)
Fixpoint commandLoop (n : nat) : M bool :=
  match n with
  | O => ret false
  | S n' =>
      stop <- commandStep ;;
      if stop then ret true else commandLoop n'
  end.

(** The session of a new connection before its first command. *)
Definition newSession (input : bytes) : session :=
  mkSession (textproto.NewConn input) stateNew [] false false false 0
            ReversePathZero [] [].

(** [handleConn], the entry point for a new client connection, running
    at most [n] turns of the command loop. *)
Definition handleConn (remoteAddr : bytes) (n : nat) : M bool :=
  err <- match connHandler srv with
         | Some h => call (fun a => h a remoteAddr)
         | None => ret None
         end ;;
  match err with
  | Some (IsSMTPError smtpErr) =>
      replyMulti (Code smtpErr) [Message smtpErr] ;;; ret true
  | Some OtherError =>
      replyMulti ReplyServiceNotAvailable [bs "Connection refused"] ;;; ret true
  | None =>
      (* Send greeting banner. *)
      replyMulti ReplyServiceReady [hostname srv ++ bs " ESMTP ready"] ;;;
      commandLoop n
  end.

(** *** Notions used to state the properties of the session *)

(** The world after [out] was sent to the client. *)
Definition withOutput (out : bytes) (w : world H) : world H :=
  mkWorld (set_conn (textproto.mkConn (textproto.r (conn (sess w)))
                                      (textproto.w (conn (sess w)) ++ out))
                    (sess w))
          (app w) (ticks w).

(** The octets of a reply of one line with an enhanced code. *)
Definition replyBytes (code : ReplyCode) (enhanced : EnhancedCode) (msg : bytes) : bytes :=
  textproto.WriteReply_bytes code [EnhancedCode_String enhanced ++ bs " " ++ msg].


(** Lines handled one after the other, as long as the loop goes on. *)
Fixpoint handleLines (lines : list bytes) : M bool :=
  match lines with
  | [] => ret false
  | line :: lines' =>
      stop <- handleLine line ;;
      if stop then ret true else handleLines lines'
  end.





(** A command out of sequence: a verb of the mail transaction (or AUTH,
    when the server has an AuthHandler) in a state whose row in the
    table of the state machine does not list it. *)
Definition outOfSequence (st : sessionState) (verb : bytes) : bool :=
  (bytes_eqb verb (bs "MAIL") &&
     match st with stateNew | stateMail | stateRcpt => true | _ => false end)
  || (bytes_eqb verb (bs "RCPT") &&
     match st with stateNew | stateGreeted => true | _ => false end)
  || ((bytes_eqb verb (bs "DATA") || bytes_eqb verb (bs "BDAT")) &&
     match st with stateNew | stateGreeted | stateMail => true | _ => false end)
  || (bytes_eqb verb (bs "AUTH") &&
     match authHandler srv with Some _ => true | None => false end &&
     match st with stateNew | stateMail | stateRcpt => true | _ => false end).

(** The world with [input] left to read. *)
Definition withInput (input : bytes) (w : world H) : world H :=
  mkWorld (set_conn (textproto.mkConn input (textproto.w (conn (sess w)))) (sess w))
          (app w) (ticks w).

(** The session once a transaction has ended: Greeted, nothing of the
    transaction left, [input] to read and [out] sent; the rest as it was. *)
Definition afterTransaction (input out : bytes) (s : session) : session :=
  mkSession (textproto.mkConn input out) stateGreeted
    (clientHostname s) (esmtp s) (tls s) (authenticated s) (invalidCmds s)
    ReversePathZero [] [].


(** The AuthHandler of the server, if there is one, accepts nothing. *)
Definition rejecting : Prop :=
  forall h, authHandler srv = Some h ->
  forall a mechanism username password, fst (h a mechanism username password) <> None.

(** What holds of a session between two commands: no more recipients
    than the limit; in submission mode, no transaction without
    authentication; outside a transaction nothing of a transaction, in
    the state Rcpt at least one recipient, never the state Data; not
    authenticated when the AuthHandler accepts nothing. *)
Definition sessionInv (s : session) : Prop :=
  Z.of_nat (length (forwardPaths s)) <= Z.max 0 (maxRecipients srv)
  /\ (submissionMode srv = true -> stateNum stateMail <= stateNum (state s) ->
      authenticated s = true)
  /\ (stateNum (state s) <= stateNum stateGreeted ->
      reversePath s = ReversePathZero /\ forwardPaths s = [] /\ bdatBuffer s = [])
  /\ (stateNum stateRcpt <= stateNum (state s) -> forwardPaths s <> [])
  /\ state s <> stateData
  /\ (rejecting -> authenticated s = false).

End Session.


(** The stream of the lines, each followed by CRLF. *)
Definition stream (lines : list bytes) : bytes :=
  concat (map (fun line => line ++ CRLF) lines).

(** The octets of a reply of one line: the code, a space, the enhanced
    code and a space unless the enhanced code is zero, the text, CRLF. *)
Definition replyOctets (code : ReplyCode) (enhanced : EnhancedCode) (msg : bytes) : bytes :=
  fmt.d code ++ bs " "
    ++ (if IsZero enhanced then [] else EnhancedCode_String enhanced ++ bs " ")
    ++ msg ++ CRLF.

(** The octets of the reply to an error of a handler: the SMTPError
    itself on one line, or [fallback] when the error is of another
    type. *)
Definition errorOctets (e : handlerError) (fallback : bytes) : bytes :=
  match e with
  | IsSMTPError smtpErr => replyOctets (Code smtpErr) (Enhanced smtpErr) (Message smtpErr)
  | OtherError => fallback
  end.

(** The session [s] after a command: [input] left to read, [out] sent
    in all, and the state, the authentication flag and the envelope as
    given; the name of the client, the ESMTP and TLS flags and the count
    of invalid commands as they were. *)
Definition sessionAfter (s : session) (input out : bytes) (st : sessionState)
  (auth : bool) (rp : ReversePath) (fps : list ForwardPath) (buf : bytes) : session :=
  mkSession (textproto.mkConn input out) st
    (clientHostname s) (esmtp s) (tls s) auth (invalidCmds s) rp fps buf.

(** *** A server and an environment to run examples in *)

(** An environment that treats every octet as a character: the Unicode
    functions do nothing, and [Sscanf] reads a number the way [Atoi] does. *)
Definition sampleExternals : Externals := {|
  unicode_ToUpper := fun s => s;
  unicode_TrimFunc_IsSpace := fun s => s;
  unicode_TrimRightFunc_IsSpace := fun s => s;
  unicode_FieldsFunc_IsSpace := fun s => [s];
  utf8_runes := map rune;
  utf8_ValidString := fun _ => true;
  fmt_Sscanf_d := fun s => match strconv.Atoi s with inl z => Some z | inr _ => None end;
  tls_Handshake := fun s => (true, s);
  time_Now := fun k => (Z.of_nat k, Z.of_nat k)
|}.

(** A server with a TLS configuration, an AuthHandler that accepts the
    password [testpass] and a MailHandler that refuses every sender with
    a message of two lines; at most three invalid commands. *)
Definition policyError : SMTPError :=
  mkSMTPError 550 (mkEnhancedCode 5 7 1) (bs "line one" ++ LF :: bs "line two").

Definition sampleOnMail (a : unit) (from : ReversePath) : option handlerError * unit :=
  (Some (IsSMTPError policyError), a).

Definition sampleAuthenticate (a : unit) (mechanism username password : bytes)
  : option handlerError * unit :=
  (if bytes_eqb password (bs "testpass") then None else Some OtherError, a).

Definition sampleServer : Server unit :=
  mkServer (bs "mail.test") 10485760 100 3 (Some tt) false
    None None (Some sampleOnMail) None None None None (Some sampleAuthenticate).

Definition sampleWorld (st : sessionState) (input : bytes) : world unit :=
  mkWorld (set_state st (newSession input)) tt 0.

(** A session that has said EHLO, is authenticated and has two invalid
    commands counted. *)
Definition authenticatedSession : session :=
  mkSession (textproto.NewConn []) stateGreeted (bs "client.test") true false
            true 2 ReversePathZero [] [].

(** Three invalid commands: the second one has a NUL in it. *)
Definition threeInvalid : list bytes :=
  [bs "GIBBERISH1"; bs "EHLO" ++ NUL :: bs "test"; bs "GIBBERISH3"].

(** The same server for message submission: MAIL needs authentication. *)
Definition submissionServer : Server unit :=
  mkServer (bs "mail.test") 10485760 100 3 (Some tt) true
    None None None None None None None (Some sampleAuthenticate).

(** A server without handlers: it accepts every message and has no
    AUTH. *)
Definition relayServer : Server unit :=
  mkServer (bs "mail.test") 10485760 2 3 None false
    None None None None None None None None.

(** A server whose handlers accept everything and keep what they were
    called with: the AuthHandler its mechanism, username and password,
    the DataHandler the message it read with one [Read]. *)
Definition recordAuthenticate (log : list (list bytes)) (mechanism username password : bytes)
  : option handlerError * list (list bytes) :=
  (None, log ++ [[mechanism; username; password]]).

Definition recordData (log : list (list bytes)) (from : ReversePath) (to : list ForwardPath)
  : ReadPlan (option handlerError * list (list bytes)) :=
  CallRead 4096 (fun message _ => Return (None, log ++ [[bs "DATA"; message]])).

Definition recordingServer : Server (list (list bytes)) :=
  mkServer (bs "mail.test") 10485760 100 3 None false
    None None None None (Some recordData) None None (Some recordAuthenticate).


End smtpserver.

(* ================================================================= *)
(** * Part II: properties *)
(* ================================================================= *)

(** ** Octets *)

Lemma byte_eqb_refl (b : byte) : Byte.eqb b b = true.
Proof. now apply Byte.byte_dec_lb. Qed.

Lemma byte_eqb_eq (a b : byte) : Byte.eqb a b = true <-> a = b.
Proof. split; [apply Byte.byte_dec_bl | apply Byte.byte_dec_lb]. Qed.

Lemma byte_eqb_neq (a b : byte) : Byte.eqb a b = false <-> a <> b.
Proof.
  split.
  - apply Byte.eqb_false.
  - intros Hne. destruct (Byte.eqb a b) eqn:E; [| reflexivity].
    apply byte_eqb_eq in E. contradiction.
Qed.

(** Case analysis on a test of two octets, with the equation in the
    context. *)
Ltac byte_cases b c :=
  let E := fresh "E" in
  destruct (Byte.eqb b c) eqn:E;
  [apply byte_eqb_eq in E; try subst b | idtac].

(** ** dot.go *)

Section DotProofs.
Import textproto_dot.

Lemma Write_loop_stuffed (p : bytes) : forall out bl,
  Write_loop p out bl = (out ++ stuffed bl p, flagAfter bl p).
Proof.
  induction p as [| b p IH]; intros out bl; simpl.
  - now rewrite app_nil_r.
  - rewrite IH. f_equal.
    destruct (bl && Byte.eqb b "."); simpl; now rewrite <- !app_assoc.
Qed.

Lemma stuffed_app (p q : bytes) : forall bl,
  stuffed bl (p ++ q) = stuffed bl p ++ stuffed (flagAfter bl p) q.
Proof.
  induction p as [| b p IH]; intros bl; simpl; [reflexivity |].
  rewrite IH. now rewrite <- app_assoc.
Qed.

Lemma flagAfter_app (p q : bytes) : forall bl,
  flagAfter bl (p ++ q) = flagAfter (flagAfter bl p) q.
Proof. induction p as [| b p IH]; intros bl; simpl; auto. Qed.

Lemma flagAfter_HasSuffix_LF (p : bytes) : forall bl,
  p <> [] -> flagAfter bl p = HasSuffix_LF p.
Proof.
  induction p as [| b p IH]; intros bl Hne; [contradiction |].
  destruct p as [| c p]; [reflexivity |].
  change (flagAfter bl (b :: c :: p)) with (flagAfter (Byte.eqb b LF) (c :: p)).
  rewrite IH with (bl := Byte.eqb b LF) by discriminate.
  reflexivity.
Qed.

(** The wire form of a message is its canonical form, stuffed, followed
    by the terminator; and the canonical form ends a line. *)
Lemma DotWriter_wire_canonical (B : bytes) :
  DotWriter_wire B = stuffed true (canonical B) ++ ["."; CR; LF]
  /\ flagAfter true (canonical B) = true.
Proof.
  unfold DotWriter_wire, Write, Close, newDotWriter. simpl.
  rewrite Write_loop_stuffed. simpl.
  destruct B as [| b B]; [split; reflexivity |].
  unfold canonical.
  rewrite <- flagAfter_HasSuffix_LF with (bl := true) by discriminate.
  destruct (flagAfter true (b :: B)) eqn:F; simpl negb; cbv iota.
  - split; [reflexivity | exact F].
  - rewrite stuffed_app, flagAfter_app, F. split; [| reflexivity].
    reflexivity.
Qed.

(** One octet of the message through the reader: whatever the state,
    as long as it agrees with the writer's flag, the reader delivers the
    octet and agrees with the writer again. *)
Lemma Read_loop_step (b : byte) (B T : bytes) (bl : bool) (st : dotState)
  (room : nat) (np : bool) :
  agree bl st ->
  Read_loop (stuffed bl (b :: B) ++ T) st (S room) np
  = emit b (Read_loop (stuffed (Byte.eqb b LF) B ++ T) (stateAfter b) room true).
Proof.
  intros Hag. unfold stateAfter.
  destruct (Byte.eqb b ".") eqn:E1, (Byte.eqb b CR) eqn:E2, (Byte.eqb b LF) eqn:E3;
    try (apply byte_eqb_eq in E1; subst b; discriminate);
    try (apply byte_eqb_eq in E2; subst b; discriminate);
    (destruct bl; simpl in Hag; [subst st | destruct Hag; subst st]);
    simpl; rewrite ?E1, ?E2, ?E3; simpl; rewrite ?E1, ?E2, ?E3;
    try reflexivity;
    apply byte_eqb_eq in E1; subst b; reflexivity.
Qed.

Lemma agree_stateAfter (b : byte) : agree (Byte.eqb b LF) (stateAfter b).
Proof.
  unfold agree, stateAfter.
  byte_cases b LF; [reflexivity |].
  destruct (Byte.eqb b CR); auto.
Qed.

(** A buffer that the message fills: the reader delivers a prefix and
    stops in agreement with the writer. *)
Lemma Read_loop_prefix (B : bytes) : forall T bl st room np,
  agree bl st -> room <= length B ->
  exists st' bl',
    agree bl' st' /\
    flagAfter bl' (skipn room B) = flagAfter bl B /\
    Read_loop (stuffed bl B ++ T) st room np
    = (firstn room B, None, st', stuffed bl' (skipn room B) ++ T).
Proof.
  induction B as [| b B IH]; intros T bl st room np Hag Hle.
  - assert (room = 0) by (simpl in Hle; lia). subst room.
    exists st, bl. repeat split; auto.
    destruct T; reflexivity.
  - destruct room as [| room].
    + exists st, bl. repeat split; auto.
      simpl. destruct (bl && Byte.eqb b "."); reflexivity.
    + rewrite Read_loop_step by assumption.
      destruct (IH T (Byte.eqb b LF) (stateAfter b) room true
                   (agree_stateAfter b)) as (st' & bl' & Hag' & Hfl & Heq).
      { simpl in Hle. lia. }
      exists st', bl'. repeat split; auto.
      rewrite Heq. reflexivity.
Qed.

(** A buffer larger than what is left of the message: the reader
    delivers it all, meets the terminator and reports the end. *)
Lemma Read_loop_all (B : bytes) : forall bl st room np,
  agree bl st -> flagAfter bl B = true -> length B < room ->
  Read_loop (stuffed bl B ++ ["."; CR; LF]) st room np
  = (B, Some io_EOF, dotStateEOF, []).
Proof.
  induction B as [| b B IH]; intros bl st room np Hag Hfl Hlt.
  - simpl in Hfl. subst bl. simpl in Hag. subst st.
    destruct room; [simpl in Hlt; lia | reflexivity].
  - destruct room as [| room]; [simpl in Hlt; lia |].
    rewrite Read_loop_step by assumption.
    rewrite (IH (Byte.eqb b LF) (stateAfter b) room true (agree_stateAfter b)).
    + reflexivity.
    + exact Hfl.
    + simpl in Hlt. lia.
Qed.

Lemma agree_not_EOF (bl : bool) (st : dotState) :
  agree bl st -> st <> dotStateEOF.
Proof. destruct bl; simpl; intros H; [| destruct H]; subst; discriminate. Qed.

Lemma Read_agree (bl : bool) (st : dotState) (src : bytes) (lenp : nat) :
  agree bl st ->
  Read {| r := src; state := st |} lenp
  = let '(out, e, st', src') := Read_loop src st lenp false in
    (out, e, {| r := src'; state := st' |}).
Proof.
  intros Hag. apply agree_not_EOF in Hag.
  unfold Read. simpl. destruct st; try reflexivity. contradiction.
Qed.

Lemma ReadAll_stuffed (avail : nat -> nat) (Havail : forall n, 1 <= avail n) :
  forall fuel B bl st acc,
    agree bl st -> flagAfter bl B = true -> length B < fuel ->
    ReadAll avail fuel {| r := stuffed bl B ++ ["."; CR; LF]; state := st |} acc
    = Some (acc ++ B, None, {| r := []; state := dotStateEOF |}).
Proof.
  induction fuel as [| fuel IH]; intros B bl st acc Hag Hfl Hlt; [lia |].
  simpl. rewrite Read_agree with (bl := bl) by exact Hag.
  specialize (Havail (length acc)).
  destruct (Nat.le_gt_cases (avail (length acc)) (length B)) as [Hle | Hgt].
  - destruct (@Read_loop_prefix B ["."; CR; LF] bl st _ false Hag Hle)
      as (st' & bl' & Hag' & Hfl' & Heq).
    rewrite Heq.
    rewrite IH with (bl := bl'); auto.
    + now rewrite <- app_assoc, firstn_skipn.
    + congruence.
    + rewrite length_skipn. lia.
  - rewrite Read_loop_all by assumption. reflexivity.
Qed.

(** C1 (as amended): for every message [B], whatever the sizes of the
    buffers [io.ReadAll] reads with, reading back what a dotWriter sent
    for [B] yields [B] itself when [B] is empty or ends with LF, and [B]
    followed by CRLF otherwise; the reader ends in its end state with
    the terminator consumed. *)
Theorem dot_roundtrip_canonical (avail : nat -> nat) (fuel : nat) (B : bytes) :
  (forall n, 1 <= avail n) ->
  length B + 2 < fuel ->
  ReadAll avail fuel (newDotReader (DotWriter_wire B)) []
  = Some (canonical B, None, {| r := []; state := dotStateEOF |}).
Proof.
  intros Havail Hfuel.
  destruct (DotWriter_wire_canonical B) as [-> Hfl].
  unfold newDotReader.
  rewrite ReadAll_stuffed with (bl := true); auto.
  - reflexivity.
  - unfold canonical. destruct B as [| b B]; [simpl; lia |].
    destruct (HasSuffix_LF (b :: B)); [lia |].
    rewrite length_app. simpl. simpl in Hfuel. lia.
Qed.

End DotProofs.

(** ** Draining the body of a message ends *)

Section DiscardProofs.
Import textproto_dot.

Lemma restOf_emit (b : byte) (res : loopResult) : restOf (emit b res) = restOf res.
Proof. destruct res as [[[out e] st] src]. reflexivity. Qed.

Lemma errOf_emit (b : byte) (res : loopResult) : errOf (emit b res) = errOf res.
Proof. destruct res as [[[out e] st] src]. reflexivity. Qed.

(** [Read] never gives octets back beyond the one it may unread. *)
Lemma Read_loop_rest_le (src : bytes) : forall st room np,
  length (restOf (Read_loop src st room np)) <= length src.
Proof.
  induction src as [| b src IH]; intros st room np.
  - destruct room; reflexivity.
  - destruct room as [| room1]; [reflexivity |].
    assert (IH' : forall st room np,
               length (restOf (Read_loop src st room np)) <= S (length src))
      by (intros; etransitivity; [apply IH | lia]).
    destruct st; simpl Read_loop;
      repeat match goal with
             | |- context [Byte.eqb ?x ?y] => destruct (Byte.eqb x y)
             | |- context [match ?n with O => _ | S _ => _ end] => destruct n
             end;
      rewrite ?restOf_emit; simpl length; try apply IH'; unfold restOf; simpl; lia.
Qed.

(** With room for three octets or more, a [Read] that starts a call and
    returns no error has consumed input. *)
Lemma Read_loop_progress (src : bytes) : forall st room,
  3 <= room ->
  errOf (Read_loop src st room false) = None ->
  length (restOf (Read_loop src st room false)) < length src.
Proof.
  induction src as [| b src IH]; intros st room Hroom.
  - destruct room; [lia |]. discriminate.
  - destruct room as [| [| [| room3]]]; try lia.
    assert (Hle : forall st room np,
               length (restOf (Read_loop src st room np)) < S (length src)).
    { intros. apply Nat.lt_succ_r. apply Read_loop_rest_le. }
    assert (IH' : forall st,
               errOf (Read_loop src st (S (S (S room3))) false) = None ->
               length (restOf (Read_loop src st (S (S (S room3))) false)) < S (length src)).
    { intros st0 He. etransitivity; [apply IH; [lia | exact He] | lia]. }
    destruct st; simpl Read_loop;
      repeat match goal with
             | |- context [Byte.eqb ?x ?y] => destruct (Byte.eqb x y)
             end;
      rewrite ?restOf_emit, ?errOf_emit; simpl length;
      try (intros _; apply Hle); try apply IH'; try discriminate.
Qed.

Lemma discard_loop_total : forall fuel d,
  length (r d) < fuel -> smtpserver.discard_loop fuel d <> None.
Proof.
  induction fuel as [| fuel IH]; intros d Hlt; [lia |].
  assert (Hroom : 3 <= smtpserver.discardBufSize)
    by (unfold smtpserver.discardBufSize; lia).
  simpl. unfold Read.
  destruct (state d) eqn:Est; try discriminate;
    match goal with
    | |- context [Read_loop (r d) ?st0 _ false] =>
        pose proof (@Read_loop_progress (r d) st0 _ Hroom) as Hp
    end;
    destruct (Read_loop (r d) _ smtpserver.discardBufSize false)
      as [[[out e] st'] src'];
    (destruct e; [discriminate |]);
    apply IH; simpl;
    specialize (Hp eq_refl); unfold restOf in Hp; simpl in Hp; lia.
Qed.

End DiscardProofs.

(** ** conn.go: ReadLine *)

Section ReadLineProofs.
Import textproto.

Lemma unsnoc_snoc (s : bytes) (c : byte) : unsnoc (s ++ [c]) = Some (s, c).
Proof. unfold unsnoc. rewrite rev_app_distr. simpl. now rewrite rev_involutive. Qed.

Lemma unsnoc_nil : unsnoc [] = None.
Proof. reflexivity. Qed.

Lemma unsnoc_Some (s s' : bytes) (c : byte) :
  unsnoc s = Some (s', c) -> s = s' ++ [c].
Proof.
  unfold unsnoc. destruct (rev s) as [| x l] eqn:E; [discriminate |].
  intros [= <- <-]. rewrite <- (rev_involutive s), E. reflexivity.
Qed.

Lemma unsnoc_None (s : bytes) : unsnoc s = None -> s = [].
Proof.
  unfold unsnoc. destruct (rev s) eqn:E; [| discriminate].
  intros _. rewrite <- (rev_involutive s), E. reflexivity.
Qed.

Lemma noLF_app (a b : bytes) : noLF (a ++ b) = noLF a && noLF b.
Proof. unfold noLF. apply forallb_app. Qed.

Lemma noLF_firstn (n : nat) (s : bytes) : noLF s = true -> noLF (firstn n s) = true.
Proof.
  intros Hs. rewrite <- (firstn_skipn n s), noLF_app in Hs.
  now apply andb_true_iff in Hs.
Qed.

Lemma noLF_skipn (n : nat) (s : bytes) : noLF s = true -> noLF (skipn n s) = true.
Proof.
  intros Hs. rewrite <- (firstn_skipn n s), noLF_app in Hs.
  now apply andb_true_iff in Hs.
Qed.

(** The scan for LF: a line that fits in the window is found ... *)
Lemma split_LF_found (body : bytes) : forall n rest,
  noLF body = true -> length body < n ->
  split_LF n (body ++ LF :: rest) = Some (body ++ [LF], rest).
Proof.
  induction body as [| b body IH]; intros n rest Hno Hlt;
    (destruct n as [| n]; [simpl in Hlt; lia |]).
  - reflexivity.
  - simpl in Hno. apply andb_true_iff in Hno as [Hb Hno].
    apply negb_true_iff in Hb. simpl. rewrite Hb.
    rewrite IH by (simpl in Hlt; auto; lia). reflexivity.
Qed.

(** ... and a window without LF gives nothing. *)
Lemma split_LF_none (n : nat) : forall s,
  noLF (firstn n s) = true -> split_LF n s = None.
Proof.
  induction n as [| n IH]; intros s Hno; [reflexivity |].
  destruct s as [| b s]; [reflexivity |].
  simpl in Hno. apply andb_true_iff in Hno as [Hb Hno].
  apply negb_true_iff in Hb. simpl. rewrite Hb.
  now rewrite IH.
Qed.

Lemma stripCR_snoc (s : bytes) (c : byte) :
  stripCR (s ++ [c]) = if Byte.eqb c CR then s else s ++ [c].
Proof. unfold stripCR. now rewrite unsnoc_snoc. Qed.

Lemma stripCR_app (a b : bytes) : b <> [] -> stripCR (a ++ b) = a ++ stripCR b.
Proof.
  intros Hb. destruct (unsnoc b) as [[b' c] |] eqn:E.
  - apply unsnoc_Some in E. subst b.
    rewrite app_assoc, !stripCR_snoc.
    destruct (Byte.eqb c CR); [reflexivity | now rewrite app_assoc].
  - apply unsnoc_None in E. contradiction.
Qed.

(** A line that fits in the buffer is returned whole, without its
    terminator. *)
Lemma bufio_ReadLine_short (size : nat) (body rest : bytes) :
  noLF body = true -> length body < size ->
  bufio_ReadLine size (body ++ LF :: rest) = (stripCR body, false, None, rest).
Proof.
  intros Hno Hlt. unfold bufio_ReadLine, bufio_ReadSlice.
  rewrite split_LF_found by assumption.
  rewrite unsnoc_snoc, byte_eqb_refl.
  unfold stripCR. destruct (unsnoc body) as [[body' c] |]; [| reflexivity].
  destruct (Byte.eqb c CR); reflexivity.
Qed.

(** A line that does not fit is cut: a non-empty prefix comes back with
    [isPrefix], and what is left is again a line. *)
Lemma bufio_ReadLine_long (size : nat) (body rest : bytes) :
  noLF body = true -> 2 <= size -> size <= length body ->
  exists k, 1 <= k <= length body /\
    stripCR body = firstn k body ++ stripCR (skipn k body) /\
    bufio_ReadLine size (body ++ LF :: rest)
    = (firstn k body, true, None, skipn k body ++ LF :: rest).
Proof.
  intros Hno Hsize Hle. unfold bufio_ReadLine, bufio_ReadSlice.
  assert (Hf0 : firstn size (body ++ LF :: rest) = firstn size body).
  { rewrite firstn_app. replace (size - length body) with 0 by lia.
    simpl. now rewrite app_nil_r. }
  assert (Hs0 : skipn size (body ++ LF :: rest) = skipn size body ++ LF :: rest).
  { rewrite skipn_app. replace (size - length body) with 0 by lia. reflexivity. }
  rewrite split_LF_none by (rewrite Hf0; now apply noLF_firstn).
  assert (Hlen : (size <=? length (body ++ LF :: rest)) = true).
  { apply Nat.leb_le. rewrite length_app. lia. }
  rewrite Hlen, Hf0, Hs0.
  destruct (unsnoc (firstn size body)) as [[line' c] |] eqn:E.
  - apply unsnoc_Some in E.
    assert (Hl' : length line' = size - 1).
    { apply (f_equal (@length byte)) in E.
      rewrite length_firstn, length_app in E. simpl in E. lia. }
    destruct (Byte.eqb c CR) eqn:Ec.
    + apply byte_eqb_eq in Ec. subst c.
      exists (size - 1).
      assert (Hf : firstn (size - 1) body = line').
      { rewrite <- (firstn_skipn size body).
        rewrite E, <- app_assoc, firstn_app, Hl'.
        replace (size - 1 - (size - 1)) with 0 by lia.
        rewrite firstn_all2 by lia. simpl. now rewrite app_nil_r. }
      assert (Hs : skipn (size - 1) body = CR :: skipn size body).
      { rewrite <- (firstn_skipn size body) at 1.
        rewrite E, <- app_assoc, skipn_app, Hl'.
        replace (size - 1 - (size - 1)) with 0 by lia.
        rewrite skipn_all2 by lia. reflexivity. }
      rewrite Hf, Hs. split; [lia |]. split; [| reflexivity].
      rewrite <- (firstn_skipn (size - 1) body) at 1.
      rewrite Hf, Hs. apply stripCR_app. discriminate.
    + exists size. split; [lia |]. split; [| reflexivity].
      destruct (skipn size body) as [| x tl] eqn:Es.
      * rewrite <- (firstn_skipn size body) at 1.
        rewrite Es, app_nil_r, E, stripCR_snoc, Ec.
        unfold stripCR. simpl. now rewrite app_nil_r.
      * rewrite <- (firstn_skipn size body) at 1.
        rewrite Es. apply stripCR_app. discriminate.
  - apply unsnoc_None in E.
    apply (f_equal (@length byte)) in E. rewrite length_firstn in E.
    simpl in E. lia.
Qed.

(** Draining reaches the end of the line. *)
Lemma drainLine_line (size : nat) (Hsize : 2 <= size) : forall fuel body rest,
  noLF body = true -> length body < fuel ->
  drainLine fuel size true (body ++ LF :: rest) = Some rest.
Proof.
  induction fuel as [| fuel IH]; intros body rest Hno Hlt; [lia |].
  simpl.
  destruct (Nat.lt_ge_cases (length body) size) as [Hshort | Hlong].
  - rewrite bufio_ReadLine_short by assumption. destruct fuel; reflexivity.
  - destruct (@bufio_ReadLine_long size body rest Hno Hsize Hlong)
      as (k & Hk & _ & ->).
    apply IH; [now apply noLF_skipn |].
    rewrite length_skipn. lia.
Qed.

Lemma ReadLine_loop_line (size : nat) (Hsize : 2 <= size) (maxLen : Z) :
  forall fuel body rest line,
    noLF body = true -> length body < fuel ->
    exists res,
      ReadLine_loop fuel size maxLen line (body ++ LF :: rest) = Some (res, rest) /\
      if (Z.of_nat (length line + length (stripCR body)) + 2 <=? maxLen)%Z
      then res = inl (line ++ stripCR body)
      else tooLong res maxLen.
Proof.
  induction fuel as [| fuel IH]; intros body rest line Hno Hlt; [lia |].
  simpl.
  destruct (Nat.lt_ge_cases (length body) size) as [Hshort | Hlong].
  - rewrite bufio_ReadLine_short by assumption. simpl negb. cbv iota.
    rewrite length_app.
    destruct (Z.gtb_spec (Z.of_nat (length line + length (stripCR body))) (maxLen - 2)).
    + eexists. split; [reflexivity |].
      destruct (Z.leb_spec (Z.of_nat (length line + length (stripCR body)) + 2) maxLen);
        [lia | eexists; reflexivity].
    + eexists. split; [reflexivity |].
      destruct (Z.leb_spec (Z.of_nat (length line + length (stripCR body)) + 2) maxLen);
        [reflexivity | lia].
  - destruct (@bufio_ReadLine_long size body rest Hno Hsize Hlong)
      as (k & Hk & Hstrip & ->).
    simpl negb. cbv iota.
    assert (Hlenk : length (firstn k body) = k) by (rewrite length_firstn; lia).
    assert (Hlens : length (stripCR body) = k + length (stripCR (skipn k body))).
    { rewrite Hstrip at 1. rewrite length_app, Hlenk. reflexivity. }
    destruct (Z.gtb_spec (Z.of_nat (length (line ++ firstn k body))) maxLen) as [E | E].
    + rewrite drainLine_line;
        [| assumption | now apply noLF_skipn | rewrite length_skipn; lia].
      eexists. split; [reflexivity |].
      rewrite length_app, Hlenk in E.
      destruct (Z.leb_spec (Z.of_nat (length line + length (stripCR body)) + 2) maxLen);
        [lia | eexists; reflexivity].
    + destruct (IH (skipn k body) rest (line ++ firstn k body))
        as (res & Hres & Hcond);
        [now apply noLF_skipn | rewrite length_skipn; lia |].
      exists res. split; [exact Hres |].
      rewrite length_app, Hlenk in Hcond.
      rewrite Hlens.
      replace (length line + (k + length (stripCR (skipn k body))))
        with (length line + k + length (stripCR (skipn k body))) by lia.
      destruct (Z.of_nat (length line + k + length (stripCR (skipn k body))) + 2 <=? maxLen)%Z.
      * rewrite Hcond, Hstrip, app_assoc. reflexivity.
      * exact Hcond.
Qed.

(** [ReadLine] on a stream that begins with a line: the line is
    returned, without its terminator, when its length plus two is at
    most [maxLen]; else the error; either way the line is consumed and
    what follows it is left. *)
Lemma ReadLine_line (maxLen : Z) (body rest : bytes) :
  noLF body = true ->
  exists res,
    ReadLine maxLen (body ++ LF :: rest) = (res, rest) /\
    if (Z.of_nat (length (stripCR body)) + 2 <=? maxLen)%Z
    then res = inl (stripCR body)
    else tooLong res maxLen.
Proof.
  intros Hno. unfold ReadLine.
  destruct (@ReadLine_loop_line bufSize ltac:(unfold bufSize; lia) maxLen
              (S (length (body ++ LF :: rest))) body rest [] Hno)
    as (res & -> & Hcond).
  { rewrite length_app. lia. }
  exists res. split; [reflexivity | exact Hcond].
Qed.

(** The loops of [ReadLine] end: each turn that goes on has consumed
    input. *)
Lemma split_LF_length (n : nat) : forall s line rest,
  split_LF n s = Some (line, rest) -> length rest < length s.
Proof.
  induction n as [| n IH]; intros s line rest; [discriminate |].
  destruct s as [| b s]; [discriminate |]. simpl.
  destruct (Byte.eqb b LF).
  - intros [= <- <-]. simpl. lia.
  - destruct (split_LF n s) as [[l r] |] eqn:E; [| discriminate].
    intros [= <- <-]. apply IH in E. simpl. lia.
Qed.

Lemma bufio_ReadLine_progress (size : nat) (s chunk rest : bytes) (err : option error) :
  2 <= size ->
  bufio_ReadLine size s = (chunk, true, err, rest) ->
  length rest < length s.
Proof.
  intros Hsize. unfold bufio_ReadLine, bufio_ReadSlice.
  destruct (split_LF size s) as [[line r] |] eqn:E.
  - destruct (unsnoc line) as [[l1 c] |]; [| intros [=]].
    destruct (Byte.eqb c LF); [| intros [=]].
    destruct (unsnoc l1) as [[l2 c2] |]; [| intros [=]].
    destruct (Byte.eqb c2 CR); intros [=].
  - destruct (Nat.leb_spec size (length s)) as [Hle | Hgt].
    + destruct (unsnoc (firstn size s)) as [[l c] |].
      * destruct (Byte.eqb c CR); intros [= <- <- <-];
          simpl; rewrite length_skipn; lia.
      * intros [= <- <- <-]. rewrite length_skipn. lia.
    + destruct (unsnoc s) as [[l1 c] |]; [| intros [=]].
      destruct (Byte.eqb c LF); [| intros [=]].
      destruct (unsnoc l1) as [[l2 c2] |]; [| intros [=]].
      destruct (Byte.eqb c2 CR); intros [=].
Qed.

Lemma drainLine_total (size : nat) (Hsize : 2 <= size) : forall fuel isPrefix s,
  length s < fuel -> drainLine fuel size isPrefix s <> None.
Proof.
  induction fuel as [| fuel IH]; intros isPrefix s Hlt; [lia |].
  simpl. destruct isPrefix; [| discriminate].
  destruct (bufio_ReadLine size s) as [[[chunk p] err] rest] eqn:E.
  destruct err; [discriminate |].
  destruct p; [| destruct fuel; discriminate].
  apply IH. apply bufio_ReadLine_progress in E; [lia | assumption].
Qed.

Lemma ReadLine_loop_total (size : nat) (Hsize : 2 <= size) (maxLen : Z) :
  forall fuel line s,
    length s < fuel -> ReadLine_loop fuel size maxLen line s <> None.
Proof.
  induction fuel as [| fuel IH]; intros line s Hlt; [lia |].
  simpl.
  destruct (bufio_ReadLine size s) as [[[chunk p] err] rest] eqn:E.
  destruct err; [discriminate |].
  destruct p; simpl.
  - apply bufio_ReadLine_progress in E; [| assumption].
    destruct (Z.of_nat (length (line ++ chunk)) >? maxLen)%Z.
    + destruct (drainLine fuel size true rest) eqn:D; [discriminate |].
      exfalso. revert D. apply drainLine_total; [assumption | lia].
    + apply IH. lia.
  - destruct (Z.of_nat (length (line ++ chunk)) >? maxLen - 2)%Z; discriminate.
Qed.

(** C7 (as amended): on a stream that begins with a line -- octets
    without LF, then CRLF or a bare LF -- [ReadLine(maxLen)] returns the
    line without its terminator exactly when the length of the line
    without its terminator, plus two, is at most [maxLen], and the
    line-too-long error otherwise; in both cases the whole line is
    consumed.  So a line of [maxLen] octets with its CRLF is accepted,
    and the terminator counts for two octets also when it is a bare LF. *)
Theorem ReadLine_length_limit (maxLen : Z) (content term rest : bytes) :
  noLF content = true ->
  term = CRLF \/ (term = [LF] /\ stripCR content = content) ->
  exists res,
    ReadLine maxLen (content ++ term ++ rest) = (res, rest) /\
    ((Z.of_nat (length content) + 2 <= maxLen)%Z -> res = inl content) /\
    ((maxLen < Z.of_nat (length content) + 2)%Z -> tooLong res maxLen).
Proof.
  intros Hno Hterm.
  assert (Hline : exists body,
             content ++ term ++ rest = body ++ LF :: rest /\
             noLF body = true /\ stripCR body = content).
  { destruct Hterm as [-> | [-> Hstrip]].
    - exists (content ++ [CR]). split; [now rewrite <- app_assoc |].
      split; [| now rewrite stripCR_snoc, byte_eqb_refl].
      rewrite noLF_app, Hno. reflexivity.
    - exists content. auto. }
  destruct Hline as (body & -> & Hnob & Hstrip).
  destruct (@ReadLine_line maxLen body rest Hnob) as (res & Hres & Hcond).
  exists res. split; [exact Hres |].
  rewrite Hstrip in Hcond.
  destruct (Z.leb_spec (Z.of_nat (length content) + 2) maxLen); split; intros; try lia; auto.
Qed.

Lemma ReadLine_length_limit_witness :
  exists res,
    ReadLine 512 (bs "EHLO x" ++ CRLF ++ bs "QUIT" ++ CRLF) = (res, bs "QUIT" ++ CRLF) /\
    ((Z.of_nat (length (bs "EHLO x")) + 2 <= 512)%Z -> res = inl (bs "EHLO x")) /\
    ((512 < Z.of_nat (length (bs "EHLO x")) + 2)%Z -> tooLong res 512).
Proof.
  apply (@ReadLine_length_limit 512 (bs "EHLO x") CRLF (bs "QUIT" ++ CRLF)).
  - reflexivity.
  - left. reflexivity.
Defined.

(** C7 as the specification words it fails on a line that ends with a
    bare LF: 511 octets and LF are 512 octets with the terminator, which
    is not more than the limit of 512, and the line is refused. *)
Lemma ReadLine_bare_LF_counterexample :
  (Z.of_nat (length (repeat "A" 511 ++ [LF])) <= MaxCommandLineLen)%Z /\
  ReadLine MaxCommandLineLen (repeat "A" 511 ++ [LF]) = (inr (ErrLineTooLong 513 512), []).
Proof. split; [vm_compute; discriminate | vm_compute; reflexivity]. Qed.

End ReadLineProofs.

(** ** strings, strconv and fmt *)

Lemma without_app (c : byte) (a b : bytes) :
  without c (a ++ b) = without c a && without c b.
Proof. unfold without. apply forallb_app. Qed.

Lemma Cut_found (sep : byte) (a : bytes) : forall b,
  without sep a = true -> strings.Cut (a ++ sep :: b) sep = (a, b, true).
Proof.
  induction a as [| x a IH]; intros b Ha; simpl.
  - now rewrite byte_eqb_refl.
  - simpl in Ha. apply andb_true_iff in Ha as [Hx Ha].
    apply negb_true_iff in Hx. rewrite Hx, IH by assumption. reflexivity.
Qed.

Lemma Cut_not_found (sep : byte) (a : bytes) :
  without sep a = true -> strings.Cut a sep = (a, [], false).
Proof.
  induction a as [| x a IH]; intros Ha; simpl; [reflexivity |].
  simpl in Ha. apply andb_true_iff in Ha as [Hx Ha].
  apply negb_true_iff in Hx. rewrite Hx, IH by assumption. reflexivity.
Qed.

Lemma Split_without (sep : byte) (a : bytes) :
  without sep a = true -> strings.Split a sep = [a].
Proof.
  induction a as [| x a IH]; intros Ha; simpl; [reflexivity |].
  simpl in Ha. apply andb_true_iff in Ha as [Hx Ha].
  apply negb_true_iff in Hx. rewrite Hx, IH by assumption. reflexivity.
Qed.

Lemma Split_app (sep : byte) (a : bytes) : forall b,
  without sep a = true ->
  strings.Split (a ++ sep :: b) sep = a :: strings.Split b sep.
Proof.
  induction a as [| x a IH]; intros b Ha; simpl.
  - now rewrite byte_eqb_refl.
  - simpl in Ha. apply andb_true_iff in Ha as [Hx Ha].
    apply negb_true_iff in Hx. rewrite Hx, IH by assumption. reflexivity.
Qed.

Lemma uint_bytes_digits (u : Decimal.uint) : forallb isDigit (fmt.uint_bytes u) = true.
Proof. induction u; simpl; auto. Qed.

Lemma parse_uint_bytes (u : Decimal.uint) :
  strconv.parse_uint (fmt.uint_bytes u) = Some u.
Proof. induction u; simpl; try rewrite IHu; reflexivity. Qed.

Lemma digits_without (c : byte) (s : bytes) :
  isDigit c = false -> forallb isDigit s = true -> without c s = true.
Proof.
  intros Hc. induction s as [| x s IH]; simpl; [reflexivity |].
  intros H. apply andb_true_iff in H as [Hx Hs].
  rewrite IH by assumption. rewrite andb_true_r.
  apply negb_true_iff. apply byte_eqb_neq. intros ->. congruence.
Qed.

(** What [%d] prints for a number that is not negative: its digits. *)
Lemma fmt_d_nonneg (z : Z) :
  (0 <= z)%Z ->
  exists u, fmt.d z = fmt.uint_bytes u /\ Z.of_uint u = z /\ u <> Decimal.Nil.
Proof.
  intros Hz. unfold fmt.d.
  pose proof (DecimalZ.of_to z) as Hof.
  destruct z as [| p | p]; [| | lia]; simpl in *.
  - exists (Decimal.D0 Decimal.Nil). repeat split; discriminate.
  - exists (Pos.to_uint p). repeat split; auto.
    apply DecimalPos.Unsigned.to_uint_nonnil.
Qed.

Lemma fmt_d_without (c : byte) (z : Z) :
  (0 <= z)%Z -> isDigit c = false -> without c (fmt.d z) = true.
Proof.
  intros Hz Hc. destruct (fmt_d_nonneg Hz) as (u & -> & _ & _).
  apply digits_without; [assumption | apply uint_bytes_digits].
Qed.

(** [Atoi] reads back what [%d] prints. *)
Lemma Atoi_fmt_d (z : Z) :
  (0 <= z <= strconv.maxInt)%Z -> strconv.Atoi (fmt.d z) = inl z.
Proof.
  intros [Hz Hmax]. destruct (fmt_d_nonneg Hz) as (u & -> & Hu & Hnil).
  unfold strconv.Atoi.
  assert (Hsign : match fmt.uint_bytes u with
                  | "-" :: s' => (true, s')
                  | "+" :: s' => (false, s')
                  | _ => (false, fmt.uint_bytes u)
                  end = (false, fmt.uint_bytes u)).
  { destruct u; reflexivity. }
  rewrite Hsign.
  assert (Hne : fmt.uint_bytes u <> []) by (destruct u; [contradiction | discriminate ..]).
  destruct (fmt.uint_bytes u) as [| x s] eqn:E; [contradiction |].
  rewrite <- E, parse_uint_bytes, Hu.
  assert (Hrange : ((strconv.minInt <=? z) && (z <=? strconv.maxInt))%Z = true).
  { apply andb_true_iff. split; apply Z.leb_le; [| exact Hmax].
    unfold strconv.minInt. lia. }
  now rewrite Hrange.
Qed.

(** ** The enhanced code at the head of a reply line *)

Lemma ParseEnhancedCode_String (c s d : Z) (text : bytes) :
  (2 <= c <= 5)%Z -> (0 <= s <= strconv.maxInt)%Z -> (0 <= d <= strconv.maxInt)%Z ->
  textproto.ParseEnhancedCode
    (smtp.EnhancedCode_String (smtp.mkEnhancedCode c s d) ++ " " :: text)
  = (c, s, d, text).
Proof.
  intros Hc Hs Hd. unfold textproto.ParseEnhancedCode, strings.SplitN2.
  unfold smtp.EnhancedCode_String. simpl smtp.Class. simpl smtp.Subject. simpl smtp.Detail.
  assert (Hc' : (0 <= c <= strconv.maxInt)%Z) by (unfold strconv.maxInt; lia).
  rewrite Cut_found.
  2:{ rewrite !without_app. simpl.
      rewrite !fmt_d_without by (try reflexivity; lia). reflexivity. }
  simpl hd.
  rewrite Split_app by (apply fmt_d_without; [lia | reflexivity]).
  simpl app.
  rewrite Split_app by (apply fmt_d_without; [lia | reflexivity]).
  rewrite Split_without by (apply fmt_d_without; [lia | reflexivity]).
  rewrite !Atoi_fmt_d by assumption.
  destruct (Z.ltb_spec c 2); [lia |].
  destruct (Z.gtb_spec c 5); [lia |].
  reflexivity.
Qed.




(** ** session.go *)

Lemma bytes_eqb_eq (a : bytes) : forall b, bytes_eqb a b = true <-> a = b.
Proof.
  induction a as [| x a IH]; intros [| y b]; simpl; split; intros Hab;
    try discriminate; try reflexivity.
  - apply andb_true_iff in Hab as [Hxy Hab].
    apply byte_eqb_eq in Hxy. apply IH in Hab. congruence.
  - injection Hab as -> ->. rewrite byte_eqb_refl. now apply IH.
Qed.

Section SessionProofs.
Import smtp smtpserver.
Context {ext : Externals} {H : Type}.
Variable srv : Server H.

Local Open Scope Z_scope.

(** What a reply with an enhanced code does to the world. *)
Lemma reply_withOutput (code : ReplyCode) (enhanced : EnhancedCode) (msg : bytes)
  (w : world H) :
  IsZero enhanced = false ->
  reply code enhanced msg w = (tt, withOutput (replyBytes code enhanced msg) w).
Proof.
  intros Hz. unfold reply, modifyS, withOutput, replyBytes. now rewrite Hz.
Qed.

(** The replies of the four handlers of the mail transaction, and of
    AUTH, to a command out of sequence. *)
Lemma handleMAIL_sequence (args : bytes) (w : world H) :
  state (sess w) <> stateGreeted ->
  exists msg, handleMAIL srv args w
    = (tt, withOutput (replyBytes ReplyBadSequence EnhancedCodeInvalidCommand msg) w).
Proof.
  intros Hst. unfold handleMAIL, bind, getS.
  destruct (state (sess w)); try contradiction; simpl;
    eexists; apply reply_withOutput; reflexivity.
Qed.

Lemma handleRCPT_sequence (args : bytes) (w : world H) :
  state (sess w) = stateNew \/ state (sess w) = stateGreeted ->
  exists msg, handleRCPT srv args w
    = (tt, withOutput (replyBytes ReplyBadSequence EnhancedCodeInvalidCommand msg) w).
Proof.
  intros Hst. unfold handleRCPT, bind, getS.
  destruct Hst as [-> | ->]; simpl; eexists; apply reply_withOutput; reflexivity.
Qed.

Lemma handleDATA_sequence (w : world H) :
  stateNum (state (sess w)) < stateNum stateRcpt ->
  exists msg, handleDATA srv w
    = (tt, withOutput (replyBytes ReplyBadSequence EnhancedCodeInvalidCommand msg) w).
Proof.
  intros Hst. unfold handleDATA, bind, getS.
  apply Z.ltb_lt in Hst. rewrite Hst.
  eexists; apply reply_withOutput; reflexivity.
Qed.

Lemma handleBDAT_sequence (args : bytes) (w : world H) :
  stateNum (state (sess w)) < stateNum stateRcpt ->
  exists msg, handleBDAT srv args w
    = (tt, withOutput (replyBytes ReplyBadSequence EnhancedCodeInvalidCommand msg) w).
Proof.
  intros Hst. unfold handleBDAT, bind, getS.
  apply Z.ltb_lt in Hst. rewrite Hst.
  eexists; apply reply_withOutput; reflexivity.
Qed.

Lemma handleAUTH_sequence (args : bytes) (w : world H) :
  authHandler srv <> None ->
  state (sess w) <> stateGreeted ->
  exists msg, handleAUTH srv args w
    = (tt, withOutput (replyBytes ReplyBadSequence EnhancedCodeInvalidCommand msg) w).
Proof.
  intros Hh Hst. unfold handleAUTH, bind, getS.
  destruct (authHandler srv); [| contradiction].
  destruct (state (sess w)); try contradiction; simpl;
    eexists; apply reply_withOutput; reflexivity.
Qed.

(** A command out of sequence is answered 503 5.5.1 and nothing else
    happens: the session, the application and the input are as they
    were, and the loop goes on. *)
Lemma dispatch_outOfSequence (verb args : bytes) (w : world H) :
  outOfSequence srv (state (sess w)) verb = true ->
  exists msg, dispatch srv verb args w
    = (false, withOutput (replyBytes 503 (mkEnhancedCode 5 5 1) msg) w).
Proof.
  unfold outOfSequence. intros Hseq.
  repeat (apply orb_true_iff in Hseq as [Hseq | Hseq]);
    repeat (apply andb_true_iff in Hseq as [Hseq ?]).
  - apply bytes_eqb_eq in Hseq. subst verb.
    destruct (@handleMAIL_sequence args w) as [msg Hm].
    { destruct (state (sess w)); discriminate. }
    exists msg. unfold dispatch, bind. simpl. rewrite Hm. reflexivity.
  - apply bytes_eqb_eq in Hseq. subst verb.
    destruct (@handleRCPT_sequence args w) as [msg Hm].
    { destruct (state (sess w)); auto; discriminate. }
    exists msg. unfold dispatch, bind. simpl. rewrite Hm. reflexivity.
  - assert (Hst : stateNum (state (sess w)) < stateNum stateRcpt).
    { destruct (state (sess w)); simpl; try lia; discriminate. }
    apply orb_true_iff in Hseq as [Hv | Hv]; apply bytes_eqb_eq in Hv; subst verb.
    + destruct (handleDATA_sequence w Hst) as [msg Hm].
      exists msg. unfold dispatch, bind. simpl. rewrite Hm. reflexivity.
    + destruct (handleBDAT_sequence args w Hst) as [msg Hm].
      exists msg. unfold dispatch, bind. simpl. rewrite Hm. reflexivity.
  - apply bytes_eqb_eq in Hseq. subst verb.
    destruct (@handleAUTH_sequence args w) as [msg Hm].
    { destruct (authHandler srv); discriminate. }
    { destruct (state (sess w)); discriminate. }
    exists msg. unfold dispatch, bind. simpl. rewrite Hm. reflexivity.
Qed.

Lemma withOutput_withOutput (a b : bytes) (w : world H) :
  withOutput b (withOutput a w) = withOutput (a ++ b) w.
Proof. unfold withOutput. simpl. now rewrite app_assoc. Qed.

Lemma withOutput_nil (w : world H) : withOutput [] w = w.
Proof.
  unfold withOutput. rewrite app_nil_r.
  destruct w as [[[rd wr] st ch es tl au ic rp fp bd] a t]. reflexivity.
Qed.

(** C3 (as amended): MAIL outside Greeted, RCPT in New and Greeted,
    DATA and BDAT in New, Greeted and Mail, and -- when the server has
    an AuthHandler -- AUTH in New, Mail and Rcpt are answered 503 with
    the enhanced code 5.5.1, and nothing else happens; EXPN is answered
    502 in every state. *)
Theorem out_of_sequence_503 (verb args : bytes) (w : world H) :
  (outOfSequence srv (state (sess w)) verb = true ->
   exists msg, dispatch srv verb args w
     = (false, withOutput (replyBytes 503 (mkEnhancedCode 5 5 1) msg) w))
  /\ dispatch srv (bs "EXPN") args w
     = (false, withOutput (replyBytes 502 (mkEnhancedCode 5 5 1) (bs "EXPN not implemented")) w).
Proof.
  split.
  - apply dispatch_outOfSequence.
  - reflexivity.
Qed.

(** C4, what the code does: commands out of sequence are answered 503
    5.5.1 one after the other; the count of invalid commands stays as it
    was, whatever their number, the loop goes on and no 421 is sent. *)
Theorem sequence_errors_not_counted (lines : list bytes) : forall w : world H,
  Forall (fun line =>
            strings.ContainsNUL line = false /\
            outOfSequence srv (state (sess w)) (fst (parseCommand line)) = true) lines ->
  exists msgs,
    length msgs = length lines /\
    handleLines srv lines w
    = (false, withOutput (concat (map (replyBytes 503 (mkEnhancedCode 5 5 1)) msgs)) w) /\
    invalidCmds (sess (snd (handleLines srv lines w))) = invalidCmds (sess w).
Proof.
  induction lines as [| line lines IH]; intros w Hall.
  - exists []. simpl. unfold ret. rewrite withOutput_nil. auto.
  - inversion Hall as [| ? ? [Hnul Hseq] Hrest]; subst.
    destruct (parseCommand line) as [verb args] eqn:Hparse. simpl in Hseq.
    destruct (@dispatch_outOfSequence verb args w Hseq) as [msg Hd].
    destruct (IH (withOutput (replyBytes 503 (mkEnhancedCode 5 5 1) msg) w))
      as (msgs & Hlen & Hrun & _).
    { exact Hrest. }
    exists (msg :: msgs). split; [simpl; now rewrite Hlen |].
    assert (Hgo : handleLines srv (line :: lines) w
                  = (false, withOutput
                       (concat (map (replyBytes 503 (mkEnhancedCode 5 5 1)) (msg :: msgs))) w)).
    { simpl. unfold bind at 1. unfold handleLine. rewrite Hnul, Hparse, Hd.
      rewrite Hrun, withOutput_withOutput. reflexivity. }
    split; [exact Hgo |]. rewrite Hgo. reflexivity.
Qed.

(** C5, what the code does: when the MailHandler answers MAIL with an
    SMTPError, the server sends one line -- the code, a space, the
    enhanced code, a space, the message as it is, CRLF -- whatever the
    message holds. *)
Theorem handler_error_one_line (args : bytes) (w : world H) (rp : ReversePath)
  (h : H -> ReversePath -> option handlerError * H) (e : SMTPError) (a' : H) :
  state (sess w) = stateGreeted ->
  submissionMode srv && negb (authenticated (sess w)) = false ->
  strings.HasPrefix (strings.ToUpper args) (bs "FROM:") = true ->
  ParseReversePath (strings.TrimSpace (fst (fst (strings.Cut (skipn 5 args) " ")))) = inl rp ->
  mailHandler srv = Some h ->
  h (app w) rp = (Some (IsSMTPError e), a') ->
  IsZero (Enhanced e) = false ->
  handleMAIL srv args w
  = (tt, withOutput
           (fmt.d (Code e) ++ bs " " ++ EnhancedCode_String (Enhanced e)
              ++ bs " " ++ Message e ++ CRLF)
           (mkWorld (sess w) a' (ticks w))).
Proof.
  intros Hst Hsub Hpre Hparse Hh Hcall Hz.
  unfold handleMAIL, bind, getS. rewrite Hst.
  remember (skipn 5 args) as tail eqn:Htail. simpl.
  rewrite Hsub, Hpre. simpl negb. cbv iota.
  destruct (strings.Cut tail " ") as [[pathStr after] found].
  simpl in Hparse. rewrite Hparse, Hh.
  unfold call. cbn [negb]. cbv beta iota. rewrite Hcall.
  unfold replyInternalError, replyError.
  rewrite reply_withOutput by assumption.
  unfold withOutput, replyBytes, textproto.WriteReply_bytes. simpl.
  unfold textproto.replyLine. rewrite app_nil_r, <- !app_assoc. reflexivity.
Qed.

(** C2, what the code does: a STARTTLS that succeeds sends 220, takes
    the TLS connection, sets the TLS flag, clears the transaction, the
    name of the client and the ESMTP flag and goes back to New; the
    authenticated flag and the count of invalid commands stay as they
    were. *)
Theorem STARTTLS_keeps_auth_and_count (w : world H) (input : bytes) :
  tlsConfig srv <> None ->
  tls (sess w) = false ->
  tls_Handshake (textproto.r (conn (sess w))) = (true, input) ->
  handleSTARTTLS srv w
  = (true,
     mkWorld
       (mkSession
          (textproto.mkConn input
             (textproto.w (conn (sess w)) ++ bs "220 Ready to start TLS" ++ CRLF))
          stateNew [] false true
          (authenticated (sess w)) (invalidCmds (sess w))
          ReversePathZero [] [])
       (match resetHandler srv with Some h => h (app w) | None => app w end)
       (ticks w)).
Proof.
  intros Hcfg Htls Hhs. unfold handleSTARTTLS.
  destruct (tlsConfig srv); [| contradiction].
  unfold bind, getS. rewrite Htls.
  unfold reply, modifyS. simpl. rewrite Hhs. simpl.
  unfold resetTransaction, bind, modifyS, call, ret.
  destruct (resetHandler srv); reflexivity.
Qed.












End SessionProofs.

(** ** base64 *)

Section Base64Proofs.
Import base64.
Local Open Scope N_scope.

(** Induction on a list, three elements at a time. *)
Lemma list_ind3 (A : Type) (P : list A -> Prop) :
  P [] -> (forall a, P [a]) -> (forall a b, P [a; b]) ->
  (forall a b c l, P l -> P (a :: b :: c :: l)) ->
  forall l, P l.
Proof.
  intros H0 H1 H2 H3 l.
  assert (Hall : P l /\ (forall a, P (a :: l)) /\ (forall a b, P (a :: b :: l))).
  { induction l as [| x l (IH0 & IH1 & IH2)]; repeat split; auto. }
  apply Hall.
Qed.

(** The 64 characters of the alphabet: each stands for its index, and
    none is the padding, CR or LF. *)
Lemma alphabet_facts (n : nat) :
  (n < 64)%nat ->
  dec6 (enc6 (N.of_nat n)) = Some (N.of_nat n)
  /\ Byte.eqb (enc6 (N.of_nat n)) "=" = false
  /\ Byte.eqb (enc6 (N.of_nat n)) CR = false
  /\ Byte.eqb (enc6 (N.of_nat n)) LF = false.
Proof.
  intros Hn.
  do 64 (destruct n as [| n]; [repeat split; vm_compute; reflexivity |]).
  lia.
Qed.

Lemma enc6_facts (v : N) :
  v < 64 ->
  dec6 (enc6 v) = Some v
  /\ Byte.eqb (enc6 v) "=" = false
  /\ Byte.eqb (enc6 v) CR = false
  /\ Byte.eqb (enc6 v) LF = false.
Proof.
  intros Hv. rewrite <- (N2Nat.id v). apply alphabet_facts. lia.
Qed.

Lemma sextet_facts (val shift : N) :
  dec6 (sextet val shift) = Some ((val / 2 ^ shift) mod 64)
  /\ Byte.eqb (sextet val shift) "=" = false
  /\ Byte.eqb (sextet val shift) CR = false
  /\ Byte.eqb (sextet val shift) LF = false.
Proof. apply enc6_facts. apply N.mod_lt. discriminate. Qed.

Lemma byteOf_to_N (b : byte) (v : N) : v mod 256 = Byte.to_N b -> byteOf v = b.
Proof. intros Hv. unfold byteOf. now rewrite Hv, Byte.of_to_N. Qed.

Ltac bytes_bounded :=
  repeat match goal with
         | b : byte |- _ =>
             lazymatch goal with
             | _ : Byte.to_N b <= 255 |- _ => fail
             | _ => pose proof (Byte.to_N_bounded b)
             end
         end.

Ltac divmod := zify; Z.to_euclidean_division_equations; lia.

(** A group of three octets comes back from its four characters. *)
Lemma group3 (b0 b1 b2 : byte) :
  let val := val3 b0 b1 b2 in
  let val' := val4 ((val / 2 ^ 18) mod 64) ((val / 2 ^ 12) mod 64)
                   ((val / 2 ^ 6) mod 64) ((val / 2 ^ 0) mod 64) in
  byteOf (val' / 65536) = b0 /\ byteOf (val' / 256) = b1 /\ byteOf val' = b2.
Proof.
  intros val val'. subst val val'. unfold val3, val4. bytes_bounded.
  change (2 ^ 18) with 262144. change (2 ^ 12) with 4096.
  change (2 ^ 6) with 64. change (2 ^ 0) with 1.
  repeat split; apply byteOf_to_N; divmod.
Qed.

Lemma group2 (b0 b1 : byte) :
  let val := val3 b0 b1 "000" in
  let val' := val4 ((val / 2 ^ 18) mod 64) ((val / 2 ^ 12) mod 64)
                   ((val / 2 ^ 6) mod 64) 0 in
  byteOf (val' / 65536) = b0 /\ byteOf (val' / 256) = b1.
Proof.
  intros val val'. subst val val'. unfold val3, val4. bytes_bounded.
  change (Byte.to_N "000") with 0.
  change (2 ^ 18) with 262144. change (2 ^ 12) with 4096. change (2 ^ 6) with 64.
  repeat split; apply byteOf_to_N; divmod.
Qed.

Lemma group1 (b0 : byte) :
  let val := val3 b0 "000" "000" in
  let val' := val4 ((val / 2 ^ 18) mod 64) ((val / 2 ^ 12) mod 64) 0 0 in
  byteOf (val' / 65536) = b0.
Proof.
  intros val val'. subst val val'. unfold val3, val4. bytes_bounded.
  change (Byte.to_N "000") with 0.
  change (2 ^ 18) with 262144. change (2 ^ 12) with 4096.
  apply byteOf_to_N; divmod.
Qed.

Lemma decodeQuanta_Encode (src : bytes) :
  decodeQuanta (EncodeToString src) = Some src.
Proof.
  induction src as [| b0 | b0 b1 | b0 b1 b2 rest IH] using list_ind3.
  - reflexivity.
  - cbn [EncodeToString decodeQuanta].
    destruct (sextet_facts (val3 b0 "000" "000") 18) as (-> & _).
    destruct (sextet_facts (val3 b0 "000" "000") 12) as (-> & _).
    change (Byte.eqb "=" "=") with true. cbv iota.
    now rewrite group1.
  - cbn [EncodeToString decodeQuanta].
    destruct (sextet_facts (val3 b0 b1 "000") 18) as (-> & _).
    destruct (sextet_facts (val3 b0 b1 "000") 12) as (-> & _).
    destruct (sextet_facts (val3 b0 b1 "000") 6) as (-> & -> & _).
    change (Byte.eqb "=" "=") with true. cbv iota.
    destruct (group2 b0 b1) as [-> ->]. reflexivity.
  - cbn [EncodeToString decodeQuanta].
    destruct (sextet_facts (val3 b0 b1 b2) 18) as (-> & _).
    destruct (sextet_facts (val3 b0 b1 b2) 12) as (-> & _).
    destruct (sextet_facts (val3 b0 b1 b2) 6) as (-> & -> & _).
    destruct (sextet_facts (val3 b0 b1 b2) 0) as (-> & -> & _).
    rewrite IH.
    destruct (group3 b0 b1 b2) as (-> & -> & ->). reflexivity.
Qed.

Lemma Encode_no_newline (src : bytes) :
  filter (fun c => negb (Byte.eqb c CR || Byte.eqb c LF)) (EncodeToString src)
  = EncodeToString src.
Proof.
  induction src as [| b0 | b0 b1 | b0 b1 b2 rest IH] using list_ind3;
    cbn [EncodeToString filter].
  - reflexivity.
  - destruct (sextet_facts (val3 b0 "000" "000") 18) as (_ & _ & -> & ->).
    destruct (sextet_facts (val3 b0 "000" "000") 12) as (_ & _ & -> & ->).
    reflexivity.
  - destruct (sextet_facts (val3 b0 b1 "000") 18) as (_ & _ & -> & ->).
    destruct (sextet_facts (val3 b0 b1 "000") 12) as (_ & _ & -> & ->).
    destruct (sextet_facts (val3 b0 b1 "000") 6) as (_ & _ & -> & ->).
    reflexivity.
  - destruct (sextet_facts (val3 b0 b1 b2) 18) as (_ & _ & -> & ->).
    destruct (sextet_facts (val3 b0 b1 b2) 12) as (_ & _ & -> & ->).
    destruct (sextet_facts (val3 b0 b1 b2) 6) as (_ & _ & -> & ->).
    destruct (sextet_facts (val3 b0 b1 b2) 0) as (_ & _ & -> & ->).
    cbn [orb negb]. now rewrite IH.
Qed.

(** Decoding what was encoded gives the octets back. *)
Lemma DecodeString_EncodeToString (src : bytes) :
  DecodeString (EncodeToString src) = Some src.
Proof.
  unfold DecodeString. rewrite Encode_no_newline. apply decodeQuanta_Encode.
Qed.


End Base64Proofs.

(** ** SASL PLAIN, from the client to the server *)

Section PlainProofs.
Import smtp smtpserver.
Context {ext : Externals} {H : Type}.





End PlainProofs.

(** ** The properties at work on examples *)

Section Examples.
Import smtp smtpserver textproto_dot.
Local Existing Instance sampleExternals.

Lemma dot_roundtrip_canonical_witness :
  ReadAll (fun _ => 512) 16 (newDotReader (DotWriter_wire (bs ".leading" ++ CRLF))) []
  = Some (canonical (bs ".leading" ++ CRLF), None, {| r := []; state := dotStateEOF |}).
Proof.
  apply (@dot_roundtrip_canonical (fun _ => 512) 16 (bs ".leading" ++ CRLF)).
  - intros n. lia.
  - vm_compute. lia.
Defined.

(** C1 as the specification words it fails: the empty message comes
    back empty, and a message that ends with a bare LF comes back as it
    is; neither ends with CRLF, and neither has CRLF appended. *)
Lemma dot_roundtrip_crlf_counterexample :
  ReadAll (fun _ => 512) 3 (newDotReader (DotWriter_wire [])) []
  = Some ([], None, {| r := []; state := dotStateEOF |})
  /\ canonical_crlf [] = CRLF
  /\ ReadAll (fun _ => 512) 5 (newDotReader (DotWriter_wire (bs "a" ++ [LF]))) []
     = Some (bs "a" ++ [LF], None, {| r := []; state := dotStateEOF |})
  /\ canonical_crlf (bs "a" ++ [LF]) = bs "a" ++ [LF] ++ CRLF.
Proof. repeat split; vm_compute; reflexivity. Qed.

(** C6, what the code does: in the state DotCR with room for one octet
    only, an octet other than LF makes the reader deliver the dot alone
    and go to the state Line with that octet unread: the CR is neither
    delivered nor kept, so it is lost. *)
Theorem DotCR_one_slot_drops_CR (b : byte) (rest : bytes) :
  b <> LF ->
  Read {| r := b :: rest; state := dotStateDotCR |} 1
  = (["."], None, {| r := b :: rest; state := dotStateLine |}).
Proof.
  intros Hb. apply byte_eqb_neq in Hb.
  unfold Read. simpl. now rewrite Hb.
Qed.

Lemma DotCR_one_slot_drops_CR_witness :
  Read {| r := bs "X" ++ CRLF ++ bs "." ++ CRLF; state := dotStateDotCR |} 1
  = (["."], None, {| r := bs "X" ++ CRLF ++ bs "." ++ CRLF; state := dotStateLine |}).
Proof.
  apply (@DotCR_one_slot_drops_CR "X" (CRLF ++ bs "." ++ CRLF)).
  discriminate.
Defined.

(** The same body read with buffers of one octet and with a large
    buffer: the CR after the dot is missing from the first. *)
Lemma DotCR_body_depends_on_buffer :
  ReadAll (fun _ => 1) 12 (newDotReader (bs "." ++ [CR] ++ bs "X" ++ CRLF ++ bs "." ++ CRLF)) []
  = Some (bs ".X" ++ CRLF, None, {| r := []; state := dotStateEOF |})
  /\ ReadAll (fun _ => 512) 12 (newDotReader (bs "." ++ [CR] ++ bs "X" ++ CRLF ++ bs "." ++ CRLF)) []
     = Some (bs "." ++ [CR] ++ bs "X" ++ CRLF, None, {| r := []; state := dotStateEOF |}).
Proof. split; vm_compute; reflexivity. Qed.

Lemma out_of_sequence_503_witness :
  (exists msg,
      dispatch sampleServer (bs "MAIL") (bs "FROM:<>") (sampleWorld stateNew [])
      = (false, withOutput (replyBytes 503%Z (mkEnhancedCode 5 5 1)%Z msg)
                  (sampleWorld stateNew [])))
  /\ dispatch sampleServer (bs "EXPN") (bs "list") (sampleWorld stateMail [])
     = (false, withOutput (bs "502 5.5.1 EXPN not implemented" ++ CRLF)
                 (sampleWorld stateMail [])).
Proof.
  split.
  - apply (proj1 (@out_of_sequence_503 sampleExternals unit sampleServer
                    (bs "MAIL") (bs "FROM:<>") (sampleWorld stateNew []))).
    reflexivity.
  - apply (proj2 (@out_of_sequence_503 sampleExternals unit sampleServer
                    (bs "MAIL") (bs "list") (sampleWorld stateMail []))).
Defined.

(** C3 as the specification words it fails: EXPN is not in the allowed
    set of the state New, and it is answered 502, not 503. *)
Lemma EXPN_in_New_counterexample :
  handleLine sampleServer (bs "EXPN staff") (sampleWorld stateNew [])
  = (false, withOutput (bs "502 5.5.1 EXPN not implemented" ++ CRLF)
              (sampleWorld stateNew [])).
Proof. vm_compute. reflexivity. Qed.

Lemma sequence_errors_not_counted_witness :
  exists msgs,
    length msgs = 3 /\
    handleLines sampleServer (repeat (bs "MAIL FROM:<a@b>") 3) (sampleWorld stateNew [])
    = (false, withOutput (concat (map (replyBytes 503%Z (mkEnhancedCode 5 5 1)%Z) msgs))
                (sampleWorld stateNew [])) /\
    invalidCmds (sess (snd (handleLines sampleServer (repeat (bs "MAIL FROM:<a@b>") 3)
                              (sampleWorld stateNew []))))
    = invalidCmds (sess (sampleWorld stateNew [])).
Proof.
  apply (@sequence_errors_not_counted sampleExternals unit sampleServer
           (repeat (bs "MAIL FROM:<a@b>") 3) (sampleWorld stateNew [])).
  repeat constructor.
Defined.

(** Three MAIL commands before EHLO with a limit of three invalid
    commands: three replies 503, no 421, nothing counted, the loop goes
    on. *)
Lemma sequence_errors_no_disconnect :
  maxInvalidCmds sampleServer = 3%Z
  /\ commandLoop sampleServer 3 (sampleWorld stateNew (stream (repeat (bs "MAIL FROM:<a@b>") 3)))
     = (false,
        withOutput (bs "503 5.5.1 Send EHLO/HELO first" ++ CRLF
                    ++ bs "503 5.5.1 Send EHLO/HELO first" ++ CRLF
                    ++ bs "503 5.5.1 Send EHLO/HELO first" ++ CRLF)
          (sampleWorld stateNew [])).
Proof. split; vm_compute; reflexivity. Qed.

Lemma handler_error_one_line_witness :
  handleMAIL sampleServer (bs "FROM:<>") (sampleWorld stateGreeted [])
  = (tt, withOutput
           (fmt.d (Code policyError) ++ bs " " ++ EnhancedCode_String (Enhanced policyError)
              ++ bs " " ++ Message policyError ++ CRLF)
           (mkWorld (sess (sampleWorld stateGreeted [])) tt 0)).
Proof.
  apply (@handler_error_one_line sampleExternals unit sampleServer (bs "FROM:<>")
           (sampleWorld stateGreeted []) (mkReversePath MailboxZero true)
           sampleOnMail policyError tt); reflexivity.
Defined.

(** What the server sends for the error of the MailHandler, and what
    [WireLines] makes of the same error. *)
Lemma handler_error_not_WireLines :
  textproto.w (conn (sess (snd (handleLine sampleServer (bs "MAIL FROM:<>")
                                  (sampleWorld stateGreeted [])))))
  = bs "550 5.7.1 line one" ++ [LF] ++ bs "line two" ++ CRLF
  /\ WireLines policyError
     = bs "550-5.7.1 line one" ++ CRLF ++ bs "550 5.7.1 line two" ++ CRLF.
Proof. split; vm_compute; reflexivity. Qed.

Lemma STARTTLS_keeps_auth_and_count_witness :
  handleSTARTTLS sampleServer (mkWorld authenticatedSession tt 0)
  = (true,
     mkWorld
       (mkSession (textproto.mkConn [] (bs "220 Ready to start TLS" ++ CRLF))
                  stateNew [] false true true 2%Z ReversePathZero [] [])
       tt 0).
Proof.
  apply (@STARTTLS_keeps_auth_and_count sampleExternals unit sampleServer
           (mkWorld authenticatedSession tt 0) []); try reflexivity.
  discriminate.
Defined.


(** What the client sees in that session. *)
Lemma invalid_command_cap_wire :
  textproto.w (conn (sess (snd (commandLoop sampleServer 5
     (sampleWorld stateNew (stream threeInvalid ++ bs "NOOP" ++ CRLF))))))
  = bs "500 5.5.1 Command not recognized" ++ CRLF
    ++ bs "500 5.5.1 NUL not allowed in commands" ++ CRLF
    ++ bs "500 5.5.1 Command not recognized" ++ CRLF
    ++ bs "421 4.4.0 Too many errors, closing connection" ++ CRLF.
Proof. vm_compute. reflexivity. Qed.

End Examples.

(** * Part III: further properties of the codec, the parsers and the session *)

(** ** splitNull *)

Section SplitNullProofs.
Import smtpserver.

Lemma splitNull_loop_cons (data : bytes) : forall cur,
  exists p ps, splitNull_loop data cur = p :: ps.
Proof.
  induction data as [| b data IH]; intros cur; simpl.
  - eauto.
  - destruct (Byte.eqb b NUL); eauto.
Qed.

Lemma splitNull_loop_Join (data : bytes) : forall cur,
  strings.Join (splitNull_loop data cur) [NUL] = cur ++ data.
Proof.
  induction data as [| b data IH]; intros cur; simpl.
  - now rewrite app_nil_r.
  - byte_cases b NUL.
    + destruct (splitNull_loop_cons data []) as (p & ps & E0).
      specialize (IH []). rewrite E0 in *. 
      change (strings.Join (cur :: p :: ps) [NUL])
        with (cur ++ [NUL] ++ strings.Join (p :: ps) [NUL]).
      rewrite IH. reflexivity.
    + rewrite IH, <- app_assoc. reflexivity.
Qed.

Lemma splitNull_loop_without (data : bytes) : forall cur,
  without NUL cur = true ->
  Forall (fun p => without NUL p = true) (splitNull_loop data cur).
Proof.
  induction data as [| b data IH]; intros cur Hcur; simpl.
  - constructor; auto.
  - destruct (Byte.eqb b NUL) eqn:E.
    + constructor; auto.
    + apply IH. rewrite without_app, Hcur. simpl. now rewrite E.
Qed.

Lemma splitNull_loop_length (data : bytes) : forall cur,
  length (splitNull_loop data cur)
  = S (length (filter (fun b => Byte.eqb b NUL) data)).
Proof.
  induction data as [| b data IH]; intros cur; simpl; [reflexivity |].
  destruct (Byte.eqb b NUL); simpl; now rewrite IH.
Qed.

(** X23: the parts [splitNull] cuts [data] into hold no NUL, there is one
    more of them than there are NULs in [data], and joining them with
    NUL gives [data] back. *)
Theorem splitNull_Join (data : bytes) :
  strings.Join (splitNull data) [NUL] = data
  /\ Forall (fun p => without NUL p = true) (splitNull data)
  /\ length (splitNull data) = S (length (filter (fun b => Byte.eqb b NUL) data)).
Proof.
  unfold splitNull. split; [| split].
  - apply splitNull_loop_Join.
  - now apply splitNull_loop_without.
  - apply splitNull_loop_length.
Qed.

End SplitNullProofs.

(** ** dot.go: the writer *)

Section DotWriterProofs.
Import textproto_dot.

(** The operations of a dotWriter. *)
Lemma Write_open (d : dotWriter) (p : bytes) :
  closed d = false ->
  Write d p = ((length p, None),
               {| w := w d ++ stuffed (beginLine d) p;
                  beginLine := flagAfter (beginLine d) p;
                  closed := false |}).
Proof.
  intros Hc. unfold Write. rewrite Hc, Write_loop_stuffed. reflexivity.
Qed.

Lemma Write_chunks_open (chunks : list bytes) : forall d,
  closed d = false ->
  fold_left (fun d p => snd (Write d p)) chunks d
  = {| w := w d ++ stuffed (beginLine d) (concat chunks);
       beginLine := flagAfter (beginLine d) (concat chunks);
       closed := false |}.
Proof.
  induction chunks as [| p chunks IH]; intros d Hc; simpl.
  - rewrite app_nil_r. destruct d; simpl in *; now subst.
  - rewrite Write_open by assumption. simpl.
    rewrite IH by reflexivity. simpl.
    now rewrite stuffed_app, flagAfter_app, app_assoc.
Qed.

(** X20: writing a message in pieces, whatever the pieces, sends what
    writing it at once sends: after [Close] the wire holds the same
    octets, with the same dots doubled and the same terminator. *)
Theorem Write_chunks (chunks : list bytes) :
  w (snd (Close (fold_left (fun d p => snd (Write d p)) chunks (newDotWriter []))))
  = DotWriter_wire (concat chunks).
Proof.
  unfold DotWriter_wire.
  rewrite Write_chunks_open by reflexivity.
  rewrite Write_open by reflexivity. reflexivity.
Qed.

End DotWriterProofs.

(** ** Reply code classes *)

Section ReplyCodeProofs.
Import smtp.
Local Open Scope Z_scope.

(** X24: the class predicates of a reply code are ranges: positive is 200
    to 399, transient 400 to 499, permanent 500 to 599; a code outside
    200 to 599 (a negative one too) is in none of them.  An error is
    temporary exactly when its code is from 400 to 499. *)
Theorem ReplyCode_classes (e : SMTPError) :
  let c := Code e in
  (IsPositive c = true <-> 200 <= c <= 399)
  /\ (IsTransient c = true <-> 400 <= c <= 499)
  /\ (IsPermanent c = true <-> 500 <= c <= 599)
  /\ (Temporary e = true <-> 400 <= c <= 499).
Proof.
  destruct e as [c enh msg]. cbv zeta.
  unfold Temporary. cbn [Code].
  unfold IsPositive, IsTransient, IsPermanent, ReplyCode_Class,
    ClassPositiveCompletion, ClassPositiveIntermediate, ClassTransientNegative,
    ClassPermanentNegative.
  cbv zeta. rewrite orb_true_iff, !Z.eqb_eq.
  repeat split; intros;
    repeat match goal with Hx : _ /\ _ |- _ => destruct Hx | Hx : _ \/ _ |- _ => destruct Hx end;
    Z.to_euclidean_division_equations; lia.
Qed.

End ReplyCodeProofs.

(** ** conn.go: what ReadLine returns *)

Section ReadLineSound.
Import textproto.

Lemma split_LF_Some (n : nat) : forall s line rest,
  split_LF n s = Some (line, rest) ->
  exists body, line = body ++ [LF] /\ noLF body = true /\ s = line ++ rest.
Proof.
  induction n as [| n IH]; intros s line rest; [discriminate |].
  destruct s as [| b s]; [discriminate |]. simpl.
  byte_cases b LF.
  - intros [= <- <-]. exists []. auto.
  - destruct (split_LF n s) as [[l r] |] eqn:E0; [| discriminate].
    intros [= <- <-]. destruct (IH _ _ _ E0) as (body & -> & Hno & ->).
    exists (b :: body). simpl. rewrite E, Hno. auto.
Qed.

Lemma split_LF_None (n : nat) : forall s,
  split_LF n s = None -> noLF (firstn n s) = true.
Proof.
  induction n as [| n IH]; intros s; [reflexivity |].
  destruct s as [| b s]; [reflexivity |]. simpl.
  destruct (Byte.eqb b LF); [discriminate |].
  destruct (split_LF n s) as [[l r] |] eqn:E0; [discriminate |].
  intros _. simpl. now apply IH.
Qed.

Lemma noLF_unsnoc (s s' : bytes) (c : byte) :
  noLF s = true -> unsnoc s = Some (s', c) -> noLF s' = true /\ Byte.eqb c LF = false.
Proof.
  intros Hno Hu. apply unsnoc_Some in Hu. subst s.
  rewrite noLF_app in Hno. apply andb_true_iff in Hno as [H1 H2].
  split; [exact H1 |]. simpl in H2. rewrite andb_true_r in H2.
  now apply negb_true_iff.
Qed.

(** The ways a line ends: CRLF, a bare LF, or the end of the stream. *)
Lemma bufio_ReadLine_sound (size : nat) (s chunk rest : bytes) (isPrefix : bool) :
  2 <= size ->
  bufio_ReadLine size s = (chunk, isPrefix, None, rest) ->
  noLF chunk = true /\
  if isPrefix then s = chunk ++ rest /\ length rest < length s
  else exists term, s = chunk ++ term ++ rest /\
         (term = CRLF \/ term = [LF] \/ (term = [] /\ rest = [])).
Proof.
  intros Hsize Hrl.
  destruct isPrefix.
  { pose proof (bufio_ReadLine_progress _ Hsize Hrl) as Hprog.
    revert Hrl. unfold bufio_ReadLine, bufio_ReadSlice.
    destruct (split_LF size s) as [[line r] |] eqn:E.
    - destruct (unsnoc line) as [[l1 c] |]; [| intros [=]].
      destruct (Byte.eqb c LF); [| intros [=]].
      destruct (unsnoc l1) as [[l2 c2] |]; [| intros [=]].
      destruct (Byte.eqb c2 CR); intros [=].
    - apply split_LF_None in E.
      destruct (Nat.leb_spec size (length s)) as [Hle | Hgt].
      + destruct (unsnoc (firstn size s)) as [[l c] |] eqn:Eu.
        * pose proof (unsnoc_Some _ Eu) as Hf.
          assert (Hl : noLF l = true).
          { rewrite Hf, noLF_app in E. now apply andb_true_iff in E as [? _]. }
          byte_cases c CR; intros [= <- <-].
          -- repeat split; auto.
             rewrite <- (firstn_skipn size s) at 1. rewrite Hf, <- app_assoc. reflexivity.
          -- repeat split; auto. now rewrite firstn_skipn.
        * intros [= <- <-]. repeat split; auto. now rewrite firstn_skipn.
      + destruct (unsnoc s) as [[l1 c] |]; [| intros [=]].
        destruct (Byte.eqb c LF); [| intros [=]].
        destruct (unsnoc l1) as [[l2 c2] |]; [| intros [=]].
        destruct (Byte.eqb c2 CR); intros [=]. }
  revert Hrl. unfold bufio_ReadLine, bufio_ReadSlice.
  destruct (split_LF size s) as [[line r] |] eqn:E.
  - destruct (split_LF_Some _ _ E) as (body & -> & Hno & ->).
    rewrite unsnoc_snoc, byte_eqb_refl.
    destruct (unsnoc body) as [[l2 c2] |] eqn:Eu.
    + pose proof (unsnoc_Some _ Eu) as Hb.
      byte_cases c2 CR; intros [= <- <-].
      * split.
        -- rewrite Hb, noLF_app in Hno. now apply andb_true_iff in Hno as [? _].
        -- exists CRLF. split; [| auto]. rewrite Hb, <- !app_assoc. reflexivity.
      * split; [exact Hno |]. exists [LF]. split; [| auto].
        now rewrite <- app_assoc.
    + intros [= <- <-]. split; [exact Hno |]. exists [LF]. split; [| auto].
      now rewrite <- app_assoc.
  - apply split_LF_None in E.
    destruct (Nat.leb_spec size (length s)) as [Hle | Hgt].
    + destruct (unsnoc (firstn size s)) as [[l c] |].
      * destruct (Byte.eqb c CR); intros [=].
      * intros [=].
    + rewrite firstn_all2 in E by lia.
      destruct (unsnoc s) as [[l1 c] |] eqn:Eu; [| intros [=]].
      destruct (noLF_unsnoc _ E Eu) as [_ Hc]. rewrite Hc.
      intros [= <- <-]. split; [exact E |].
      exists []. split; [now rewrite app_nil_r | auto].
Qed.

Lemma ReadLine_loop_sound (size : nat) (Hsize : 2 <= size) (maxLen : Z) :
  forall fuel line s out rest,
    ReadLine_loop fuel size maxLen line s = Some (inl out, rest) ->
    exists chunks term,
      out = line ++ chunks /\ s = chunks ++ term ++ rest /\ noLF chunks = true /\
      (term = CRLF \/ term = [LF] \/ (term = [] /\ rest = [])) /\
      (Z.of_nat (length out) + 2 <= maxLen)%Z /\
      (term = [] -> chunks <> []).
Proof.
  induction fuel as [| fuel IH]; intros line s out rest; [discriminate |].
  simpl.
  destruct (bufio_ReadLine size s) as [[[chunk isPrefix] err] r1] eqn:E.
  destruct err as [e |]; [discriminate |].
  destruct (bufio_ReadLine_sound _ Hsize E) as [Hno Hs].
  destruct isPrefix; simpl negb; cbv iota.
  - destruct Hs as [-> Hlen].
    destruct (Z.of_nat (length (line ++ chunk)) >? maxLen)%Z.
    + destruct (drainLine fuel size true r1); discriminate.
    + intros Hl. destruct (IH _ _ _ _ Hl)
        as (chunks & term & -> & -> & Hno' & Hterm & Hbound & Hne).
      exists (chunk ++ chunks), term.
      rewrite <- !app_assoc in *.
      split; [reflexivity |]. split; [reflexivity |].
      split; [rewrite noLF_app, Hno, Hno'; reflexivity |].
      split; [exact Hterm |]. split; [exact Hbound |].
      intros Ht. specialize (Hne Ht). destruct chunk; [assumption | discriminate].
  - destruct Hs as (term & -> & Hterm).
    destruct (Z.gtb_spec (Z.of_nat (length (line ++ chunk))) (maxLen - 2)) as [Hgt | Hle];
      [discriminate |].
    intros [= <- <-]. exists chunk, term.
    split; [reflexivity |]. split; [reflexivity |]. split; [exact Hno |].
    split; [exact Hterm |]. split; [lia |].
    intros ->. destruct Hterm as [[=] | [[=] | [_ ->]]].
    rewrite !app_nil_r in E.
    destruct chunk; [| discriminate].
    (* an empty stream gives io.EOF, not an empty line *)
    unfold bufio_ReadLine, bufio_ReadSlice in E.
    destruct size; [lia |]. simpl in E. discriminate.
Qed.

Lemma ReadLine_returns (maxLen : Z) (s line rest : bytes) :
  ReadLine maxLen s = (inl line, rest) ->
  exists term,
    s = line ++ term ++ rest /\
    (term = CRLF \/ term = [LF] \/ (term = [] /\ rest = [] /\ line <> [])) /\
    noLF line = true /\
    (Z.of_nat (length line) + 2 <= maxLen)%Z.
Proof.
  unfold ReadLine.
  destruct (ReadLine_loop (S (length s)) bufSize maxLen [] s) as [[res r1] |] eqn:E;
    [| discriminate].
  intros [= -> ->].
  destruct (@ReadLine_loop_sound bufSize ltac:(unfold bufSize; lia) maxLen _ _ _ _ _ E)
    as (chunks & term & -> & -> & Hno & Hterm & Hbound & Hne).
  exists term. simpl.
  split; [reflexivity |]. split; [| split; [exact Hno | exact Hbound]].
  destruct Hterm as [? | [? | [-> ->]]]; auto.
  right; right. split; [reflexivity |]. split; [reflexivity |]. now apply Hne.
Qed.

(** X6: a line that [ReadLine(maxLen)] returns is a prefix of the stream,
    holds no LF, is followed there by CRLF, by a bare LF or by the end
    of the stream, and is not longer than [maxLen - 2]; what is left of
    the stream is what follows the terminator. *)
Theorem ReadLine_sound (maxLen : Z) (s line rest : bytes) :
  ReadLine maxLen s = (inl line, rest) ->
  exists term,
    s = line ++ term ++ rest /\
    (term = CRLF \/ term = [LF] \/ (term = [] /\ rest = [] /\ line <> [])) /\
    noLF line = true /\
    (Z.of_nat (length line) + 2 <= maxLen)%Z.
Proof. exact (@ReadLine_returns maxLen s line rest). Qed.

(** Reading a line consumes input. *)
Lemma ReadLine_progress (maxLen : Z) (s line rest : bytes) :
  ReadLine maxLen s = (inl line, rest) -> length rest < length s.
Proof.
  intros Hr. destruct (ReadLine_returns _ _ Hr) as (term & -> & Hterm & _ & _).
  rewrite !length_app.
  destruct Hterm as [-> | [-> | (-> & -> & Hne)]]; simpl; try lia.
  destruct line; [contradiction | simpl; lia].
Qed.

End ReadLineSound.

(** ** conn.go: replies written and read back *)

Section ReplyProofs.
Import textproto.
Local Open Scope Z_scope.

(** A line followed by CRLF is read back as it is. *)
Lemma ReadLine_CRLF (maxLen : Z) (line rest : bytes) :
  noLF line = true -> Z.of_nat (length line) + 2 <= maxLen ->
  ReadLine maxLen (line ++ CRLF ++ rest) = (inl line, rest).
Proof.
  intros Hno Hlen.
  replace (line ++ CRLF ++ rest) with ((line ++ [CR]) ++ LF :: rest)
    by (unfold CRLF; now rewrite <- !app_assoc).
  destruct (@ReadLine_line maxLen (line ++ [CR]) rest) as (res & -> & Hcond).
  { rewrite noLF_app, Hno. reflexivity. }
  rewrite stripCR_snoc, byte_eqb_refl in Hcond.
  apply Z.leb_le in Hlen. rewrite Hlen in Hcond. now subst res.
Qed.

(** A reply code of three digits is printed with three octets. *)
Lemma fmt_d_three (code : Z) :
  100 <= code <= 999 -> exists a b c, fmt.d code = [a; b; c].
Proof.
  intros Hc.
  assert (Hall : forallb (fun k => (length (fmt.d (Z.of_nat k + 100)) =? 3)%nat)
                         (seq 0 900) = true) by (vm_compute; reflexivity).
  rewrite forallb_forall in Hall.
  specialize (Hall (Z.to_nat (code - 100))).
  replace (Z.of_nat (Z.to_nat (code - 100)) + 100) with code in Hall by lia.
  assert (Hin : In (Z.to_nat (code - 100)) (seq 0 900)) by (apply in_seq; lia).
  apply Hall in Hin. apply Nat.eqb_eq in Hin.
  destruct (fmt.d code) as [| a [| b [| c [| x l]]]]; try discriminate.
  eauto.
Qed.

(** One line of a reply, read by one turn of the loop of [ReadReply]. *)
Lemma ReadReply_loop_line (code : Z) (sep : byte) (line rest : bytes)
  (fuel : nat) (acc : list bytes) :
  100 <= code <= 999 -> Byte.eqb sep LF = false -> noLF line = true ->
  Z.of_nat (length line) + 6 <= MaxReplyLineLen ->
  ReadReply_loop (S fuel) acc (replyLine code sep line ++ rest)
  = if Byte.eqb sep "-" then ReadReply_loop fuel (acc ++ [line]) rest
    else if Byte.eqb sep " " then Some (inl (mkReply code (acc ++ [line])), rest)
    else Some (inr (ErrInvalidReplySeparator sep), rest).
Proof.
  intros Hc Esep Hno Hlen. unfold replyLine.
  destruct (fmt_d_three Hc) as (a & b & c & Hd).
  assert (Hat : strconv.Atoi [a; b; c] = inl code).
  { rewrite <- Hd. apply Atoi_fmt_d. unfold strconv.maxInt. lia. }
  assert (Hdig : noLF [a; b; c] = true).
  { rewrite <- Hd. apply fmt_d_without; [lia | reflexivity]. }
  rewrite Hd. cbn [ReadReply_loop].
  replace (([a; b; c] ++ [sep] ++ line ++ CRLF) ++ rest)
    with ((a :: b :: c :: sep :: line) ++ CRLF ++ rest)
    by (simpl; now rewrite <- !app_assoc).
  rewrite ReadLine_CRLF.
  - cbn [length Nat.ltb Nat.leb firstn skipn]. rewrite Hat. reflexivity.
  - simpl. rewrite Esep. simpl in Hdig. rewrite !andb_true_iff in Hdig.
    destruct Hdig as (-> & -> & -> & _). exact Hno.
  - simpl length. unfold MaxReplyLineLen in *. lia.
Qed.

Lemma ReadReply_loop_WriteReply (code : Z) (Hc : 100 <= code <= 999) :
  forall lines acc fuel rest,
    lines <> [] -> Forall replyLineOK lines -> (length lines <= fuel)%nat ->
    ReadReply_loop fuel acc (WriteReply_loop code lines ++ rest)
    = Some (inl (mkReply code (acc ++ lines)), rest).
Proof.
  induction lines as [| line lines IH]; intros acc fuel rest Hne Hok Hfuel;
    [contradiction |].
  destruct fuel as [| fuel]; [simpl in Hfuel; lia |].
  pose proof (Forall_inv Hok) as [Hno Hlen].
  pose proof (Forall_inv_tail Hok) as Hok'.
  cbn [WriteReply_loop]. rewrite <- app_assoc.
  rewrite ReadReply_loop_line by (try assumption; now destruct lines).
  destruct lines as [| l2 lines].
  - reflexivity.
  - cbn [Byte.eqb]. change (Byte.eqb "-" "-") with true. cbv iota.
    rewrite IH; [| discriminate | assumption | simpl in *; lia].
    now rewrite <- app_assoc.
Qed.

Lemma WriteReply_loop_length (code : Z) (lines : list bytes) :
  (length lines <= length (WriteReply_loop code lines))%nat.
Proof.
  induction lines as [| line lines IH]; [reflexivity |].
  cbn [WriteReply_loop]. unfold replyLine, CRLF.
  rewrite !length_app. simpl. lia.
Qed.

(** The loop of [ReadReply] ends: every line read consumes input. *)
Lemma ReadReply_loop_total : forall fuel lines s,
  (length s < fuel)%nat -> ReadReply_loop fuel lines s <> None.
Proof.
  induction fuel as [| fuel IH]; intros lines s Hlt; [lia |].
  cbn [ReadReply_loop].
  destruct (ReadLine MaxReplyLineLen s) as [[line | e] rest] eqn:E; [| discriminate].
  apply ReadLine_progress in E.
  destruct (length line <? 3)%nat; [discriminate |].
  destruct (strconv.Atoi (firstn 3 line)); [| discriminate].
  destruct (skipn 3 line) as [| sep text]; [discriminate |].
  destruct (Byte.eqb sep "-"); [apply IH; lia |].
  destruct (Byte.eqb sep " "); discriminate.
Qed.

Lemma ReadReply_of_WriteReply (code : Z) (lines : list bytes) (rest : bytes) :
  100 <= code <= 999 ->
  Forall replyLineOK lines ->
  ReadReply (WriteReply_bytes code lines ++ rest)
  = (inl (mkReply code (match lines with [] => [[]] | _ => lines end)), rest).
Proof.
  intros Hc Hok. unfold ReadReply, WriteReply_bytes.
  set (ls := match lines with [] => [[]] | _ => lines end).
  assert (Hne : ls <> []) by (subst ls; destruct lines; discriminate).
  assert (Hok' : Forall replyLineOK ls).
  { subst ls. destruct lines; [| assumption].
    constructor; [| constructor]. split; [reflexivity |]. unfold MaxReplyLineLen. cbn [length]. lia. }
  rewrite ReadReply_loop_WriteReply; auto.
  rewrite length_app.
  eapply Nat.le_trans; [apply (WriteReply_loop_length code) |].
  apply le_S, Nat.le_add_r.
Qed.

(** X7: a reply with a code of three digits, whose lines hold no LF and
    fit the limit of [ReadReply], is read back as it was written: the
    same code, the same lines (one empty line when none was given), and
    what follows the reply is left in the stream. *)
Theorem ReadReply_WriteReply (code : Z) (lines : list bytes) (rest : bytes) :
  100 <= code <= 999 ->
  Forall replyLineOK lines ->
  ReadReply (WriteReply_bytes code lines ++ rest)
  = (inl (mkReply code (match lines with [] => [[]] | _ => lines end)), rest).
Proof. exact (@ReadReply_of_WriteReply code lines rest). Qed.

(** [WireLines] sends what [WriteReply] sends for the lines of the
    message, each one after the enhanced code. *)
Lemma WireLines_loop_WriteReply (code : Z) (enh : smtp.EnhancedCode) (lines : list bytes) :
  smtp.WireLines_loop code enh lines
  = WriteReply_loop code
      (map (fun line => (if negb (smtp.IsZero enh)
                         then smtp.EnhancedCode_String enh ++ [" "] else []) ++ line)
           lines).
Proof.
  induction lines as [| line lines IH]; [reflexivity |].
  cbn [smtp.WireLines_loop map WriteReply_loop]. rewrite IH. unfold replyLine.
  destruct lines; cbn [map]; now rewrite <- !app_assoc.
Qed.

(** X9: an error with a code of three digits, an enhanced code of a class
    from 2 to 5 and a message of one line, sent as [WireLines] formats
    it, is the error the client makes of the reply it reads. *)
Theorem WireLines_replyToError (e : smtp.SMTPError) (rest : bytes) :
  100 <= smtp.Code e <= 999 ->
  2 <= smtp.Class (smtp.Enhanced e) <= 5 ->
  0 <= smtp.Subject (smtp.Enhanced e) <= strconv.maxInt ->
  0 <= smtp.Detail (smtp.Enhanced e) <= strconv.maxInt ->
  smtp.Message e <> [] -> noLF (smtp.Message e) = true ->
  Z.of_nat (length (smtp.EnhancedCode_String (smtp.Enhanced e)) + length (smtp.Message e)) + 7
    <= MaxReplyLineLen ->
  exists reply,
    ReadReply (smtp.WireLines e ++ rest) = (inl reply, rest) /\
    smtpclient.replyToError reply = e.
Proof.
  destruct e as [code [c s d] msg]. cbn [smtp.Code smtp.Enhanced smtp.Message
    smtp.Class smtp.Subject smtp.Detail].
  intros Hcode Hc Hs Hd Hne Hno Hlen.
  unfold smtp.WireLines. cbn [smtp.Code smtp.Enhanced smtp.Message].
  destruct msg as [| m0 msg']; [contradiction |]. cbv iota.
  remember (m0 :: msg') as msg eqn:Emsg. clear Emsg Hne.
  rewrite Split_without by exact Hno.
  rewrite WireLines_loop_WriteReply.
  assert (Hnz : smtp.IsZero (smtp.mkEnhancedCode c s d) = false).
  { unfold smtp.IsZero. cbn [smtp.Class]. 
    assert (E : (c =? 0) = false) by (apply Z.eqb_neq; lia). now rewrite E. }
  rewrite Hnz. cbn [negb map].
  set (line0 := (smtp.EnhancedCode_String (smtp.mkEnhancedCode c s d) ++ [" "]) ++ msg).
  change (WriteReply_loop code [line0]) with (WriteReply_bytes code [line0]).
  eexists. split.
  - apply ReadReply_of_WriteReply; [assumption |].
    constructor; [| constructor]. subst line0. split.
    + rewrite !noLF_app, Hno, andb_true_r.
      unfold smtp.EnhancedCode_String. cbn [smtp.Class smtp.Subject smtp.Detail].
      rewrite !noLF_app.
      assert (Hf : forall z, 0 <= z -> noLF (fmt.d z) = true)
        by (intros; apply fmt_d_without; [assumption | reflexivity]).
      rewrite !Hf by lia. reflexivity.
    + rewrite !length_app. simpl length. lia.
  - unfold smtpclient.replyToError. cbn [Lines Code].
    subst line0. rewrite <- app_assoc. cbn [app].
    rewrite ParseEnhancedCode_String by assumption.
    assert (E : (c =? 0) = false) by (apply Z.eqb_neq; lia).
    rewrite E. reflexivity.
Qed.

End ReplyProofs.

(** ** conn.go: ParseEnhancedCode *)

Section EnhancedCodeProofs.
Local Open Scope Z_scope.

Lemma Cut_sound (sep : byte) (s : bytes) : forall before after found,
  strings.Cut s sep = (before, after, found) ->
  without sep before = true /\
  if found then s = before ++ sep :: after else s = before /\ after = [].
Proof.
  induction s as [| x s IH]; intros before after found; simpl.
  - intros [= <- <- <-]. auto.
  - byte_cases x sep.
    + intros [= <- <- <-]. auto.
    + destruct (strings.Cut s sep) as [[b a] f] eqn:Ec.
      intros [= <- <- <-]. destruct (IH _ _ _ eq_refl) as [Hw Hs].
      split; [simpl; now rewrite E, Hw |].
      destruct f; [now subst s | destruct Hs as [-> ->]; auto].
Qed.

Lemma Split_cons (sep : byte) (s : bytes) :
  exists p ps, strings.Split s sep = p :: ps.
Proof.
  induction s as [| x s IH]; simpl; [eauto |].
  destruct (Byte.eqb x sep); [eauto |].
  destruct IH as (p & ps & ->). eauto.
Qed.

(** Joining what [Split] gives, with the separator, gives the string
    back. *)
Lemma Join_Split (sep : byte) (s : bytes) :
  strings.Join (strings.Split s sep) [sep] = s.
Proof.
  induction s as [| x s IH]; [reflexivity |]. simpl.
  destruct (Split_cons sep s) as (p & ps & Es). rewrite Es in *.
  byte_cases x sep.
  - change (strings.Join ([] :: p :: ps) [sep])
      with ([] ++ [sep] ++ strings.Join (p :: ps) [sep]).
    now rewrite IH.
  - destruct ps as [| q ps].
    + simpl in *. now subst.
    + change (strings.Join ((x :: p) :: q :: ps) [sep])
        with (x :: (p ++ [sep] ++ strings.Join (q :: ps) [sep])).
      change (strings.Join (p :: q :: ps) [sep])
        with (p ++ [sep] ++ strings.Join (q :: ps) [sep]) in IH.
      now rewrite IH.
Qed.

(** X10: what [ParseEnhancedCode] returns: either no code and the text as it
    was, or a class from 2 to 5 with the three numbers that [Atoi] reads
    in the first word of the text, which has the form [x.y.z], and what
    follows the first space. *)
Theorem ParseEnhancedCode_sound (text : bytes) :
  let '(c, s, d, rest) := textproto.ParseEnhancedCode text in
  (c = 0 /\ s = 0 /\ d = 0 /\ rest = text)
  \/ (2 <= c <= 5 /\
      exists s0 s1 s2,
        strconv.Atoi s0 = inl c /\ strconv.Atoi s1 = inl s /\ strconv.Atoi s2 = inl d /\
        (text = s0 ++ "." :: s1 ++ "." :: s2 /\ rest = []
         \/ text = (s0 ++ "." :: s1 ++ "." :: s2) ++ " " :: rest)).
Proof.
  unfold textproto.ParseEnhancedCode, strings.SplitN2.
  destruct (strings.Cut text " ") as [[before after] found] eqn:Ec.
  apply Cut_sound in Ec as [_ Hs]. cbv zeta.
  assert (Hrest : forall c s d : Z,
    2 <= c <= 5 ->
    (exists s0 s1 s2,
        strings.Split before "." = [s0; s1; s2] /\
        strconv.Atoi s0 = inl c /\ strconv.Atoi s1 = inl s /\ strconv.Atoi s2 = inl d) ->
    let rest := if found then after else [] in
    (c = 0 /\ s = 0 /\ d = 0 /\ rest = text)
    \/ (2 <= c <= 5 /\
        exists s0 s1 s2,
          strconv.Atoi s0 = inl c /\ strconv.Atoi s1 = inl s /\ strconv.Atoi s2 = inl d /\
          (text = s0 ++ "." :: s1 ++ "." :: s2 /\ rest = []
           \/ text = (s0 ++ "." :: s1 ++ "." :: s2) ++ " " :: rest))).
  { intros c s d Hc (s0 & s1 & s2 & Hsp & E0 & E1 & E2). right. split; [exact Hc |].
    exists s0, s1, s2. split; [exact E0 |]. split; [exact E1 |]. split; [exact E2 |].
    pose proof (Join_Split "." before) as Hj. rewrite Hsp in Hj.
    change (strings.Join [s0; s1; s2] ["."]) with (s0 ++ "." :: s1 ++ "." :: s2) in Hj.
    rewrite Hj.
    destruct found; [right; exact Hs | left; destruct Hs as [-> _]; auto]. }
  destruct found; [| destruct Hs as [Ht Ha]; subst text after]; cbn [hd];
    (destruct (strings.Split before ".") as [| s0 [| s1 [| s2 [| s3 l]]]];
       try (left; auto; fail);
     destruct (strconv.Atoi s0) as [c |] eqn:E0; [| left; auto];
     destruct (strconv.Atoi s1) as [s |] eqn:E1; [| left; auto];
     destruct (strconv.Atoi s2) as [d |] eqn:E2; [| left; auto];
     destruct (Z.ltb_spec c 2); [left; auto |];
     destruct (Z.gtb_spec c 5); [left; auto |];
     cbn [orb]; apply Hrest; [lia | eauto 10]).
Qed.

(** X11: an enhanced code of a class from 2 to 5 that [String] has printed
    is read back by [ParseEnhancedCode], alone or before a space and a
    text, which is then returned as the rest. *)
Theorem ParseEnhancedCode_roundtrip (e : smtp.EnhancedCode) (text : bytes) :
  2 <= smtp.Class e <= 5 ->
  0 <= smtp.Subject e <= strconv.maxInt ->
  0 <= smtp.Detail e <= strconv.maxInt ->
  textproto.ParseEnhancedCode (smtp.EnhancedCode_String e)
  = (smtp.Class e, smtp.Subject e, smtp.Detail e, [])
  /\ textproto.ParseEnhancedCode (smtp.EnhancedCode_String e ++ " " :: text)
     = (smtp.Class e, smtp.Subject e, smtp.Detail e, text).
Proof.
  destruct e as [c s d]. cbn [smtp.Class smtp.Subject smtp.Detail].
  intros Hc Hs Hd. split; [| now apply ParseEnhancedCode_String].
  unfold textproto.ParseEnhancedCode, strings.SplitN2, smtp.EnhancedCode_String.
  cbn [smtp.Class smtp.Subject smtp.Detail].
  assert (Hw : forall z, 0 <= z -> forall ch, isDigit ch = false -> without ch (fmt.d z) = true)
    by (intros; now apply fmt_d_without).
  rewrite Cut_not_found.
  2:{ rewrite !without_app. simpl.
      rewrite !Hw by (try reflexivity; lia). reflexivity. }
  simpl hd. simpl app.
  rewrite Split_app by (apply Hw; [lia | reflexivity]).
  rewrite Split_app by (apply Hw; [lia | reflexivity]).
  rewrite Split_without by (apply Hw; [lia | reflexivity]).
  rewrite !Atoi_fmt_d by (unfold strconv.maxInt in *; lia).
  destruct (Z.ltb_spec c 2); [lia |].
  destruct (Z.gtb_spec c 5); [lia |]. reflexivity.
Qed.

End EnhancedCodeProofs.

(** ** address.go *)

Section AddressProofs.
Import smtp.
Context {ext : Externals}.
Local Open Scope Z_scope.

Lemma LastIndexByte_Some (c : byte) (s : bytes) : forall i,
  strings.LastIndexByte s c = Some i ->
  s = firstn i s ++ c :: skipn (S i) s /\ without c (skipn (S i) s) = true /\
  (i < length s)%nat.
Proof.
  induction s as [| x s IH]; intros i; simpl; [discriminate |].
  destruct (strings.LastIndexByte s c) as [j |] eqn:E.
  - intros [= <-]. destruct (IH _ eq_refl) as (Hs & Hw & Hlt).
    split; [| split; [exact Hw | lia]].
    change (x :: s = x :: (firstn j s ++ c :: skipn (S j) s)). f_equal. exact Hs.
  - byte_cases x c; [| discriminate].
    intros [= <-]. simpl. split; [reflexivity |]. split; [| lia].
    clear IH. induction s as [| y s IHs]; [reflexivity |].
    simpl in E. destruct (strings.LastIndexByte s c); [discriminate |].
    destruct (Byte.eqb y c) eqn:Ey; [discriminate |].
    simpl. rewrite Ey. now apply IHs.
Qed.

Lemma validateLocalPart_length (local : bytes) :
  validateLocalPart local = None -> local <> [] /\ Z.of_nat (length local) <= 64.
Proof.
  unfold validateLocalPart. destruct local as [| x l]; [discriminate |].
  destruct (Z.ltb_spec 64 (Z.of_nat (length (x :: l)))); [discriminate |].
  intros _. split; [discriminate | assumption].
Qed.

Lemma validateDomain_length (domain : bytes) :
  validateDomain domain = None -> domain <> [] /\ Z.of_nat (length domain) <= 255.
Proof.
  unfold validateDomain. destruct domain as [| x l]; [discriminate |].
  destruct (Z.ltb_spec 255 (Z.of_nat (length (x :: l)))); [discriminate |].
  intros _. split; [discriminate | assumption].
Qed.

Lemma ParseMailbox_parts (s : bytes) (m : Mailbox) :
  ParseMailbox s = inl m ->
  Mailbox_String m = s
  /\ LocalPart m <> [] /\ Z.of_nat (length (LocalPart m)) <= 64
  /\ Domain m <> [] /\ Z.of_nat (length (Domain m)) <= 255
  /\ without "@" (Domain m) = true.
Proof.
  unfold ParseMailbox. destruct s as [| x s']; [discriminate |].
  remember (x :: s') as s eqn:Es. clear Es.
  destruct (strings.LastIndexByte s "@") as [i |] eqn:E; [| discriminate].
  apply LastIndexByte_Some in E as (Hs & Hw & Hlt).
  destruct (i =? 0)%nat; [discriminate |].
  destruct (i =? length s - 1)%nat; [discriminate |].
  destruct (validateLocalPart (firstn i s)) as [e |] eqn:El; [discriminate |].
  destruct (validateDomain (skipn (S i) s)) as [e |] eqn:Ed; [discriminate |].
  intros [= <-]. cbn [LocalPart Domain].
  apply validateLocalPart_length in El as [Hl1 Hl2].
  apply validateDomain_length in Ed as [Hd1 Hd2].
  split; [| auto 6].
  unfold Mailbox_String. cbn [LocalPart Domain].
  destruct (firstn i s) as [| a l] eqn:Ef; [contradiction |].
  symmetry. exact Hs.
Qed.

(** X12: a mailbox that [ParseMailbox] accepts prints as the string that was
    parsed; its local part is not empty and has at most 64 octets, its
    domain is not empty, has at most 255 octets and holds no [@]. *)
Theorem ParseMailbox_sound (s : bytes) (m : Mailbox) :
  ParseMailbox s = inl m ->
  Mailbox_String m = s
  /\ LocalPart m <> [] /\ Z.of_nat (length (LocalPart m)) <= 64
  /\ Domain m <> [] /\ Z.of_nat (length (Domain m)) <= 255
  /\ without "@" (Domain m) = true.
Proof. exact (@ParseMailbox_parts s m). Qed.

Lemma TrimSpace_brackets (s : bytes) :
  strings.TrimSpace ("<" :: s ++ [">"]) = "<" :: s ++ [">"].
Proof.
  assert (Hrev : rev ("<" :: s ++ [">"]) = ">" :: rev ("<" :: s)).
  { change ("<" :: s ++ [">"]) with (("<" :: s) ++ [">"]).
    now rewrite rev_app_distr. }
  cbn -[rev strings.trimRight]. rewrite Hrev.
  cbn -[rev]. rewrite <- Hrev. now rewrite rev_involutive.
Qed.

Lemma stripBrackets_brackets (s : bytes) :
  stripBrackets ("<" :: s ++ [">"]) = s.
Proof.
  assert (Hrev : rev ("<" :: s ++ [">"]) = ">" :: rev ("<" :: s)).
  { change ("<" :: s ++ [">"]) with (("<" :: s) ++ [">"]).
    now rewrite rev_app_distr. }
  unfold stripBrackets, strings.HasSuffix. rewrite Hrev.
  assert (Hnil : forall t, strings.HasPrefix t [] = true) by (now destruct t).
  assert (H1 : strings.HasPrefix ("<" :: s ++ [">"]) (bs "<") = true)
    by (cbn; apply Hnil).
  assert (H2 : strings.HasPrefix (">" :: rev ("<" :: s)) (rev (bs ">")) = true)
    by (cbn -[rev]; apply Hnil).
  rewrite H1, H2. cbn [andb tl]. apply removelast_last.
Qed.

(** A mailbox between angle brackets, as a reverse path and as a
    forward path. *)
Lemma Parse_brackets (s : bytes) (m : Mailbox) :
  ParseMailbox s = inl m ->
  ParseReversePath ("<" :: s ++ [">"]) = inl (mkReversePath m false)
  /\ ParseForwardPath ("<" :: s ++ [">"]) = inl (mkForwardPath m).
Proof.
  intros Hp.
  assert (Hne : s <> []) by (intros ->; discriminate).
  unfold ParseForwardPath, ParseReversePath.
  rewrite TrimSpace_brackets, stripBrackets_brackets.
  assert (Hneq : bytes_eqb ("<" :: s ++ [">"]) (bs "<>") = false).
  { destruct s as [| a [| b l]]; [contradiction | |]; cbn.
    - now rewrite andb_false_r.
    - change (Byte.eqb "<" "<") with true. cbn [andb].
      destruct (Byte.eqb a ">"); reflexivity. }
  rewrite Hneq.
  destruct s as [| a l]; [contradiction |]. rewrite Hp.
  split; reflexivity.
Qed.

(** X13: paths printed by [String] are parsed back: a forward path and a
    reverse path around a mailbox that [ParseMailbox] accepts, and the
    null reverse path; as a forward path, the null path is refused. *)
Theorem Path_String_roundtrip (s : bytes) (m : Mailbox) :
  ParseMailbox s = inl m ->
  ParseForwardPath (ForwardPath_String (mkForwardPath m)) = inl (mkForwardPath m)
  /\ ParseReversePath (ReversePath_String (mkReversePath m false))
     = inl (mkReversePath m false)
  /\ ParseReversePath (ReversePath_String (mkReversePath MailboxZero true))
     = inl (mkReversePath MailboxZero true)
  /\ ParseForwardPath (ReversePath_String (mkReversePath MailboxZero true))
     = inr (errors_New "smtp: empty forward path").
Proof.
  intros Hp. pose proof (ParseMailbox_parts _ Hp) as (Hs & _).
  unfold ForwardPath_String, ReversePath_String.
  cbn [fp_Mailbox rp_Mailbox Null]. rewrite Hs.
  change (bs "<" ++ s ++ bs ">") with ("<" :: s ++ [">"]).
  destruct (Parse_brackets _ Hp) as [-> ->].
  repeat split; reflexivity.
Qed.

End AddressProofs.

(** ** dot.go: the reader and its buffer *)

Section DotReaderProofs.
Import textproto_dot.

Lemma outOf_emit (b : byte) (res : loopResult) : outOf (emit b res) = b :: outOf res.
Proof. destruct res as [[[out e] st] src]. reflexivity. Qed.

Lemma stateOf_emit (b : byte) (res : loopResult) : stateOf (emit b res) = stateOf res.
Proof. destruct res as [[[out e] st] src]. reflexivity. Qed.

(** The loop of [Read] stores at most [room] octets. *)
Lemma Read_loop_fits (src : bytes) : forall st room np,
  length (outOf (Read_loop src st room np)) <= room.
Proof.
  induction src as [| b src IH]; intros st room np.
  - destruct room; simpl; lia.
  - destruct room as [| room1]; [simpl; lia |].
    assert (IH1 : forall st np, length (outOf (Read_loop src st room1 np)) <= room1)
      by (intros; apply IH).
    assert (IH0 : forall st np, length (outOf (Read_loop src st (S room1) np)) <= S room1)
      by (intros; apply IH).
    destruct st; simpl Read_loop;
      repeat match goal with
             | |- context [Byte.eqb ?x ?y] => destruct (Byte.eqb x y)
             end;
      rewrite ?outOf_emit; simpl length;
      try apply IH0; try (apply le_n_S; apply IH1); try (unfold outOf; simpl; lia).
    + destruct room1 as [| room2]; [unfold outOf; simpl; lia |].
      rewrite !outOf_emit. simpl length. do 2 apply le_n_S. apply IH.
    + destruct room1 as [| [| room3]]; try (unfold outOf; simpl; lia).
      rewrite !outOf_emit. simpl length. do 3 apply le_n_S. apply IH.
Qed.

(** When the loop of [Read] returns an error, the reader is in its end
    state. *)
Lemma Read_loop_err_EOF (src : bytes) : forall st room np,
  errOf (Read_loop src st room np) <> None ->
  stateOf (Read_loop src st room np) = dotStateEOF.
Proof.
  induction src as [| b src IH]; intros st room np.
  - destruct room; simpl; [intros Hn; now contradiction Hn | reflexivity].
  - destruct room as [| room1]; [simpl; intros Hn; now contradiction Hn |].
    destruct st; simpl Read_loop;
      repeat match goal with
             | |- context [Byte.eqb ?x ?y] => destruct (Byte.eqb x y)
             | |- context [match ?n with O => _ | S _ => _ end] => destruct n
             end;
      rewrite ?errOf_emit, ?stateOf_emit; try apply IH;
      try reflexivity; try (intros Hn; now contradiction Hn).
Qed.

(** X22: [Read(p)] stores at most [len(p)] octets; it never gives back more
    input than it was given; once it has returned an error the reader is
    in its end state, where every [Read] returns [io.EOF] and nothing
    else happens. *)
Theorem Read_fits (d : dotReader) (lenp : nat) :
  let '(out, e, d') := Read d lenp in
  length out <= lenp
  /\ length (r d') <= length (r d)
  /\ (e <> None -> state d' = dotStateEOF /\
                   forall lenp', Read d' lenp' = ([], Some io_EOF, d')).
Proof.
  assert (Hsticky : forall d', state d' = dotStateEOF ->
            forall lenp', Read d' lenp' = ([], Some io_EOF, d')).
  { intros d' Hst lenp'. unfold Read. now rewrite Hst. }
  destruct (Read d lenp) as [[out e] d'] eqn:ER.
  assert (Hloop : state d <> dotStateEOF ->
            out = outOf (Read_loop (r d) (state d) lenp false) /\
            e = errOf (Read_loop (r d) (state d) lenp false) /\
            state d' = stateOf (Read_loop (r d) (state d) lenp false) /\
            r d' = restOf (Read_loop (r d) (state d) lenp false)).
  { intros Hst. unfold Read in ER.
    destruct (Read_loop (r d) (state d) lenp false) as [[[out0 e0] st'] src'].
    destruct (state d); try contradiction; injection ER as <- <- <-; auto. }
  destruct (state d) eqn:Est;
    try (destruct Hloop as (-> & -> & Hs & ->); [discriminate |];
         split; [apply Read_loop_fits |];
         split; [apply Read_loop_rest_le |];
         intros Hne; apply Read_loop_err_EOF in Hne;
         assert (Hd : state d' = dotStateEOF) by congruence;
         split; [exact Hd | now apply Hsticky]).
  rewrite (Hsticky d Est) in ER. injection ER as <- <- <-.
  simpl. split; [lia |]. split; [lia |]. intros _. split; [exact Est |].
  now apply Hsticky.
Qed.

End DotReaderProofs.

(** ** DATA: the body is consumed whatever the handler reads *)

Section BodyProofs.
Import textproto_dot.

Lemma Read_loop_all_rest (B : bytes) : forall T bl st room np,
  agree bl st -> flagAfter bl B = true -> length B < room ->
  Read_loop (stuffed bl B ++ ["."; CR; LF] ++ T) st room np
  = (B, Some io_EOF, dotStateEOF, T).
Proof.
  induction B as [| b B IH]; intros T bl st room np Hag Hfl Hlt.
  - simpl in Hfl. subst bl. simpl in Hag. subst st.
    destruct room; [simpl in Hlt; lia | reflexivity].
  - destruct room as [| room]; [simpl in Hlt; lia |].
    rewrite Read_loop_step by assumption.
    rewrite (IH T (Byte.eqb b LF) (stateAfter b) room true (agree_stateAfter b)).
    + reflexivity.
    + exact Hfl.
    + simpl in Hlt. lia.
Qed.

Lemma stuffed_length (B : bytes) : forall bl, length B <= length (stuffed bl B).
Proof.
  induction B as [| b B IH]; intros bl; simpl; [lia |].
  rewrite length_app. simpl. specialize (IH (Byte.eqb b LF)). lia.
Qed.

(** What [Read] does to a reader in a body. *)
Lemma Read_inBody_cases (T : bytes) (bl : bool) (B : bytes) (st : dotState) (lenp : nat) :
  agree bl st -> flagAfter bl B = true ->
  (lenp <= length B /\
   exists st' bl',
     agree bl' st' /\ flagAfter bl' (skipn lenp B) = true /\
     Read {| r := stuffed bl B ++ ["."; CR; LF] ++ T; state := st |} lenp
     = (firstn lenp B, None,
        {| r := stuffed bl' (skipn lenp B) ++ ["."; CR; LF] ++ T; state := st' |}))
  \/ (length B < lenp /\
      Read {| r := stuffed bl B ++ ["."; CR; LF] ++ T; state := st |} lenp
      = (B, Some io_EOF, {| r := T; state := dotStateEOF |})).
Proof.
  intros Hag Hfl.
  rewrite Read_agree with (bl := bl) by exact Hag.
  destruct (Nat.le_gt_cases lenp (length B)) as [Hle | Hgt].
  - left. split; [exact Hle |].
    destruct (@Read_loop_prefix B (["."; CR; LF] ++ T) bl st lenp false Hag Hle)
      as (st' & bl' & Hag' & Hfl' & Heq).
    exists st', bl'. rewrite Heq. repeat split; auto. congruence.
  - right. split; [exact Hgt |].
    now rewrite Read_loop_all_rest.
Qed.

Lemma Read_inBody (T : bytes) (d : dotReader) (lenp : nat) :
  inBody T d -> inBody T (snd (Read d lenp)).
Proof.
  intros [[Hst Hr] | (bl & B & Hag & Hfl & Hr)].
  - unfold Read. rewrite Hst. left. auto.
  - destruct d as [src st]. cbn [r state] in *. subst src.
    destruct (@Read_inBody_cases T bl B st lenp Hag Hfl)
      as [(_ & st' & bl' & Hag' & Hfl' & ->) | (_ & ->)]; cbn [snd r state].
    + right. exists bl', (skipn lenp B). auto.
    + left. auto.
Qed.

Lemma runPlan_inBody (R : Type) (T : bytes) (p : smtpserver.ReadPlan R) :
  forall d, inBody T d -> inBody T (snd (smtpserver.runPlan Read p d)).
Proof.
  induction p as [res | lenp k IH]; intros d Hin; simpl.
  - exact Hin.
  - pose proof (Read_inBody lenp Hin) as Hin'.
    destruct (Read d lenp) as [[out e] d']. simpl in Hin'.
    now apply IH.
Qed.

Lemma discard_loop_inBody (T : bytes) : forall fuel bl B st,
  agree bl st -> flagAfter bl B = true -> length B < fuel ->
  smtpserver.discard_loop fuel
    {| r := stuffed bl B ++ ["."; CR; LF] ++ T; state := st |}
  = Some {| r := T; state := dotStateEOF |}.
Proof.
  induction fuel as [| fuel IH]; intros bl B st Hag Hfl Hlt; [lia |].
  cbn [smtpserver.discard_loop].
  destruct (@Read_inBody_cases T bl B st smtpserver.discardBufSize Hag Hfl)
    as [(Hle & st' & bl' & Hag' & Hfl' & ->) | (_ & ->)].
  - apply IH; auto. rewrite length_skipn.
    unfold smtpserver.discardBufSize in *. lia.
  - reflexivity.
Qed.

(** Draining a reader in a body leaves it at the end of the body. *)
Lemma io_Copy_Discard_inBody (T : bytes) (d : dotReader) :
  inBody T d -> smtpserver.io_Copy_Discard d = {| r := T; state := dotStateEOF |}.
Proof.
  unfold smtpserver.io_Copy_Discard.
  intros [[Hst Hr] | (bl & B & Hag & Hfl & Hr)].
  - destruct d as [src st]. cbn [r state] in *. subst.
    cbn [smtpserver.discard_loop]. unfold Read. reflexivity.
  - destruct d as [src st]. cbn [r state] in *. subst src.
    rewrite discard_loop_inBody; auto.
    rewrite length_app. pose proof (stuffed_length B bl). lia.
Qed.

End BodyProofs.

Section DataProofs.
Import smtp smtpserver.
Context {ext : Externals} {H : Type}.
Variable srv : Server H.
Local Open Scope Z_scope.

(** Replies change nothing but what was sent. *)
Lemma reply_out (code : ReplyCode) (enhanced : EnhancedCode) (msg : bytes) (w : world H) :
  exists out, reply code enhanced msg w = (tt, withOutput out w).
Proof. unfold reply, modifyS, withOutput. eexists. reflexivity. Qed.

Lemma replyError_out (e : handlerError) (code : ReplyCode) (enhanced : EnhancedCode)
  (msg : bytes) (w : world H) :
  exists out, replyError e code enhanced msg w = (tt, withOutput out w).
Proof. destruct e; apply reply_out. Qed.

Lemma resetTransaction_sess (w : world H) :
  exists a, resetTransaction srv w
    = (tt, mkWorld (set_bdatBuffer [] (set_forwardPaths []
                      (set_reversePath ReversePathZero (sess w)))) a (ticks w)).
Proof.
  unfold resetTransaction, bind, modifyS, call, ret.
  destruct (resetHandler srv); simpl; eexists; reflexivity.
Qed.

(** The end of DATA and of the last BDAT: the reply, then the
    transaction is cleared and the state is Greeted. *)
Lemma transaction_end (err : option handlerError) (w0 : world H) :
  exists out a,
    (match err with
     | Some e => bind (replyInternalError e)
                   (fun _ => bind (resetTransaction srv)
                               (fun _ => modifyS (set_state stateGreeted)))
     | None => bind (reply ReplyOK EnhancedCodeOK (bs "Message accepted"))
                   (fun _ => bind (resetTransaction srv)
                               (fun _ => modifyS (set_state stateGreeted)))
     end) w0
    = (tt, mkWorld (afterTransaction (textproto.r (conn (sess w0)))
                                     (textproto.w (conn (sess w0)) ++ out) (sess w0))
                   a (ticks w0)).
Proof.
  unfold bind. destruct err as [e |].
  - unfold replyInternalError.
    destruct (replyError_out e ReplyLocalError EnhancedCodeOtherNetwork
                (bs "Internal error") w0) as [o2 ->].
    destruct (resetTransaction_sess (withOutput o2 w0)) as [a2 ->].
    exists o2, a2. reflexivity.
  - destruct (reply_out ReplyOK EnhancedCodeOK (bs "Message accepted") w0) as [o2 ->].
    destruct (resetTransaction_sess (withOutput o2 w0)) as [a2 ->].
    exists o2, a2. reflexivity.
Qed.

(** The octets a reply sends, and what the end of a transaction does. *)
Lemma reply_octets (code : ReplyCode) (enhanced : EnhancedCode) (msg : bytes) (w : world H) :
  reply code enhanced msg w = (tt, withOutput (replyOctets code enhanced msg) w).
Proof.
  unfold reply, modifyS, withOutput, replyOctets, textproto.WriteReply,
    textproto.WriteReply_bytes.
  cbn [textproto.WriteReply_loop textproto.r textproto.w]. unfold textproto.replyLine.
  destruct (IsZero enhanced); cbn [negb app]; rewrite ?app_nil_r, <- ?app_assoc; reflexivity.
Qed.

Lemma replyError_octets (e : handlerError) (code : ReplyCode) (enhanced : EnhancedCode)
  (msg : bytes) (w : world H) :
  replyError e code enhanced msg w
  = (tt, withOutput (errorOctets e (replyOctets code enhanced msg)) w).
Proof. destruct e; apply reply_octets. Qed.

Lemma resetTransaction_exact (w : world H) :
  resetTransaction srv w
  = (tt, mkWorld (set_bdatBuffer [] (set_forwardPaths []
                    (set_reversePath ReversePathZero (sess w))))
                 (match resetHandler srv with Some h => h (app w) | None => app w end)
                 (ticks w)).
Proof.
  unfold resetTransaction, bind, modifyS, call, ret.
  destruct (resetHandler srv); reflexivity.
Qed.

Lemma transaction_end_octets (err : option handlerError) (w0 : world H) :
  (match err with
   | Some e => bind (replyInternalError e)
                 (fun _ => bind (resetTransaction srv)
                             (fun _ => modifyS (set_state stateGreeted)))
   | None => bind (reply ReplyOK EnhancedCodeOK (bs "Message accepted"))
                 (fun _ => bind (resetTransaction srv)
                             (fun _ => modifyS (set_state stateGreeted)))
   end) w0
  = (tt, mkWorld
           (sessionAfter (sess w0) (textproto.r (conn (sess w0)))
              (textproto.w (conn (sess w0))
                 ++ match err with
                    | None => bs "250 2.0.0 Message accepted" ++ CRLF
                    | Some e => errorOctets e (bs "451 4.4.0 Internal error" ++ CRLF)
                    end)
              stateGreeted (authenticated (sess w0)) ReversePathZero [] [])
           (match resetHandler srv with Some h => h (app w0) | None => app w0 end)
           (ticks w0)).
Proof.
  unfold bind. destruct err as [e |].
  - unfold replyInternalError. rewrite replyError_octets, resetTransaction_exact.
    reflexivity.
  - rewrite reply_octets, resetTransaction_exact. reflexivity.
Qed.

(** X1: DATA with the body of a message in the stream, as a dotWriter sends
    it: whatever the DataHandler reads of it (all, a part, nothing;
    there may be no handler), the session ends up after the body, with
    what follows it in the stream left to read as the next command, in
    the state Greeted and with the transaction cleared; the rest of the
    session is as it was. *)
Theorem DATA_consumes_body (B rest : bytes) (w : world H) :
  stateNum stateRcpt <= stateNum (state (sess w)) ->
  textproto.r (conn (sess w)) = textproto_dot.DotWriter_wire B ++ rest ->
  exists out a,
    handleDATA srv w
    = (tt, mkWorld (afterTransaction rest (textproto.w (conn (sess w)) ++ out) (sess w))
                   a (ticks w)).
Proof.
  intros Hst Hr.
  assert (Hin : textproto_dot.inBody rest (DotReader (set_state stateData (sess w)))).
  { right. exists true, (textproto_dot.canonical B).
    destruct (DotWriter_wire_canonical B) as [Hw Hfl].
    unfold DotReader, textproto_dot.newDotReader. cbn.
    rewrite Hr, Hw, <- app_assoc. auto. }
  pose proof transaction_end as Htail. unfold bind in Htail.
  unfold handleDATA, bind, getS.
  apply Z.ltb_ge in Hst. rewrite Hst.
  destruct (reply_out ReplyStartMailInput EnhancedCodeZero
              (bs "Start mail input; end with <CRLF>.<CRLF>") w) as [o1 ->].
  unfold modifyS at 1. cbv beta iota.
  set (s1 := set_state stateData (sess (withOutput o1 w))).
  assert (Hin1 : textproto_dot.inBody rest (DotReader s1)) by exact Hin.
  assert (Hfin : forall err rd a,
    textproto_dot.inBody rest rd ->
    exists out a2,
      (let '(_, w'1) := modifyS (afterDotReader (io_Copy_Discard rd))
                          (mkWorld s1 a (ticks w)) in
       match err with
       | Some e =>
           fun w0 : world H =>
             let '(_, w'2) := replyInternalError e w0 in
             let '(_, w'3) := resetTransaction srv w'2 in
             modifyS (set_state stateGreeted) w'3
       | None =>
           fun w0 : world H =>
             let '(_, w'2) := reply ReplyOK EnhancedCodeOK (bs "Message accepted") w0 in
             let '(_, w'3) := resetTransaction srv w'2 in
             modifyS (set_state stateGreeted) w'3
       end w'1)
      = (tt, mkWorld (afterTransaction rest (textproto.w (conn (sess w)) ++ out) (sess w))
                     a2 (ticks w))).
  { intros err rd a Hrd. unfold modifyS at 1. cbv beta iota.
    rewrite (io_Copy_Discard_inBody Hrd).
    destruct (Htail err (mkWorld (afterDotReader
                {| textproto_dot.r := rest;
                   textproto_dot.state := textproto_dot.dotStateEOF |} s1) a (ticks w)))
      as (out & a2 & Heq).
    exists (o1 ++ out), a2. etransitivity; [exact Heq |].
    subst s1. cbn. unfold afterTransaction. cbn. now rewrite app_assoc. }
  destruct (dataHandler srv) as [h |].
  - unfold call. cbv beta iota. cbn [sess app ticks].
    match goal with |- context [runPlan textproto_dot.Read ?p ?d] =>
      pose proof (@runPlan_inBody _ rest p d Hin1) as Hrun;
      destruct (runPlan textproto_dot.Read p d) as [[err a'] rd] end.
    cbn [snd] in Hrun. cbv beta iota.
    exact (Hfin err rd a' Hrun).
  - unfold ret. cbv beta iota.
    exact (Hfin None (DotReader s1) (app w) Hin1).
Qed.

End DataProofs.

Section InvProofs.
Import smtp smtpserver.
Context {ext : Externals} {H : Type}.
Variable srv : Server H.
Local Open Scope Z_scope.

Ltac find_scrut t :=
  match t with
  | context [match ?x with _ => _ end] => find_scrut x
  | _ => t
  end.

Ltac session_simpl :=
  cbv beta iota;
  cbn [sess app ticks fst snd conn state clientHostname esmtp tls authenticated
       invalidCmds reversePath forwardPaths bdatBuffer
       set_conn set_state set_clientHostname set_esmtp set_tls set_authenticated
       set_invalidCmds set_reversePath set_forwardPaths set_bdatBuffer
       afterDotReader negb andb orb] in *.

Ltac crunch :=
  repeat (session_simpl;
          match goal with
          | |- context [match ?x with _ => _ end] =>
              let y := find_scrut x in destruct y eqn:?
          end);
  session_simpl.

Ltac unfold_monad :=
  unfold replyInternalError, replyInvalidBase64, replyCancelled;
  unfold replyError; unfold reply, replyMulti, resetTransaction;
  unfold bind, getS, modifyS, call, ret, now, readLine.

Ltac bool_hyps :=
  repeat match goal with
         | Hb : (_ <? _) = true |- _ => apply Z.ltb_lt in Hb
         | Hb : (_ <? _) = false |- _ => apply Z.ltb_ge in Hb
         | Hb : (_ >=? _) = true |- _ => apply Z.geb_le in Hb
         | Hb : (_ >=? _) = false |- _ => rewrite Z.geb_leb in Hb; apply Z.leb_gt in Hb
         | Hb : (_ >? _) = true |- _ => rewrite Z.gtb_ltb in Hb; apply Z.ltb_lt in Hb
         | Hb : (_ >? _) = false |- _ => rewrite Z.gtb_ltb in Hb; apply Z.ltb_ge in Hb
         end.

Ltac inv_leaf w :=
  match goal with
  | Hi : sessionInv _ _ |- sessionInv _ _ =>
      unfold sessionInv in *; session_simpl;
      destruct Hi as (I1 & I2 & I3 & I4 & I5 & I6);
      bool_hyps;
      destruct (state (sess w)) eqn:?;
      cbn [stateNum] in *;
      repeat split; intros;
      try lia; try discriminate; try congruence;
      try (rewrite ?length_app in *; cbn [length] in *; lia);
      try (apply I2; [assumption | lia]);
      try (apply I3; lia);
      try (apply not_eq_sym, app_cons_not_nil);
      try (match goal with
           | Hb : submissionMode _ && negb (authenticated _) = false,
             Hs : submissionMode _ = true |- _ =>
               rewrite Hs in Hb; apply negb_false_iff in Hb; exact Hb
           end);
      try (match goal with
           | Hr : rejecting _, Ha : authHandler _ = Some ?h,
             Hh : ?h ?a ?m ?u ?p = (None, _) |- _ =>
               exfalso; apply (Hr h Ha a m u p); rewrite Hh; reflexivity
           end);
      auto
  end.

Lemma handleEHLO_inv (args : bytes) (w : world H) :
  sessionInv srv (sess w) -> sessionInv srv (sess (snd (handleEHLO srv args w))).
Proof.
  intros Hi. unfold handleEHLO. unfold_monad. crunch.
  all: inv_leaf w.
Qed.

Lemma handleHELO_inv (args : bytes) (w : world H) :
  sessionInv srv (sess w) -> sessionInv srv (sess (snd (handleHELO srv args w))).
Proof.
  intros Hi. unfold handleHELO. unfold_monad. crunch.
  all: inv_leaf w.
Qed.

Lemma handleMAIL_inv (args : bytes) (w : world H) :
  sessionInv srv (sess w) -> sessionInv srv (sess (snd (handleMAIL srv args w))).
Proof.
  intros Hi. unfold handleMAIL. unfold_monad. crunch.
  all: inv_leaf w.
Qed.

Lemma handleRCPT_inv (args : bytes) (w : world H) :
  sessionInv srv (sess w) -> sessionInv srv (sess (snd (handleRCPT srv args w))).
Proof.
  intros Hi. unfold handleRCPT. unfold_monad. crunch.
  all: inv_leaf w.
Qed.

Lemma handleDATA_inv  (w : world H) :
  sessionInv srv (sess w) -> sessionInv srv (sess (snd (handleDATA srv w))).
Proof.
  intros Hi. unfold handleDATA. unfold_monad. crunch.
  all: inv_leaf w.
Qed.

Lemma handleBDAT_inv (args : bytes) (w : world H) :
  sessionInv srv (sess w) -> sessionInv srv (sess (snd (handleBDAT srv args w))).
Proof.
  intros Hi. unfold handleBDAT. unfold_monad. crunch.
  all: inv_leaf w.
Qed.

Lemma handleRSET_inv  (w : world H) :
  sessionInv srv (sess w) -> sessionInv srv (sess (snd (handleRSET srv w))).
Proof.
  intros Hi. unfold handleRSET. unfold_monad. crunch.
  all: inv_leaf w.
Qed.

Lemma handleNOOP_inv  (w : world H) :
  sessionInv srv (sess w) -> sessionInv srv (sess (snd (@handleNOOP H w))).
Proof.
  intros Hi. unfold handleNOOP. unfold_monad. crunch.
  all: inv_leaf w.
Qed.

Lemma handleQUIT_inv  (w : world H) :
  sessionInv srv (sess w) -> sessionInv srv (sess (snd (handleQUIT srv w))).
Proof.
  intros Hi. unfold handleQUIT. unfold_monad. crunch.
  all: inv_leaf w.
Qed.

Lemma handleVRFY_inv (args : bytes) (w : world H) :
  sessionInv srv (sess w) -> sessionInv srv (sess (snd (handleVRFY srv args w))).
Proof.
  intros Hi. unfold handleVRFY. unfold_monad. crunch.
  all: inv_leaf w.
Qed.

Lemma handleSTARTTLS_inv  (w : world H) :
  sessionInv srv (sess w) -> sessionInv srv (sess (snd (handleSTARTTLS srv w))).
Proof.
  intros Hi. unfold handleSTARTTLS. unfold_monad. crunch.
  all: inv_leaf w.
Qed.

Lemma invalidCommand_inv (msg : bytes) (w : world H) :
  sessionInv srv (sess w) -> sessionInv srv (sess (snd (invalidCommand srv msg w))).
Proof.
  intros Hi. unfold invalidCommand. unfold_monad. crunch.
  all: inv_leaf w.
Qed.

Lemma handleAUTH_inv (args : bytes) (w : world H) :
  sessionInv srv (sess w) -> sessionInv srv (sess (snd (handleAUTH srv args w))).
Proof.
  intros Hi. unfold handleAUTH, authPLAIN, authLOGIN, authCRAMMD5.
  unfold authenticate. unfold_monad. crunch.
  all: inv_leaf w.
Qed.

Lemma then_ret_inv (A : Type) (m : M A) (b : bool) (w : world H) :
  (forall w, sessionInv srv (sess w) -> sessionInv srv (sess (snd (m w)))) ->
  sessionInv srv (sess w) ->
  sessionInv srv (sess (snd (bind m (fun _ => ret b) w))).
Proof.
  intros Hm Hi. unfold bind, ret. specialize (Hm w Hi).
  destruct (m w) as [a w']. exact Hm.
Qed.

Lemma dispatch_inv (verb args : bytes) (w : world H) :
  sessionInv srv (sess w) -> sessionInv srv (sess (snd (dispatch srv verb args w))).
Proof.
  intros Hi. unfold dispatch.
  repeat match goal with
         | |- context [if bytes_eqb ?a ?b then _ else _] => destruct (bytes_eqb a b)
         end;
    try (apply then_ret_inv; [| exact Hi]; intros w0 Hi0).
  - now apply handleEHLO_inv.
  - now apply handleHELO_inv.
  - now apply handleMAIL_inv.
  - now apply handleRCPT_inv.
  - now apply handleDATA_inv.
  - now apply handleRSET_inv.
  - now apply handleNOOP_inv.
  - now apply handleQUIT_inv.
  - now apply handleVRFY_inv.
  - unfold_monad; crunch; inv_leaf w0.
  - now apply handleSTARTTLS_inv.
  - now apply handleAUTH_inv.
  - now apply handleBDAT_inv.
  - now apply invalidCommand_inv.
Qed.

Lemma handleLine_inv (line : bytes) (w : world H) :
  sessionInv srv (sess w) -> sessionInv srv (sess (snd (handleLine srv line w))).
Proof.
  intros Hi. unfold handleLine.
  destruct (strings.ContainsNUL line); [now apply invalidCommand_inv |].
  destruct (parseCommand line) as [verb args]. now apply dispatch_inv.
Qed.

Lemma commandStep_inv (w : world H) :
  sessionInv srv (sess w) -> sessionInv srv (sess (snd (commandStep srv w))).
Proof.
  intros Hi. unfold commandStep, bind, readLine.
  destruct (textproto.ReadLine _ _) as [[line | e] rest].
  - apply handleLine_inv. exact Hi.
  - exact Hi.
Qed.

Lemma commandLoop_inv : forall n (w : world H),
  sessionInv srv (sess w) -> sessionInv srv (sess (snd (commandLoop srv n w))).
Proof.
  induction n as [| n IH]; intros w Hi; [exact Hi |].
  cbn [commandLoop]. unfold bind.
  pose proof (@commandStep_inv w Hi) as Hs.
  destruct (commandStep srv w) as [[|] w']; [exact Hs |].
  apply IH. exact Hs.
Qed.

Lemma newSession_inv (input : bytes) : sessionInv srv (newSession input).
Proof.
  unfold sessionInv, newSession. cbn. repeat split; intros; try lia; try discriminate.
Qed.

(** The invariant holds all along a connection. *)
Lemma handleConn_inv (remoteAddr input : bytes) (n : nat) (w : world H) :
  sess w = newSession input ->
  sessionInv srv (sess (snd (handleConn srv remoteAddr n w))).
Proof.
  intros Hs. pose proof (newSession_inv input) as Hi. rewrite <- Hs in Hi.
  unfold handleConn, bind.
  assert (Hmulti : forall code lines (w0 : world H),
            sessionInv srv (sess w0) ->
            sessionInv srv (sess (snd (replyMulti code lines w0)))).
  { intros code lines w0 Hi0. unfold replyMulti, modifyS. exact Hi0. }
  destruct (connHandler srv) as [h |].
  - unfold call. destruct (h (app w) remoteAddr) as [[[e |] |] a']; cbv beta iota.
    + exact Hi.
    + exact Hi.
    + apply commandLoop_inv. exact Hi.
  - unfold ret at 1. cbv beta iota. apply commandLoop_inv. exact Hi.
Qed.

(** X2: no session ever holds more recipients than the limit of the server
    (none when the limit is not positive): this holds of a new
    connection after any number of commands, whatever the client sends. *)
Theorem recipients_within_limit (remoteAddr input : bytes) (n : nat) (a : H) (t : nat) :
  Z.of_nat (length (forwardPaths
     (sess (snd (handleConn srv remoteAddr n (mkWorld (newSession input) a t))))))
  <= Z.max 0 (maxRecipients srv).
Proof.
  exact (proj1 (@handleConn_inv remoteAddr input n (mkWorld (newSession input) a t) eq_refl)).
Qed.

(** X3: in submission mode a session is in a mail transaction only when it
    is authenticated: this holds of a new connection after any number of
    commands, whatever the client sends. *)
Theorem submission_needs_authentication (remoteAddr input : bytes) (n : nat)
  (a : H) (t : nat) :
  submissionMode srv = true ->
  let s' := sess (snd (handleConn srv remoteAddr n (mkWorld (newSession input) a t))) in
  stateNum stateMail <= stateNum (state s') ->
  authenticated s' = true.
Proof.
  intros Hsub s' Hst.
  destruct (@handleConn_inv remoteAddr input n (mkWorld (newSession input) a t) eq_refl)
    as (_ & I2 & _).
  now apply I2.
Qed.

(** X4: a session is authenticated only when the AuthHandler has accepted
    credentials: with a server that has no AuthHandler, or one that
    accepts nothing, no session is ever authenticated, whatever the
    client sends. *)
Theorem authentication_needs_handler (remoteAddr input : bytes) (n : nat)
  (a : H) (t : nat) :
  rejecting srv ->
  authenticated (sess (snd (handleConn srv remoteAddr n (mkWorld (newSession input) a t))))
  = false.
Proof.
  intros Hrej.
  destruct (@handleConn_inv remoteAddr input n (mkWorld (newSession input) a t) eq_refl)
    as (_ & _ & _ & _ & _ & I6).
  now apply I6.
Qed.

(** X5: between two commands a session that is not in a transaction holds
    nothing of a transaction (no reverse path, no recipient, no BDAT
    chunk); a session in the state Rcpt has at least one recipient; and
    no session is left in the state Data. *)
Theorem transaction_shape (remoteAddr input : bytes) (n : nat) (a : H) (t : nat) :
  let s' := sess (snd (handleConn srv remoteAddr n (mkWorld (newSession input) a t))) in
  (stateNum (state s') <= stateNum stateGreeted ->
   reversePath s' = ReversePathZero /\ forwardPaths s' = [] /\ bdatBuffer s' = [])
  /\ (stateNum stateRcpt <= stateNum (state s') -> forwardPaths s' <> [])
  /\ state s' <> stateData.
Proof.
  destruct (@handleConn_inv remoteAddr input n (mkWorld (newSession input) a t) eq_refl)
    as (_ & _ & I3 & I4 & I5 & _).
  cbv zeta. auto.
Qed.

End InvProofs.

(** ** AUTH LOGIN, from the client's mechanism to the AuthHandler *)

Section Base64More.
Import base64.

Lemma filter_id_forallb (A : Type) (f : A -> bool) (l : list A) :
  filter f l = l -> forallb f l = true.
Proof.
  induction l as [| x l IH]; [reflexivity |]. simpl.
  destruct (f x) eqn:E.
  - intros [= Hl]. now apply IH.
  - intros Hl. pose proof (filter_length_le f l) as Hle.
    rewrite Hl in Hle. simpl in Hle. lia.
Qed.

Lemma Encode_noLF (src : bytes) : textproto.noLF (EncodeToString src) = true.
Proof.
  pose proof (@filter_id_forallb _ _ _ (Encode_no_newline src)) as Hf.
  unfold textproto.noLF. rewrite forallb_forall in *.
  intros x Hx. specialize (Hf x Hx).
  apply negb_true_iff in Hf. apply orb_false_iff in Hf as [_ Hf].
  now rewrite Hf.
Qed.

(** Four characters for every three octets, the last group padded. *)
Lemma Encode_length (src : bytes) :
  3 * length (EncodeToString src) <= 4 * (length src + 2).
Proof.
  induction src as [| b0 | b0 b1 | b0 b1 b2 rest IH] using list_ind3;
    cbn [EncodeToString length] in *; lia.
Qed.

Lemma Encode_not_star (src : bytes) :
  bytes_eqb (EncodeToString src) (bs "*") = false.
Proof.
  destruct src as [| b0 [| b1 [| b2 rest]]]; cbn [EncodeToString bytes_eqb bs];
    try reflexivity; simpl; now rewrite andb_false_r.
Qed.




End Base64More.

Section LoginProofs.
Import smtp smtpserver.
Context {ext : Externals} {H : Type}.
Variable srv : Server H.
Local Open Scope Z_scope.

Lemma reply_plain (code : ReplyCode) (msg : bytes) (w : world H) :
  reply code EnhancedCodeZero msg w
  = (tt, withOutput (textproto.WriteReply_bytes code [msg]) w).
Proof. reflexivity. Qed.

(** [readLine] on an input that begins with a line and CRLF. *)
Lemma readLine_CRLF (line rest : bytes) (w : world H) :
  textproto.noLF line = true ->
  Z.of_nat (length line) + 2 <= textproto.MaxCommandLineLen ->
  textproto.r (conn (sess w)) = line ++ CRLF ++ rest ->
  readLine w = (inl line, withInput rest w).
Proof.
  intros Hno Hlen Hr. unfold readLine. rewrite Hr.
  rewrite ReadLine_CRLF by assumption. reflexivity.
Qed.

Lemma readLine_base64 (src rest : bytes) (w : world H) :
  (length src <= 381)%nat ->
  textproto.r (conn (sess w)) = base64.EncodeToString src ++ CRLF ++ rest ->
  readLine w = (inl (base64.EncodeToString src), withInput rest w).
Proof.
  intros Hlen Hr. apply readLine_CRLF; [apply Encode_noLF | | exact Hr].
  pose proof (Encode_length src). unfold textproto.MaxCommandLineLen. lia.
Qed.

(** [AUTH LOGIN] with the two answers of the client's LOGIN mechanism
    in the stream, once the command line has been read. *)
Lemma handleAUTH_LOGIN (a : loginAuth)
  (h : H -> bytes -> bytes -> bytes -> option handlerError * H)
  (w : world H) (rest : bytes) :
  step a = 0 ->
  (length (login_username a) <= 381)%nat ->
  (length (login_password a) <= 381)%nat ->
  authHandler srv = Some h ->
  state (sess w) = stateGreeted ->
  authenticated (sess w) = false ->
  exists a1 a2,
    loginAuth_Next a (bs "Username:") = (inl (login_username a), a1)
    /\ loginAuth_Next a1 (bs "Password:") = (inl (login_password a), a2)
    /\ forall err app',
         textproto.r (conn (sess w))
         = stream [base64.EncodeToString (login_username a);
                   base64.EncodeToString (login_password a)] ++ rest ->
         h (app w) (bs "LOGIN") (login_username a) (login_password a) = (err, app') ->
         let w1 := withOutput (bs "334 VXNlcm5hbWU6" ++ CRLF ++ bs "334 UGFzc3dvcmQ6" ++ CRLF)
                     (withInput rest (mkWorld (sess w) app' (ticks w))) in
         handleAUTH srv (bs "LOGIN") w
         = match err with
           | None =>
               (tt, withOutput (bs "235 2.0.0 Authentication successful" ++ CRLF)
                      (mkWorld (set_authenticated true (sess w1)) (app w1) (ticks w1)))
           | Some e =>
               replyError e 535 (mkEnhancedCode 5 7 8) (bs "Authentication failed") w1
           end.
Proof.
  intros Hstep Hu Hp Hh Hst Hauth.
  destruct a as [user pass st]. cbn [step login_username login_password] in *. subst st.
  eexists. eexists. split; [reflexivity |]. split; [reflexivity |].
  intros err app' Hr Hcall.
  unfold handleAUTH. rewrite Hh. unfold bind at 1. unfold getS at 1.
  rewrite Hst, Hauth. cbn [stateNum Z.ltb Z.geb Z.compare Pos.compare Pos.compare_cont].
  assert (Hcut : strings.Cut (bs "LOGIN") " " = (bs "LOGIN", [], false)) by reflexivity.
  rewrite Hcut.
  assert (Hup : strings.ToUpper (bs "LOGIN") = bs "LOGIN") by reflexivity.
  rewrite Hup.
  change (bytes_eqb (bs "LOGIN") (bs "PLAIN")) with false.
  change (bytes_eqb (bs "LOGIN") (bs "LOGIN")) with true. cbv iota.
  unfold authLOGIN, bind.
  rewrite reply_plain.
  unfold stream in Hr. cbn [map concat] in Hr. rewrite app_nil_r, <- !app_assoc in Hr.
  rewrite (@readLine_base64 user
             (base64.EncodeToString pass ++ CRLF ++ rest)).
  2: exact Hu.
  2: { cbn. exact Hr. }
  rewrite Encode_not_star, DecodeString_EncodeToString.
  rewrite reply_plain.
  rewrite (@readLine_base64 pass rest).
  2: exact Hp.
  2: reflexivity.
  rewrite Encode_not_star, DecodeString_EncodeToString.
  assert (Hc1 : textproto.WriteReply_bytes ReplyAuthContinue
                  [base64.EncodeToString (bs "Username:")]
                = bs "334 VXNlcm5hbWU6" ++ CRLF) by (vm_compute; reflexivity).
  assert (Hc2 : textproto.WriteReply_bytes ReplyAuthContinue
                  [base64.EncodeToString (bs "Password:")]
                = bs "334 UGFzc3dvcmQ6" ++ CRLF) by (vm_compute; reflexivity).
  rewrite Hc1, Hc2.
  assert (Hc3 : replyBytes ReplyAuthOK EnhancedCodeOK (bs "Authentication successful")
                = bs "235 2.0.0 Authentication successful" ++ CRLF)
    by (vm_compute; reflexivity).
  set (c1 := bs "334 VXNlcm5hbWU6" ++ CRLF) in *.
  set (c2 := bs "334 UGFzc3dvcmQ6" ++ CRLF) in *.
  assert (Hw : forall a0 : H,
    withInput rest (withOutput c2 (withInput (base64.EncodeToString pass ++ CRLF ++ rest)
                                     (withOutput c1 (mkWorld (sess w) a0 (ticks w)))))
    = withOutput (c1 ++ c2) (withInput rest (mkWorld (sess w) a0 (ticks w)))).
  { intros a0. unfold withInput, withOutput.
    cbn [sess app ticks conn set_conn textproto.r textproto.w].
    now rewrite <- app_assoc. }
  unfold authenticate, bind, call.
  assert (Happ : app (withInput rest (withOutput c2
                   (withInput (base64.EncodeToString pass ++ CRLF ++ rest)
                      (withOutput c1 w)))) = app w) by reflexivity.
  rewrite Happ, Hcall.
  assert (Hw' : mkWorld (sess (withInput rest (withOutput c2
                   (withInput (base64.EncodeToString pass ++ CRLF ++ rest)
                      (withOutput c1 w))))) app'
                  (ticks (withInput rest (withOutput c2
                   (withInput (base64.EncodeToString pass ++ CRLF ++ rest)
                      (withOutput c1 w)))))
                = withOutput (c1 ++ c2) (withInput rest (mkWorld (sess w) app' (ticks w)))).
  { rewrite <- Hw. reflexivity. }
  rewrite Hw'.
  destruct err as [e |].
  - reflexivity.
  - unfold modifyS. cbv beta iota.
    rewrite reply_withOutput by reflexivity. rewrite Hc3.
    reflexivity.
Qed.

End LoginProofs.


(** ** The client's MAIL and RCPT commands, as the server reads them *)

Section EnvelopeProofs.
Import smtp smtpserver.
Context {ext : Externals} {H : Type}.
Variable srv : Server H.
Local Open Scope Z_scope.

Lemma forallb_isASCII_app (a b : bytes) :
  forallb strings.isASCII (a ++ b) = forallb strings.isASCII a && forallb strings.isASCII b.
Proof. apply forallb_app. Qed.

Lemma paramsForm_app (a b : bytes) :
  smtpclient.paramsForm a -> smtpclient.paramsForm b -> smtpclient.paramsForm (a ++ b).
Proof.
  intros [-> | [t ->]] Hb; [exact Hb |]. right. exists (t ++ b). reflexivity.
Qed.

Lemma Mail_cmd_form (from : bytes) (mo : smtpclient.mailOptions) :
  exists opts, smtpclient.Mail_cmd from mo = bs "MAIL FROM:<" ++ from ++ ">" :: opts
               /\ smtpclient.paramsForm opts.
Proof.
  unfold smtpclient.Mail_cmd. eexists. split; [reflexivity |].
  repeat apply paramsForm_app;
    match goal with
    | |- smtpclient.paramsForm (if ?c then _ else _) => destruct c; [right; eexists; reflexivity | now left]
    end.
Qed.

Lemma Rcpt_cmd_form (to : bytes) (ro : smtpclient.rcptOptions) :
  exists opts, smtpclient.Rcpt_cmd to ro = bs "RCPT TO:<" ++ to ++ ">" :: opts
               /\ smtpclient.paramsForm opts.
Proof.
  unfold smtpclient.Rcpt_cmd. eexists. split; [reflexivity |].
  repeat apply paramsForm_app;
    match goal with
    | |- smtpclient.paramsForm (if ?c then _ else _) => destruct c; [right; eexists; reflexivity | now left]
    end.
Qed.

(** The path is cut off the parameters at the first space. *)
Lemma Cut_path (path opts : bytes) :
  without " " path = true -> smtpclient.paramsForm opts ->
  exists after found,
    strings.Cut ("<" :: path ++ ">" :: opts) " " = ("<" :: path ++ [">"], after, found).
Proof.
  intros Hw Hopts.
  assert (Hw' : without " " ("<" :: path ++ [">"]) = true).
  { change ("<" :: path ++ [">"]) with (["<"] ++ path ++ [">"]).
    rewrite !without_app, Hw. reflexivity. }
  destruct Hopts as [-> | [t ->]].
  - exists [], false. now apply Cut_not_found.
  - exists t, true.
    replace ("<" :: path ++ ">" :: " " :: t) with (("<" :: path ++ [">"]) ++ " " :: t)
      by (cbn; now rewrite <- app_assoc).
    now apply Cut_found.
Qed.

Lemma ToUpper_ASCII (s : bytes) :
  forallb strings.isASCII s = true -> strings.ToUpper s = map strings.upperByte s.
Proof. intros Hs. unfold strings.ToUpper. now rewrite Hs. Qed.

(** The command [MAIL FROM:<from>] with its parameters, as
    [Client.Mail] builds it, once the line has been read. *)
Lemma handleLine_Mail_cmd (from : bytes) (mo : smtpclient.mailOptions) (m : Mailbox)
  (w : world H) :
  ParseMailbox from = inl m ->
  without " " from = true ->
  forallb strings.isASCII (smtpclient.Mail_cmd from mo) = true ->
  strings.ContainsNUL (smtpclient.Mail_cmd from mo) = false ->
  state (sess w) = stateGreeted ->
  submissionMode srv && negb (authenticated (sess w)) = false ->
  forall err app',
    match mailHandler srv with
    | Some h => h (app w) (mkReversePath m false)
    | None => (None, app w)
    end = (err, app') ->
    handleLine srv (smtpclient.Mail_cmd from mo) w
    = (false,
       match err with
       | None =>
           withOutput (bs "250 2.1.0 Originator ok" ++ CRLF)
             (mkWorld (set_state stateMail
                         (set_forwardPaths [] (set_reversePath (mkReversePath m false) (sess w))))
                      app' (ticks w))
       | Some e => snd (replyInternalError e (mkWorld (sess w) app' (ticks w)))
       end).
Proof.
  intros Hp Hsp Hascii Hnul Hst Hsub err app' Hcall.
  destruct (Mail_cmd_form from mo) as (opts & Hcmd & Hopts).
  rewrite Hcmd in *. clear Hcmd.
  unfold handleLine. rewrite Hnul.
  set (args := bs "FROM:<" ++ from ++ ">" :: opts).
  assert (Hpc : parseCommand (bs "MAIL FROM:<" ++ from ++ ">" :: opts) = (bs "MAIL", args)).
  { unfold parseCommand.
    change (bs "MAIL FROM:<" ++ from ++ ">" :: opts) with (bs "MAIL" ++ " " :: args).
    rewrite Cut_found by reflexivity. reflexivity. }
  rewrite Hpc.
  assert (Hd : dispatch srv (bs "MAIL") args w
               = bind (handleMAIL srv args) (fun _ => ret false) w) by reflexivity.
  rewrite Hd. unfold bind at 1.
  assert (Hargs : forallb strings.isASCII args = true).
  { change (bs "MAIL FROM:<" ++ from ++ ">" :: opts) with (bs "MAIL " ++ args) in Hascii.
    rewrite forallb_isASCII_app in Hascii. now apply andb_true_iff in Hascii as [_ ?]. }
  unfold handleMAIL, bind, getS. rewrite Hst.
  cbn [stateNum Z.ltb Z.geb Z.compare Pos.compare Pos.compare_cont].
  rewrite Hsub. rewrite (ToUpper_ASCII _ Hargs).
  assert (Hpre : strings.HasPrefix (map strings.upperByte args) (bs "FROM:") = true)
    by reflexivity.
  rewrite Hpre. cbn [negb]. cbv iota.
  change (skipn 5 args) with ("<" :: from ++ ">" :: opts).
  destruct (@Cut_path _ _ Hsp Hopts) as (after & found & ->).
  rewrite TrimSpace_brackets.
  destruct (Parse_brackets _ Hp) as [-> _].
  destruct (mailHandler srv) as [h |].
  - unfold call. rewrite Hcall. destruct err as [e |].
    + destruct (replyInternalError e _) as [[] w']. reflexivity.
    + unfold modifyS. cbv beta iota. rewrite reply_withOutput by reflexivity.
      reflexivity.
  - unfold ret at 1. injection Hcall as <- <-.
    unfold modifyS. cbv beta iota. rewrite reply_withOutput by reflexivity.
    destruct w; reflexivity.
Qed.

(** The command [RCPT TO:<to>] with its parameters, as [Client.Rcpt]
    builds it, once the line has been read. *)
Lemma handleLine_Rcpt_cmd (to : bytes) (ro : smtpclient.rcptOptions) (m : Mailbox)
  (w : world H) :
  ParseMailbox to = inl m ->
  without " " to = true ->
  forallb strings.isASCII (smtpclient.Rcpt_cmd to ro) = true ->
  strings.ContainsNUL (smtpclient.Rcpt_cmd to ro) = false ->
  state (sess w) = stateMail \/ state (sess w) = stateRcpt ->
  Z.of_nat (length (forwardPaths (sess w))) < maxRecipients srv ->
  forall err app',
    match rcptHandler srv with
    | Some h => h (app w) (mkForwardPath m)
    | None => (None, app w)
    end = (err, app') ->
    handleLine srv (smtpclient.Rcpt_cmd to ro) w
    = (false,
       match err with
       | None =>
           withOutput (bs "250 2.1.5 Recipient ok" ++ CRLF)
             (mkWorld (set_state stateRcpt
                         (set_forwardPaths (forwardPaths (sess w) ++ [mkForwardPath m]) (sess w)))
                      app' (ticks w))
       | Some e => snd (replyInternalError e (mkWorld (sess w) app' (ticks w)))
       end).
Proof.
  intros Hp Hsp Hascii Hnul Hst Hroom err app' Hcall.
  destruct (Rcpt_cmd_form to ro) as (opts & Hcmd & Hopts).
  rewrite Hcmd in *. clear Hcmd.
  unfold handleLine. rewrite Hnul.
  set (args := bs "TO:<" ++ to ++ ">" :: opts).
  assert (Hpc : parseCommand (bs "RCPT TO:<" ++ to ++ ">" :: opts) = (bs "RCPT", args)).
  { unfold parseCommand.
    change (bs "RCPT TO:<" ++ to ++ ">" :: opts) with (bs "RCPT" ++ " " :: args).
    rewrite Cut_found by reflexivity. reflexivity. }
  rewrite Hpc.
  assert (Hd : dispatch srv (bs "RCPT") args w
               = bind (handleRCPT srv args) (fun _ => ret false) w) by reflexivity.
  rewrite Hd. unfold bind at 1.
  assert (Hargs : forallb strings.isASCII args = true).
  { change (bs "RCPT TO:<" ++ to ++ ">" :: opts) with (bs "RCPT " ++ args) in Hascii.
    rewrite forallb_isASCII_app in Hascii. now apply andb_true_iff in Hascii as [_ ?]. }
  unfold handleRCPT, bind, getS.
  assert (Hst1 : (stateNum (state (sess w)) <? stateNum stateMail) = false)
    by (destruct Hst as [-> | ->]; reflexivity).
  rewrite Hst1.
  assert (Hroom' : (Z.of_nat (length (forwardPaths (sess w))) >=? maxRecipients srv) = false)
    by (rewrite Z.geb_leb; apply Z.leb_gt; exact Hroom).
  rewrite Hroom'. rewrite (ToUpper_ASCII _ Hargs).
  assert (Hpre : strings.HasPrefix (map strings.upperByte args) (bs "TO:") = true)
    by reflexivity.
  rewrite Hpre. cbn [negb]. cbv iota.
  change (skipn 3 args) with ("<" :: to ++ ">" :: opts).
  destruct (@Cut_path _ _ Hsp Hopts) as (after & found & ->).
  rewrite TrimSpace_brackets.
  destruct (Parse_brackets _ Hp) as [_ ->].
  assert (Hfin : forall a0 : H,
    (let '(_, w') := modifyS (fun s => let s0 := set_forwardPaths (forwardPaths s ++ [mkForwardPath m]) s in
               if stateNum (state s0) <? stateNum stateRcpt then set_state stateRcpt s0 else s0)
              (mkWorld (sess w) a0 (ticks w)) in
     reply ReplyOK EnhancedCodeDestValid (bs "Recipient ok") w')
    = (tt, withOutput (bs "250 2.1.5 Recipient ok" ++ CRLF)
             (mkWorld (set_state stateRcpt
                         (set_forwardPaths (forwardPaths (sess w) ++ [mkForwardPath m]) (sess w)))
                      a0 (ticks w)))).
  { intros a0. unfold modifyS. cbv beta iota zeta. rewrite reply_withOutput by reflexivity.
    cbn [sess app ticks state set_forwardPaths].
    destruct Hst as [Hs | Hs]; rewrite Hs; cbn; [reflexivity |].
    destruct (sess w); cbn in *; subst; reflexivity. }
  destruct (rcptHandler srv) as [h |].
  - unfold call. rewrite Hcall. destruct err as [e |].
    + destruct (replyInternalError e _) as [[] w']. reflexivity.
    + rewrite Hfin. reflexivity.
  - unfold ret at 1. injection Hcall as <- <-.
    replace w with (mkWorld (sess w) (app w) (ticks w)) at 1 by (destruct w; reflexivity).
    rewrite Hfin. reflexivity.
Qed.

End EnvelopeProofs.


(** ** BDAT, from the client's chunk to the server's buffer *)

Section BdatProofs.
Import smtp smtpserver.
Context {ext : Externals} {H : Type}.
Variable srv : Server H.
Local Open Scope Z_scope.

Lemma isDigit_facts (c : byte) :
  isDigit c = true ->
  strings.isASCII c = true /\ strings.asciiSpace c = false /\ Byte.eqb c NUL = false
  /\ Byte.eqb c " " = false.
Proof. destruct c; try discriminate; intros _; repeat split; reflexivity. Qed.

Lemma digits_forallb (P : byte -> bool) (s : bytes) :
  (forall c, isDigit c = true -> P c = true) ->
  forallb isDigit s = true -> forallb P s = true.
Proof.
  intros HP. induction s as [| c s IH]; [reflexivity |]. simpl.
  intros Hs. apply andb_true_iff in Hs as [Hc Hs]. now rewrite HP, IH.
Qed.

Lemma fieldsASCII_digits (d : bytes) : forall cur tail,
  forallb isDigit d = true ->
  strings.fieldsASCII (d ++ tail) (Some cur) = strings.fieldsASCII tail (Some (cur ++ d)).
Proof.
  induction d as [| c d IH]; intros cur tail Hd; simpl.
  - now rewrite app_nil_r.
  - simpl in Hd. apply andb_true_iff in Hd as [Hc Hd].
    destruct (isDigit_facts _ Hc) as (_ & -> & _).
    rewrite IH by assumption. now rewrite <- app_assoc.
Qed.

(** The size of a chunk, as [Client.Bdat] prints it: digits. *)
Lemma size_digits (n : nat) :
  exists c d, fmt.d (Z.of_nat n) = c :: d /\ forallb isDigit (c :: d) = true.
Proof.
  destruct (@fmt_d_nonneg (Z.of_nat n) ltac:(lia)) as (u & Hu & _ & Hnil).
  pose proof (uint_bytes_digits u) as Hd. rewrite <- Hu in Hd.
  destruct (fmt.d (Z.of_nat n)) as [| c d] eqn:E.
  - destruct u; try discriminate. contradiction.
  - eauto.
Qed.

Lemma Fields_Bdat (n : nat) (last : bool) :
  strings.Fields (fmt.d (Z.of_nat n) ++ (if last then bs " LAST" else []))
  = fmt.d (Z.of_nat n) :: (if last then [bs "LAST"] else []).
Proof.
  destruct (size_digits n) as (c & d & E & Hd). rewrite E.
  pose proof Hd as Hd0. cbn [forallb] in Hd0. apply andb_true_iff in Hd0 as [Hc Hd'].
  destruct (isDigit_facts _ Hc) as (Hasc & Hsp & _).
  unfold strings.Fields.
  assert (Hall : forallb strings.isASCII
                   ((c :: d) ++ (if last then bs " LAST" else [])) = true).
  { rewrite forallb_app. apply andb_true_iff. split.
    - apply digits_forallb with (2 := Hd). intros x Hx. now apply isDigit_facts.
    - destruct last; reflexivity. }
  rewrite Hall. rewrite <- app_comm_cons. cbn [strings.fieldsASCII]. rewrite Hsp.
  rewrite fieldsASCII_digits by assumption.
  destruct last; reflexivity.
Qed.

Lemma ContainsNUL_Bdat (data : bytes) (last : bool) :
  strings.ContainsNUL (smtpclient.Bdat_cmd data last) = false.
Proof.
  unfold smtpclient.Bdat_cmd, strings.ContainsNUL.
  rewrite !existsb_app. destruct (size_digits (length data)) as (c & d & -> & Hd).
  assert (Hn : existsb (fun x => Byte.eqb x NUL) (c :: d) = false).
  { clear -Hd. induction (c :: d) as [| x l IH]; [reflexivity |].
    simpl in *. apply andb_true_iff in Hd as [Hx Hl].
    destruct (isDigit_facts _ Hx) as (_ & _ & -> & _). now apply IH. }
  rewrite Hn. destruct last; reflexivity.
Qed.

Lemma replyBytes_OK (msg : bytes) :
  replyBytes ReplyOK EnhancedCodeOK msg = bs "250 2.0.0 " ++ msg ++ CRLF.
Proof.
  unfold replyBytes, textproto.WriteReply_bytes. cbn [textproto.WriteReply_loop].
  unfold textproto.replyLine.
  change (fmt.d ReplyOK) with (bs "250").
  change (EnhancedCode_String EnhancedCodeOK) with (bs "2.0.0").
  rewrite app_nil_r, <- !app_assoc. reflexivity.
Qed.

(** The command [BDAT <size> [LAST]] of [Client.Bdat], once the line has
    been read: the chunk is taken from the stream and added to the
    buffer; a chunk that is not the last one is answered 250 with its
    size; after the last one the DataHandler is run on the buffer, its
    result decides the reply, and the transaction is cleared. *)
Lemma handleLine_Bdat_cmd (data rest : bytes) (last : bool) (w : world H) :
  fmt_Sscanf_d (fmt.d (Z.of_nat (length data))) = Some (Z.of_nat (length data)) ->
  stateNum stateRcpt <= stateNum (state (sess w)) ->
  textproto.r (conn (sess w)) = data ++ rest ->
  if last then
    forall err app',
      match dataHandler srv with
      | Some h => fst (runPlan stringsReader_Read
                         (h (app w) (reversePath (sess w)) (forwardPaths (sess w)))
                         (bdatBuffer (sess w) ++ data))
      | None => (None, app w)
      end = (err, app') ->
      handleLine srv (smtpclient.Bdat_cmd data last) w
      = (false,
         mkWorld
           (sessionAfter (sess w) rest
              (textproto.w (conn (sess w))
                 ++ match err with
                    | None => bs "250 2.0.0 Message accepted" ++ CRLF
                    | Some e => errorOctets e (bs "451 4.4.0 Internal error" ++ CRLF)
                    end)
              stateGreeted (authenticated (sess w)) ReversePathZero [] [])
           (match resetHandler srv with Some h => h app' | None => app' end)
           (ticks w))
  else
    handleLine srv (smtpclient.Bdat_cmd data last) w
    = (false,
       mkWorld
         (sessionAfter (sess w) rest
            (textproto.w (conn (sess w))
               ++ bs "250 2.0.0 " ++ fmt.d (Z.of_nat (length data))
               ++ bs " bytes received" ++ CRLF)
            (state (sess w)) (authenticated (sess w))
            (reversePath (sess w)) (forwardPaths (sess w)) (bdatBuffer (sess w) ++ data))
         (app w) (ticks w)).
Proof.
  intros Hscan Hst Hr.
  set (buffered :=
    mkWorld (set_bdatBuffer (bdatBuffer (sess w) ++ data)
               (set_conn (textproto.mkConn rest (textproto.w (conn (sess w)))) (sess w)))
            (app w) (ticks w)).
  set (args := fmt.d (Z.of_nat (length data)) ++ (if last then bs " LAST" else [])).
  assert (Hline : handleLine srv (smtpclient.Bdat_cmd data last) w
                  = bind (handleBDAT srv args) (fun _ => ret false) w).
  { unfold handleLine. rewrite ContainsNUL_Bdat.
    unfold smtpclient.Bdat_cmd, parseCommand.
    change (bs "BDAT " ++ fmt.d (Z.of_nat (length data)) ++ (if last then bs " LAST" else []))
      with (bs "BDAT" ++ " " :: args).
    rewrite Cut_found by reflexivity. reflexivity. }
  assert (Hhead :     handleBDAT srv args w
    = bind (modifyS (fun s =>
              set_bdatBuffer (bdatBuffer s ++ data)
                (set_conn (textproto.mkConn rest (textproto.w (conn s))) s)))
        (fun _ =>
           if last then
             bind getS (fun s =>
               bind (match dataHandler srv with
                     | Some h =>
                         call (fun a =>
                           fst (runPlan stringsReader_Read
                                  (h a (reversePath s) (forwardPaths s)) (bdatBuffer s)))
                     | None => ret None
                     end)
                 (fun err =>
                    match err with
                    | Some e =>
                        bind (replyInternalError e)
                          (fun _ => bind (resetTransaction srv)
                                      (fun _ => modifyS (set_state stateGreeted)))
                    | None =>
                        bind (reply ReplyOK EnhancedCodeOK (bs "Message accepted"))
                          (fun _ => bind (resetTransaction srv)
                                      (fun _ => modifyS (set_state stateGreeted)))
                    end))
           else reply ReplyOK EnhancedCodeOK (fmt.d (Z.of_nat (length data)) ++ bs " bytes received")) w).
  { unfold handleBDAT at 1. unfold bind at 1. unfold getS at 1.
    apply Z.ltb_ge in Hst. rewrite Hst.
    subst args. rewrite Fields_Bdat. rewrite Hscan.
    assert (Hn0 : (Z.of_nat (length data) <? 0) = false) by (apply Z.ltb_ge; lia).
    rewrite Hn0.
    assert (Hlen : (Z.of_nat (length (textproto.r (conn (sess w)))) <? Z.of_nat (length data)) = false).
    { apply Z.ltb_ge. rewrite Hr, length_app. lia. }
    rewrite Hlen, andb_false_r.
    assert (Hto : Z.to_nat (Z.of_nat (length data)) = length data) by lia.
    rewrite Hto, Hr, firstn_app, skipn_app, Nat.sub_diag, firstn_all, skipn_all.
    cbn [firstn skipn app]. rewrite app_nil_r.
    destruct last; [| reflexivity].
    assert (Hup : bytes_eqb (strings.ToUpper (bs "LAST")) (bs "LAST") = true) by reflexivity.
    rewrite Hup. reflexivity. }
  destruct last; [intros err app' Hcall |];
    rewrite Hline; unfold bind at 1; rewrite Hhead;
    unfold bind at 1; unfold modifyS at 1; cbv beta iota; fold buffered.
  - unfold bind at 1. unfold getS at 1. unfold bind at 1.
    assert (Hh : (match dataHandler srv with
                  | Some h =>
                      call (fun a =>
                        fst (runPlan stringsReader_Read
                               (h a (reversePath (sess buffered)) (forwardPaths (sess buffered)))
                               (bdatBuffer (sess buffered))))
                  | None => ret None
                  end) buffered = (err, mkWorld (sess buffered) app' (ticks w))).
    { revert Hcall. destruct (dataHandler srv) as [h |]; intros Hcall.
      - unfold call. subst buffered. cbn [sess app ticks bdatBuffer reversePath forwardPaths
          set_bdatBuffer set_conn]. rewrite Hcall. reflexivity.
      - unfold ret. assert (He : err = None) by congruence.
        assert (Ha : app' = app w) by congruence. subst err app'.
        subst buffered. reflexivity. }
    rewrite Hh.
    destruct err as [e |]; unfold bind.
    + unfold replyInternalError. rewrite replyError_octets, resetTransaction_exact.
      reflexivity.
    + rewrite reply_octets, resetTransaction_exact. reflexivity.
  - cbv beta iota. rewrite reply_octets. unfold ret.
    assert (HOK : forall msg, replyOctets ReplyOK EnhancedCodeOK msg
                              = bs "250 2.0.0 " ++ msg ++ CRLF) by reflexivity.
    rewrite HOK, <- app_assoc. reflexivity.
Qed.

End BdatProofs.


Section CloseProofs.
Import textproto_dot.

(** X21: after [Close] nothing reaches the wire any more: every [Write]
    fails with [io.ErrClosedPipe] and writes nothing, every further
    [Close] does nothing; so whatever is done to the writer afterwards,
    what was sent is what had been sent when [Close] returned, and it
    ends with the terminator. *)
Theorem Close_final (d : dotWriter) (ops : list writerOp) :
  closed d = false ->
  let d' := snd (Close d) in
  fold_left applyOp ops d' = d'
  /\ (forall p, Write d' p = ((O, Some io_ErrClosedPipe), d'))
  /\ Close d' = (None, d')
  /\ exists sent, w d' = sent ++ ["."; CR; LF].
Proof.
  intros Hopen. cbv zeta.
  assert (Hc : closed (snd (Close d)) = true).
  { unfold Close. now rewrite Hopen. }
  assert (Hw : forall p, Write (snd (Close d)) p
                         = ((O, Some io_ErrClosedPipe), snd (Close d))).
  { intros p. unfold Write. now rewrite Hc. }
  assert (Hcl : Close (snd (Close d)) = (None, snd (Close d))).
  { unfold Close at 1. now rewrite Hc. }
  split; [| split; [exact Hw | split; [exact Hcl |]]].
  - induction ops as [| op ops IH]; [reflexivity |].
    cbn [fold_left]. destruct op as [p |]; cbn [applyOp].
    + rewrite Hw. exact IH.
    + rewrite Hcl. exact IH.
  - unfold Close. rewrite Hopen. cbn [snd w]. eexists. reflexivity.
Qed.

End CloseProofs.

(** ** conn.go: what ReadReply returns *)

Section ReadReplySound.
Import textproto.

Lemma ReadReply_loop_sound : forall fuel acc s reply rest,
  ReadReply_loop fuel acc s = Some (inl reply, rest) ->
  exists new consumed,
    Lines reply = acc ++ new /\ new <> [] /\
    Forall (fun l => noLF l = true) new /\
    s = consumed ++ rest /\ consumed <> [].
Proof.
  induction fuel as [| fuel IH]; intros acc s reply rest; [discriminate |].
  cbn [ReadReply_loop].
  destruct (ReadLine MaxReplyLineLen s) as [[line | e] r1] eqn:E; [| discriminate].
  destruct (ReadLine_returns _ _ E) as (term & Hs & Hterm & Hno & _).
  assert (Hcons : line ++ term <> []).
  { destruct Hterm as [-> | [-> | (-> & _ & Hne)]];
      try (intros Hc; apply app_eq_nil in Hc as [_ Hc]; discriminate).
    now rewrite app_nil_r. }
  destruct (length line <? 3)%nat; [discriminate |].
  destruct (strconv.Atoi (firstn 3 line)) as [code | e]; [| discriminate].
  assert (Htext : forall sep text, skipn 3 line = sep :: text -> noLF text = true).
  { intros sep text Hsk. pose proof (@noLF_skipn 3 _ Hno) as H3.
    rewrite Hsk in H3. simpl in H3. now apply andb_true_iff in H3 as [_ ?]. }
  destruct (skipn 3 line) as [| sep text] eqn:Esk.
  - intros [= <- <-]. exists [[]], (line ++ term). cbn [Lines].
    split; [reflexivity |]. split; [discriminate |].
    split; [repeat constructor |]. split; [| exact Hcons].
    now rewrite <- app_assoc.
  - specialize (Htext sep text eq_refl).
    destruct (Byte.eqb sep "-").
    + intros Hl. destruct (IH _ _ _ _ Hl) as (new & consumed & HL & _ & Hall & Hr1 & _).
      exists (text :: new), ((line ++ term) ++ consumed).
      rewrite HL, <- app_assoc. cbn [app].
      split; [reflexivity |]. split; [discriminate |].
      split; [now constructor |]. split.
      * rewrite Hs, Hr1, <- !app_assoc. reflexivity.
      * intros Hc. apply app_eq_nil in Hc as [Hc _]. contradiction.
    + destruct (Byte.eqb sep " "); [| discriminate].
      intros [= <- <-]. exists [text], (line ++ term). cbn [Lines].
      split; [reflexivity |]. split; [discriminate |].
      split; [now repeat constructor |]. split; [| exact Hcons].
      now rewrite <- app_assoc.
Qed.

(** X8: a reply that [ReadReply] returns has at least one line, its lines
    hold no LF, and it was read from the head of the stream: what is
    left is a proper suffix. *)
Theorem ReadReply_sound (s : bytes) (reply : Reply) (rest : bytes) :
  ReadReply s = (inl reply, rest) ->
  Lines reply <> []
  /\ Forall (fun l => noLF l = true) (Lines reply)
  /\ exists consumed, s = consumed ++ rest /\ consumed <> [].
Proof.
  unfold ReadReply.
  destruct (ReadReply_loop (S (length s)) [] s) as [[res r1] |] eqn:E; [| discriminate].
  intros [= -> ->].
  destruct (ReadReply_loop_sound _ _ _ E) as (new & consumed & HL & Hne & Hall & Hs & Hc).
  cbn [app] in HL. rewrite HL. eauto.
Qed.

End ReadReplySound.

(** ** Command verbs are not case-sensitive *)

Section VerbProofs.
Import smtp smtpserver.
Context {ext : Externals} {H : Type}.
Variable srv : Server H.

Lemma upperByte_facts (c : byte) :
  strings.upperByte (strings.upperByte c) = strings.upperByte c
  /\ strings.isASCII (strings.upperByte c) = strings.isASCII c
  /\ Byte.eqb (strings.upperByte c) NUL = Byte.eqb c NUL
  /\ Byte.eqb (strings.upperByte c) " " = Byte.eqb c " ".
Proof. destruct c; repeat split; reflexivity. Qed.

Lemma upper_map_facts (v : bytes) :
  map strings.upperByte (map strings.upperByte v) = map strings.upperByte v
  /\ forallb strings.isASCII (map strings.upperByte v) = forallb strings.isASCII v
  /\ existsb (fun c => Byte.eqb c NUL) (map strings.upperByte v)
     = existsb (fun c => Byte.eqb c NUL) v
  /\ without " " (map strings.upperByte v) = without " " v.
Proof.
  induction v as [| c v (IH1 & IH2 & IH3 & IH4)]; [repeat split; reflexivity |].
  destruct (upperByte_facts c) as (H1 & H2 & H3 & H4).
  cbn [map forallb existsb without]. unfold without in IH4.
  rewrite IH1, IH2, IH3, IH4, H1, H2, H3, H4. repeat split; reflexivity.
Qed.

(** X19: a command whose verb is written in ASCII letters of any case is
    handled as the command with the verb in upper case: [verb] is what
    stands before the first space of the line, [args] what follows it. *)
Theorem verb_case_insensitive (line verb args : bytes) (found : bool) (w : world H) :
  strings.Cut line " " = (verb, args, found) ->
  forallb strings.isASCII verb = true ->
  handleLine srv (map strings.upperByte verb ++ (if found then " " :: args else [])) w
  = handleLine srv line w.
Proof.
  intros Ec Hascii.
  destruct (Cut_sound _ _ Ec) as [Hw Hline].
  destruct (upper_map_facts verb) as (Hid & Hasc & Hnul & Hsp).
  unfold handleLine.
  assert (HN : strings.ContainsNUL
                 (map strings.upperByte verb ++ (if found then " " :: args else []))
               = strings.ContainsNUL line).
  { unfold strings.ContainsNUL. rewrite existsb_app, Hnul.
    destruct found; [subst line | destruct Hline as [-> ->]].
    - now rewrite existsb_app.
    - cbn [existsb]. now rewrite orb_false_r. }
  rewrite HN. destruct (strings.ContainsNUL line); [reflexivity |].
  assert (HP : parseCommand
                 (map strings.upperByte verb ++ (if found then " " :: args else []))
               = parseCommand line).
  { unfold parseCommand. rewrite Ec.
    assert (Hup : forall v, forallb strings.isASCII v = true ->
                    strings.ToUpper v = map strings.upperByte v).
    { intros v Hv. unfold strings.ToUpper. now rewrite Hv. }
    assert (Hw' : without " " (map strings.upperByte verb) = true) by congruence.
    destruct found.
    - rewrite Cut_found by exact Hw'.
      rewrite (Hup verb Hascii).
      rewrite Hup by (rewrite Hasc; exact Hascii). now rewrite Hid.
    - rewrite app_nil_r, Cut_not_found by exact Hw'.
      destruct Hline as [_ ->].
      rewrite (Hup verb Hascii).
      rewrite Hup by (rewrite Hasc; exact Hascii). now rewrite Hid. }
  now rewrite HP.
Qed.

End VerbProofs.


(** ** EHLO: what the server advertises and what the client understands *)

Section EhloProofs.
Import smtp smtpserver.
Context {ext : Externals} {H : Type}.
Variable srv : Server H.
Local Open Scope Z_scope.


End EhloProofs.

(** ** Commands of the client, from the wire to the session *)

Section WireProofs.
Import smtp smtpserver.
Context {ext : Externals} {H : Type}.
Variable srv : Server H.
Local Open Scope Z_scope.

(** One turn of the command loop on an input that begins with a line
    within the limit. *)
Lemma commandStep_line (line rest : bytes) (w : world H) :
  textproto.noLF line = true ->
  Z.of_nat (length line) + 2 <= textproto.MaxCommandLineLen ->
  textproto.r (conn (sess w)) = line ++ CRLF ++ rest ->
  commandStep srv w = handleLine srv line (withInput rest w).
Proof.
  intros Hno Hlen Hr. unfold commandStep, bind.
  rewrite readLine_CRLF with (1 := Hno) (2 := Hlen) (3 := Hr). reflexivity.
Qed.

Ltac world_norm :=
  unfold ret, withOutput, withInput, sessionAfter, set_conn, set_authenticated, set_state,
    set_forwardPaths, set_reversePath, set_bdatBuffer;
  cbn [snd sess app ticks conn textproto.r textproto.w state clientHostname esmtp tls
       authenticated invalidCmds reversePath forwardPaths bdatBuffer].

Lemma errorOctets_451 (e : handlerError) :
  errorOctets e (replyOctets ReplyLocalError EnhancedCodeOtherNetwork (bs "Internal error"))
  = errorOctets e (bs "451 4.4.0 Internal error" ++ CRLF).
Proof. reflexivity. Qed.

Lemma errorOctets_535 (e : handlerError) :
  errorOctets e (replyOctets 535 (mkEnhancedCode 5 7 8) (bs "Authentication failed"))
  = errorOctets e (bs "535 5.7.8 Authentication failed" ++ CRLF).
Proof. reflexivity. Qed.

(** X14: [Client.Mail] to the server.  The session is greeted and not
    in a transaction, and the server does not ask for authentication
    (it is not in submission mode, or the session is authenticated);
    [from] is a mailbox that [ParseMailbox] accepts and holds no space;
    the command line [Client.Mail] builds from it and the options is
    ASCII, holds no NUL and no LF and has at most 510 octets.  When that
    line and CRLF are next in the stream, one turn of the command loop
    reads exactly the line, calls the MailHandler (if there is one) with
    that mailbox as the reverse path, and goes on.  When the handler
    returns no error the reply is [250 2.1.0 Originator ok], the state
    is Mail, the reverse path is that mailbox and there is no recipient;
    when it returns an error the reply is that SMTPError on one line, or
    [451 4.4.0 Internal error], and the session is as it was.  The
    parameters of the command change nothing. *)
Theorem client_Mail_server (from : bytes) (mo : smtpclient.mailOptions) (m : Mailbox)
  (w : world H) (rest : bytes) :
  ParseMailbox from = inl m ->
  without " " from = true ->
  forallb strings.isASCII (smtpclient.Mail_cmd from mo) = true ->
  strings.ContainsNUL (smtpclient.Mail_cmd from mo) = false ->
  textproto.noLF (smtpclient.Mail_cmd from mo) = true ->
  Z.of_nat (length (smtpclient.Mail_cmd from mo)) + 2 <= textproto.MaxCommandLineLen ->
  state (sess w) = stateGreeted ->
  submissionMode srv && negb (authenticated (sess w)) = false ->
  textproto.r (conn (sess w)) = smtpclient.Mail_cmd from mo ++ CRLF ++ rest ->
  forall err app',
    match mailHandler srv with
    | Some h => h (app w) (mkReversePath m false)
    | None => (None, app w)
    end = (err, app') ->
    commandStep srv w
    = (false,
       mkWorld
         (match err with
          | None =>
              sessionAfter (sess w) rest
                (textproto.w (conn (sess w)) ++ bs "250 2.1.0 Originator ok" ++ CRLF)
                stateMail (authenticated (sess w)) (mkReversePath m false) []
                (bdatBuffer (sess w))
          | Some e =>
              sessionAfter (sess w) rest
                (textproto.w (conn (sess w))
                   ++ errorOctets e (bs "451 4.4.0 Internal error" ++ CRLF))
                stateGreeted (authenticated (sess w)) (reversePath (sess w))
                (forwardPaths (sess w)) (bdatBuffer (sess w))
          end)
         app' (ticks w)).
Proof.
  intros Hp Hsp Hascii Hnul Hno Hlen Hst Hsub Hr err app' Hcall.
  rewrite commandStep_line with (1 := Hno) (2 := Hlen) (3 := Hr).
  rewrite (@handleLine_Mail_cmd ext H srv from mo m (withInput rest w)
             Hp Hsp Hascii Hnul Hst Hsub err app' Hcall).
  destruct err as [e |].
  - unfold replyInternalError. rewrite replyError_octets, errorOctets_451.
    world_norm.
    rewrite Hst. reflexivity.
  - reflexivity.
Qed.

(** X15: [Client.Rcpt] to the server.  The session is in a transaction
    (state Mail or Rcpt) with fewer recipients than the limit; [to] is a
    mailbox that [ParseMailbox] accepts and holds no space; the command
    line [Client.Rcpt] builds from it and the options is ASCII, holds no
    NUL and no LF and has at most 510 octets.  When that line and CRLF
    are next in the stream, one turn of the command loop reads exactly
    the line, calls the RcptHandler (if there is one) with that mailbox
    as the forward path, and goes on.  When the handler returns no error
    the reply is [250 2.1.5 Recipient ok], the recipient is added after
    the ones already there and the state is Rcpt; when it returns an
    error the reply is that SMTPError on one line, or
    [451 4.4.0 Internal error], and the session is as it was. *)
Theorem client_Rcpt_server (to : bytes) (ro : smtpclient.rcptOptions) (m : Mailbox)
  (w : world H) (rest : bytes) :
  ParseMailbox to = inl m ->
  without " " to = true ->
  forallb strings.isASCII (smtpclient.Rcpt_cmd to ro) = true ->
  strings.ContainsNUL (smtpclient.Rcpt_cmd to ro) = false ->
  textproto.noLF (smtpclient.Rcpt_cmd to ro) = true ->
  Z.of_nat (length (smtpclient.Rcpt_cmd to ro)) + 2 <= textproto.MaxCommandLineLen ->
  state (sess w) = stateMail \/ state (sess w) = stateRcpt ->
  Z.of_nat (length (forwardPaths (sess w))) < maxRecipients srv ->
  textproto.r (conn (sess w)) = smtpclient.Rcpt_cmd to ro ++ CRLF ++ rest ->
  forall err app',
    match rcptHandler srv with
    | Some h => h (app w) (mkForwardPath m)
    | None => (None, app w)
    end = (err, app') ->
    commandStep srv w
    = (false,
       mkWorld
         (match err with
          | None =>
              sessionAfter (sess w) rest
                (textproto.w (conn (sess w)) ++ bs "250 2.1.5 Recipient ok" ++ CRLF)
                stateRcpt (authenticated (sess w)) (reversePath (sess w))
                (forwardPaths (sess w) ++ [mkForwardPath m]) (bdatBuffer (sess w))
          | Some e =>
              sessionAfter (sess w) rest
                (textproto.w (conn (sess w))
                   ++ errorOctets e (bs "451 4.4.0 Internal error" ++ CRLF))
                (state (sess w)) (authenticated (sess w)) (reversePath (sess w))
                (forwardPaths (sess w)) (bdatBuffer (sess w))
          end)
         app' (ticks w)).
Proof.
  intros Hp Hsp Hascii Hnul Hno Hlen Hst Hroom Hr err app' Hcall.
  rewrite commandStep_line with (1 := Hno) (2 := Hlen) (3 := Hr).
  rewrite (@handleLine_Rcpt_cmd ext H srv to ro m (withInput rest w)
             Hp Hsp Hascii Hnul Hst Hroom err app' Hcall).
  destruct err as [e |].
  - unfold replyInternalError. rewrite replyError_octets, errorOctets_451. reflexivity.
  - reflexivity.
Qed.

Lemma isDigit_not_LF (c : byte) : isDigit c = true -> negb (Byte.eqb c LF) = true.
Proof. destruct c; try discriminate; reflexivity. Qed.

Lemma noLF_Bdat_cmd (data : bytes) (last : bool) :
  textproto.noLF (smtpclient.Bdat_cmd data last) = true.
Proof.
  unfold smtpclient.Bdat_cmd. rewrite !noLF_app.
  destruct (size_digits (length data)) as (c & d & -> & Hd).
  assert (Hn : textproto.noLF (c :: d) = true).
  { unfold textproto.noLF. apply digits_forallb with (2 := Hd). apply isDigit_not_LF. }
  rewrite Hn. destruct last; reflexivity.
Qed.

(** X16: [Client.Bdat] to the server.  The session has at least one
    recipient (state Rcpt); [Sscanf] reads back the size that [%d]
    printed, and the command line [BDAT <size>] or [BDAT <size> LAST]
    has at most 510 octets.  When what [Client.Bdat] sends -- that line,
    CRLF, the octets of the chunk -- is next in the stream, one turn of
    the command loop reads the line and exactly the octets of the chunk,
    whatever they are, and goes on.  A chunk that is not the last one is
    added to the buffer and answered [250 2.0.0 <size> bytes received];
    nothing else changes.  After the last chunk the DataHandler (if
    there is one) is run with the envelope on a reader of the buffer
    followed by the chunk; the reply is [250 2.0.0 Message accepted]
    when it returns no error, that SMTPError on one line or
    [451 4.4.0 Internal error] when it returns one; then the envelope
    and the buffer are cleared, the ResetHandler (if there is one) is
    called and the state is Greeted. *)
Theorem client_Bdat_server (data rest : bytes) (last : bool) (w : world H) :
  fmt_Sscanf_d (fmt.d (Z.of_nat (length data))) = Some (Z.of_nat (length data)) ->
  Z.of_nat (length (smtpclient.Bdat_cmd data last)) + 2 <= textproto.MaxCommandLineLen ->
  stateNum stateRcpt <= stateNum (state (sess w)) ->
  textproto.r (conn (sess w)) = smtpclient.Bdat_wire data last ++ rest ->
  if last then
    forall err app',
      match dataHandler srv with
      | Some h => fst (runPlan stringsReader_Read
                         (h (app w) (reversePath (sess w)) (forwardPaths (sess w)))
                         (bdatBuffer (sess w) ++ data))
      | None => (None, app w)
      end = (err, app') ->
      commandStep srv w
      = (false,
         mkWorld
           (sessionAfter (sess w) rest
              (textproto.w (conn (sess w))
                 ++ match err with
                    | None => bs "250 2.0.0 Message accepted" ++ CRLF
                    | Some e => errorOctets e (bs "451 4.4.0 Internal error" ++ CRLF)
                    end)
              stateGreeted (authenticated (sess w)) ReversePathZero [] [])
           (match resetHandler srv with Some h => h app' | None => app' end)
           (ticks w))
  else
    commandStep srv w
    = (false,
       mkWorld
         (sessionAfter (sess w) rest
            (textproto.w (conn (sess w))
               ++ bs "250 2.0.0 " ++ fmt.d (Z.of_nat (length data))
               ++ bs " bytes received" ++ CRLF)
            (state (sess w)) (authenticated (sess w))
            (reversePath (sess w)) (forwardPaths (sess w)) (bdatBuffer (sess w) ++ data))
         (app w) (ticks w)).
Proof.
  intros Hscan Hlen Hst Hr.
  assert (Hr' : textproto.r (conn (sess w))
                = smtpclient.Bdat_cmd data last ++ CRLF ++ data ++ rest).
  { rewrite Hr. unfold smtpclient.Bdat_wire, textproto.WriteLine_bytes.
    now rewrite <- !app_assoc. }
  pose proof (@handleLine_Bdat_cmd ext H srv data rest last (withInput (data ++ rest) w)
                Hscan Hst eq_refl) as Hline.
  rewrite commandStep_line with (1 := noLF_Bdat_cmd data last) (2 := Hlen) (3 := Hr').
  destruct last.
  - intros err app' Hcall. exact (Hline err app' Hcall).
  - exact Hline.
Qed.

(** X17: the LOGIN mechanism of the client, to the server.  The
    mechanism is new (step 0), username and password have at most 381
    octets each (so that their base64 fits a line of 510 octets), the
    server has an AuthHandler, and the session is greeted, not in a
    transaction and not authenticated.  The mechanism has no initial
    response and answers its first two challenges with the username and
    the password.  When the line [AUTH LOGIN] and these two answers in
    base64, each followed by CRLF, are next in the stream, one turn of
    the command loop reads exactly these three lines, sends the
    challenges [334 VXNlcm5hbWU6] and [334 UGFzc3dvcmQ6], calls the
    AuthHandler with the mechanism LOGIN, the username and the password,
    and goes on.  When the handler returns no error the session is
    authenticated and the reply is [235 2.0.0 Authentication
    successful]; when it returns an error the session is not
    authenticated and the reply is that SMTPError on one line, or
    [535 5.7.8 Authentication failed].  Nothing else of the session
    changes. *)
Theorem login_auth_client_to_server (a : loginAuth)
  (h : H -> bytes -> bytes -> bytes -> option handlerError * H)
  (w : world H) (rest : bytes) :
  step a = 0 ->
  (length (login_username a) <= 381)%nat ->
  (length (login_password a) <= 381)%nat ->
  authHandler srv = Some h ->
  state (sess w) = stateGreeted ->
  authenticated (sess w) = false ->
  textproto.r (conn (sess w))
  = smtpclient_auth.Auth_cmd (loginAuth_Name a) (loginAuth_Start a) ++ CRLF
      ++ stream [base64.EncodeToString (login_username a);
                 base64.EncodeToString (login_password a)] ++ rest ->
  exists a1 a2,
    loginAuth_Next a (bs "Username:") = (inl (login_username a), a1)
    /\ loginAuth_Next a1 (bs "Password:") = (inl (login_password a), a2)
    /\ forall err app',
         h (app w) (bs "LOGIN") (login_username a) (login_password a) = (err, app') ->
         commandStep srv w
         = (false,
            mkWorld
              (sessionAfter (sess w) rest
                 (textproto.w (conn (sess w))
                    ++ bs "334 VXNlcm5hbWU6" ++ CRLF ++ bs "334 UGFzc3dvcmQ6" ++ CRLF
                    ++ match err with
                       | None => bs "235 2.0.0 Authentication successful" ++ CRLF
                       | Some e => errorOctets e (bs "535 5.7.8 Authentication failed" ++ CRLF)
                       end)
                 stateGreeted (match err with None => true | Some _ => false end)
                 (reversePath (sess w)) (forwardPaths (sess w)) (bdatBuffer (sess w)))
              app' (ticks w)).
Proof.
  intros Hstep Hu Hp Hh Hst Hauth Hr.
  set (answers := stream [base64.EncodeToString (login_username a);
                          base64.EncodeToString (login_password a)] ++ rest) in *.
  destruct (@handleAUTH_LOGIN ext H srv a h (withInput answers w) rest
              Hstep Hu Hp Hh Hst Hauth) as (a1 & a2 & H1 & H2 & Hrun).
  exists a1, a2. split; [exact H1 |]. split; [exact H2 |].
  intros err app' Hcall.
  assert (Hno : textproto.noLF (bs "AUTH LOGIN") = true) by reflexivity.
  assert (Hlen : Z.of_nat (length (bs "AUTH LOGIN")) + 2 <= textproto.MaxCommandLineLen)
    by (vm_compute; discriminate).
  rewrite commandStep_line with (1 := Hno) (2 := Hlen) (3 := Hr).
  assert (Hline : handleLine srv (bs "AUTH LOGIN") (withInput answers w)
                  = bind (handleAUTH srv (bs "LOGIN")) (fun _ => ret false)
                      (withInput answers w)) by reflexivity.
  rewrite Hline. unfold bind.
  rewrite (Hrun err app' eq_refl Hcall).
  destruct err as [e |].
  - rewrite replyError_octets, errorOctets_535.
    world_norm.
    rewrite Hst, Hauth, <- !app_assoc. reflexivity.
  - world_norm.
    rewrite Hst, <- !app_assoc. reflexivity.
Qed.


End WireProofs.

(** ** Examples for the properties of Part III *)

Section MoreExamples.
Import smtp smtpserver textproto_dot.
Local Existing Instance sampleExternals.
Local Open Scope Z_scope.

Lemma DATA_consumes_body_witness :
  exists out a,
    handleDATA relayServer
      (sampleWorld stateRcpt (DotWriter_wire (bs "hi") ++ bs "QUIT" ++ CRLF))
    = (tt, mkWorld (afterTransaction (bs "QUIT" ++ CRLF) ([] ++ out)
                      (sess (sampleWorld stateRcpt
                               (DotWriter_wire (bs "hi") ++ bs "QUIT" ++ CRLF))))
                   a 0%nat).
Proof.
  apply (@DATA_consumes_body unit relayServer (bs "hi") (bs "QUIT" ++ CRLF)
           (sampleWorld stateRcpt (DotWriter_wire (bs "hi") ++ bs "QUIT" ++ CRLF))).
  - vm_compute. discriminate.
  - reflexivity.
Defined.

Lemma submission_needs_authentication_witness :
  submissionMode submissionServer = true
  /\ authenticated
       (sess (snd (handleConn submissionServer (bs "192.0.2.1") 3%nat
                     (mkWorld (newSession
                                 (stream [bs "EHLO client.test";
                                          bs "AUTH PLAIN AHRlc3R1c2VyAHRlc3RwYXNz";
                                          bs "MAIL FROM:<a@example.com>"])) tt 0%nat))))
     = true.
Proof.
  split; [reflexivity |].
  apply (@submission_needs_authentication sampleExternals unit submissionServer
           (bs "192.0.2.1")
           (stream [bs "EHLO client.test"; bs "AUTH PLAIN AHRlc3R1c2VyAHRlc3RwYXNz";
                    bs "MAIL FROM:<a@example.com>"]) 3%nat tt 0%nat).
  - reflexivity.
  - vm_compute. discriminate.
Defined.

Lemma authentication_needs_handler_witness :
  authenticated
    (sess (snd (handleConn relayServer (bs "192.0.2.1") 2%nat
                  (mkWorld (newSession
                              (stream [bs "EHLO client.test";
                                       bs "AUTH PLAIN AHRlc3R1c2VyAHRlc3RwYXNz"])) tt 0%nat))))
  = false.
Proof.
  apply (@authentication_needs_handler sampleExternals unit relayServer).
  intros h Hh. discriminate Hh.
Defined.

Lemma ReadLine_sound_witness :
  exists term,
    bs "NOOP" ++ CRLF ++ bs "QUIT" ++ CRLF = bs "NOOP" ++ term ++ (bs "QUIT" ++ CRLF)
    /\ (term = CRLF \/ term = [LF]
        \/ (term = [] /\ bs "QUIT" ++ CRLF = [] /\ bs "NOOP" <> []))
    /\ textproto.noLF (bs "NOOP") = true
    /\ (Z.of_nat (length (bs "NOOP")) + 2 <= 512).
Proof.
  apply (@ReadLine_sound 512 (bs "NOOP" ++ CRLF ++ bs "QUIT" ++ CRLF)
           (bs "NOOP") (bs "QUIT" ++ CRLF)).
  vm_compute. reflexivity.
Defined.

Lemma ReadReply_WriteReply_witness :
  textproto.ReadReply
    (textproto.WriteReply_bytes 250 [bs "mail.test"; bs "PIPELINING"] ++ bs "next")
  = (inl (textproto.mkReply 250 [bs "mail.test"; bs "PIPELINING"]), bs "next").
Proof.
  apply (@ReadReply_WriteReply 250 [bs "mail.test"; bs "PIPELINING"] (bs "next")).
  - lia.
  - repeat constructor; vm_compute; discriminate.
Defined.

Lemma ReadReply_sound_witness :
  textproto.Lines (textproto.mkReply 250 [bs "mail.test"; bs "PIPELINING"]) <> []
  /\ Forall (fun l => textproto.noLF l = true)
       (textproto.Lines (textproto.mkReply 250 [bs "mail.test"; bs "PIPELINING"]))
  /\ exists consumed,
       bs "250-mail.test" ++ CRLF ++ bs "250 PIPELINING" ++ CRLF ++ bs "next"
       = consumed ++ bs "next" /\ consumed <> [].
Proof.
  apply (@ReadReply_sound
           (bs "250-mail.test" ++ CRLF ++ bs "250 PIPELINING" ++ CRLF ++ bs "next")
           (textproto.mkReply 250 [bs "mail.test"; bs "PIPELINING"]) (bs "next")).
  vm_compute. reflexivity.
Defined.

Lemma WireLines_replyToError_witness :
  exists reply,
    textproto.ReadReply
      (WireLines (mkSMTPError 550 (mkEnhancedCode 5 7 1) (bs "Relay denied")) ++ [])
    = (inl reply, [])
    /\ smtpclient.replyToError reply
       = mkSMTPError 550 (mkEnhancedCode 5 7 1) (bs "Relay denied").
Proof.
  apply (@WireLines_replyToError
           (mkSMTPError 550 (mkEnhancedCode 5 7 1) (bs "Relay denied")) []).
  - vm_compute; split; discriminate.
  - vm_compute; split; discriminate.
  - vm_compute; split; discriminate.
  - vm_compute; split; discriminate.
  - discriminate.
  - reflexivity.
  - vm_compute. discriminate.
Defined.

Lemma ParseEnhancedCode_roundtrip_witness :
  textproto.ParseEnhancedCode (EnhancedCode_String (mkEnhancedCode 5 7 1))
  = (5, 7, 1, [])
  /\ textproto.ParseEnhancedCode
       (EnhancedCode_String (mkEnhancedCode 5 7 1) ++ " " :: bs "Relay denied")
     = (5, 7, 1, bs "Relay denied").
Proof.
  apply (@ParseEnhancedCode_roundtrip (mkEnhancedCode 5 7 1) (bs "Relay denied"));
    vm_compute; split; discriminate.
Defined.

Lemma ParseMailbox_sound_witness :
  Mailbox_String (mkMailbox (bs "user") (bs "example.com")) = bs "user@example.com"
  /\ LocalPart (mkMailbox (bs "user") (bs "example.com")) <> []
  /\ (Z.of_nat (length (LocalPart (mkMailbox (bs "user") (bs "example.com")))) <= 64)
  /\ Domain (mkMailbox (bs "user") (bs "example.com")) <> []
  /\ (Z.of_nat (length (Domain (mkMailbox (bs "user") (bs "example.com")))) <= 255)
  /\ without "@" (Domain (mkMailbox (bs "user") (bs "example.com"))) = true.
Proof.
  apply (@ParseMailbox_sound sampleExternals (bs "user@example.com")
           (mkMailbox (bs "user") (bs "example.com"))).
  vm_compute. reflexivity.
Defined.

Lemma Path_String_roundtrip_witness :
  ParseForwardPath (ForwardPath_String (mkForwardPath (mkMailbox (bs "user") (bs "example.com"))))
  = inl (mkForwardPath (mkMailbox (bs "user") (bs "example.com")))
  /\ ParseReversePath
       (ReversePath_String (mkReversePath (mkMailbox (bs "user") (bs "example.com")) false))
     = inl (mkReversePath (mkMailbox (bs "user") (bs "example.com")) false)
  /\ ParseReversePath (ReversePath_String (mkReversePath MailboxZero true))
     = inl (mkReversePath MailboxZero true)
  /\ ParseForwardPath (ReversePath_String (mkReversePath MailboxZero true))
     = inr (errors_New "smtp: empty forward path").
Proof.
  apply (@Path_String_roundtrip sampleExternals (bs "user@example.com")
           (mkMailbox (bs "user") (bs "example.com"))).
  vm_compute. reflexivity.
Defined.

Lemma client_Mail_server_witness :
  commandStep relayServer
    (sampleWorld stateGreeted
       (smtpclient.Mail_cmd (bs "user@example.com")
          (smtpclient.mkMailOptions 1024 (bs "8BITMIME") false [] [])
          ++ CRLF ++ bs "QUIT" ++ CRLF))
  = (false,
     mkWorld
       (mkSession
          (textproto.mkConn (bs "QUIT" ++ CRLF) (bs "250 2.1.0 Originator ok" ++ CRLF))
          stateMail [] false false false 0
          (mkReversePath (mkMailbox (bs "user") (bs "example.com")) false) [] [])
       tt 0%nat).
Proof.
  exact (@client_Mail_server sampleExternals unit relayServer (bs "user@example.com")
           (smtpclient.mkMailOptions 1024 (bs "8BITMIME") false [] [])
           (mkMailbox (bs "user") (bs "example.com"))
           (sampleWorld stateGreeted
              (smtpclient.Mail_cmd (bs "user@example.com")
                 (smtpclient.mkMailOptions 1024 (bs "8BITMIME") false [] [])
                 ++ CRLF ++ bs "QUIT" ++ CRLF))
           (bs "QUIT" ++ CRLF)
           eq_refl eq_refl eq_refl eq_refl eq_refl
           ltac:(vm_compute; discriminate) eq_refl eq_refl eq_refl
           None tt eq_refl).
Defined.

Lemma client_Rcpt_server_witness :
  commandStep relayServer
    (sampleWorld stateMail
       (smtpclient.Rcpt_cmd (bs "user@example.com") (smtpclient.mkRcptOptions (bs "NEVER") [])
          ++ CRLF ++ bs "QUIT" ++ CRLF))
  = (false,
     mkWorld
       (mkSession
          (textproto.mkConn (bs "QUIT" ++ CRLF) (bs "250 2.1.5 Recipient ok" ++ CRLF))
          stateRcpt [] false false false 0 ReversePathZero
          [mkForwardPath (mkMailbox (bs "user") (bs "example.com"))] [])
       tt 0%nat).
Proof.
  exact (@client_Rcpt_server sampleExternals unit relayServer (bs "user@example.com")
           (smtpclient.mkRcptOptions (bs "NEVER") [])
           (mkMailbox (bs "user") (bs "example.com"))
           (sampleWorld stateMail
              (smtpclient.Rcpt_cmd (bs "user@example.com")
                 (smtpclient.mkRcptOptions (bs "NEVER") [])
                 ++ CRLF ++ bs "QUIT" ++ CRLF))
           (bs "QUIT" ++ CRLF)
           eq_refl eq_refl eq_refl eq_refl eq_refl
           ltac:(vm_compute; discriminate) (or_introl eq_refl) eq_refl eq_refl
           None tt eq_refl).
Defined.

Lemma client_Bdat_server_witness :
  commandStep recordingServer
    (mkWorld (set_state stateRcpt
                (newSession (smtpclient.Bdat_wire (bs "hello") true ++ bs "QUIT" ++ CRLF)))
             [] 0%nat)
  = (false,
     mkWorld
       (mkSession
          (textproto.mkConn (bs "QUIT" ++ CRLF) (bs "250 2.0.0 Message accepted" ++ CRLF))
          stateGreeted [] false false false 0 ReversePathZero [] [])
       [[bs "DATA"; bs "hello"]] 0%nat).
Proof.
  exact (@client_Bdat_server sampleExternals _ recordingServer (bs "hello")
           (bs "QUIT" ++ CRLF) true
           (mkWorld (set_state stateRcpt
                       (newSession (smtpclient.Bdat_wire (bs "hello") true
                                      ++ bs "QUIT" ++ CRLF)))
                    [] 0%nat)
           eq_refl ltac:(vm_compute; discriminate) ltac:(vm_compute; discriminate) eq_refl
           None [[bs "DATA"; bs "hello"]] eq_refl).
Defined.

Lemma login_auth_client_to_server_witness :
  commandStep recordingServer
    (mkWorld (set_state stateGreeted
                (newSession (bs "AUTH LOGIN" ++ CRLF
                               ++ stream [base64.EncodeToString (bs "testuser");
                                          base64.EncodeToString (bs "testpass")]
                               ++ bs "NOOP" ++ CRLF)))
             [] 0%nat)
  = (false,
     mkWorld
       (mkSession
          (textproto.mkConn (bs "NOOP" ++ CRLF)
             (bs "334 VXNlcm5hbWU6" ++ CRLF ++ bs "334 UGFzc3dvcmQ6" ++ CRLF
                ++ bs "235 2.0.0 Authentication successful" ++ CRLF))
          stateGreeted [] false false true 0 ReversePathZero [] [])
       [[bs "LOGIN"; bs "testuser"; bs "testpass"]] 0%nat).
Proof.
  destruct (@login_auth_client_to_server sampleExternals _ recordingServer
              (LoginAuth (bs "testuser") (bs "testpass") 0) recordAuthenticate
              (mkWorld (set_state stateGreeted
                          (newSession (bs "AUTH LOGIN" ++ CRLF
                                         ++ stream [base64.EncodeToString (bs "testuser");
                                                    base64.EncodeToString (bs "testpass")]
                                         ++ bs "NOOP" ++ CRLF)))
                       [] 0%nat)
              (bs "NOOP" ++ CRLF)
              eq_refl ltac:(vm_compute; lia) ltac:(vm_compute; lia)
              eq_refl eq_refl eq_refl eq_refl)
    as (a1 & a2 & _ & _ & Hrun).
  exact (Hrun None [[bs "LOGIN"; bs "testuser"; bs "testpass"]] eq_refl).
Defined.




Lemma verb_case_insensitive_witness :
  handleLine sampleServer (bs "QUIT") (sampleWorld stateGreeted [])
  = handleLine sampleServer (bs "quit") (sampleWorld stateGreeted []).
Proof.
  apply (@verb_case_insensitive sampleExternals unit sampleServer (bs "quit") (bs "quit")
           [] false (sampleWorld stateGreeted [])); reflexivity.
Defined.

Lemma Close_final_witness :
  exists sent,
    w (snd (Close (snd (Write (newDotWriter []) (bs "hi"))))) = sent ++ ["."; CR; LF].
Proof.
  destruct (@Close_final (snd (Write (newDotWriter []) (bs "hi")))
              [OpWrite (bs "more"); OpClose] eq_refl) as (_ & _ & _ & Hend).
  exact Hend.
Defined.

End MoreExamples.
